(** * Reconciliation orchestrator of hierarchicalforecast ([core.py])

    A shallow embedding of [_build_fn_name], [_reverse_engineer_sigmah] and
    of the class [HierarchicalReconciliation] ([_prepare_fit], [reconcile],
    [bootstrap_reconcile]), with the properties of the orchestrator that the
    specification states about them.

    Conventions of the embedding:
    - Python [str] is [string]; column names are taken to be ASCII.
    - A Python [int] is a [Z]; a Python [float] is a rational together with
      the text [format] prints for it (the shortest round-trip printing of
      binary floats is not part of this development).  Arithmetic on
      [float64] is exact; the cast [astype(np.float32)] is a parameter.
    - [scipy.stats.norm.ppf], [time.time] and the re-sorting of the frames
      that [sort_df] asks of pandas are parameters ([externals]).
    - The reconciliation algorithms are external.  What they return is kept
      symbolically, as a reference to the call that produced it; whether a
      call returns or raises is a parameter too. *)

From Stdlib Require Import List String Ascii Bool Arith ZArith QArith Lia.
From Stdlib Require Import DecimalString Permutation Sorted Qround.
Import ListNotations.

Close Scope Q_scope.
Open Scope nat_scope.
Open Scope list_scope.
Open Scope string_scope.

(* ================================================================== *)
(** * Python strings *)

Module Str.

(** [sub in s] *)
Fixpoint contains (sub s : string) : bool :=
  if String.prefix sub s then true
  else match s with
       | EmptyString => false
       | String _ s' => contains sub s'
       end.

(** [sep.join(l)] *)
Fixpoint join (sep : string) (l : list string) : string :=
  match l with
  | [] => ""
  | [x] => x
  | x :: l' => x ++ sep ++ join sep l'
  end.

(** [str(z)] for an [int] *)
Definition of_Z (z : Z) : string := NilZero.string_of_int (Z.to_int z).

(** [x in l] for a list of strings *)
Definition mem (x : string) (l : list string) : bool :=
  existsb (String.eqb x) l.

End Str.

(* ================================================================== *)
(** * Python values *)

(** Numbers: an [int], or a [float] with its printed form. *)
Inductive number :=
| Int (z : Z)
| Float (q : Q) (repr : string).

Definition num_value (n : number) : Q :=
  match n with
  | Int z => inject_Z z
  | Float q _ => q
  end.

(** [f'{n}'] *)
Definition format_number (n : number) : string :=
  match n with
  | Int z => Str.of_Z z
  | Float _ r => r
  end.

(** The attribute values a reconciler instance holds. *)
Inductive pyval :=
| VNone
| VBool (b : bool)
| VNum (n : number)
| VStr (s : string).

(** [f'{v}'] *)
Definition format_val (v : pyval) : string :=
  match v with
  | VNone => "None"
  | VBool true => "True"
  | VBool false => "False"
  | VNum n => format_number n
  | VStr s => s
  end.

(** [bool(v)] *)
Definition truthy (v : pyval) : bool :=
  match v with
  | VNone => false
  | VBool b => b
  | VNum n => negb (Qeq_bool (num_value n) 0%Q)
  | VStr s => negb (String.eqb s "")
  end.

(** [v == 'lit'] for a string literal *)
Definition eq_str (v : pyval) (lit : string) : bool :=
  match v with
  | VStr s => String.eqb s lit
  | _ => false
  end.

(** [v == x] for a float literal [x] *)
Definition eq_float (v : pyval) (x : Q) : bool :=
  match v with
  | VBool b => Qeq_bool (if b then 1%Q else 0%Q) x
  | VNum n => Qeq_bool (num_value n) x
  | _ => false
  end.

(* ================================================================== *)
(** * Errors *)

(** One constructor per [raise] of [core.py], then the exceptions of the
    interpreter and of numpy/pandas that the modelled statements can
    throw. *)
Inductive error :=
| UnknownIntervalMethod (intervals_method : string)  (* ValueError, l.129 *)
| MissingYdf                                         (* l.133 *)
| LevelOutsideDomain                                 (* l.139 *)
| NonNumericColumns                                  (* l.147 *)
| NullValues                                         (* l.151 *)
| ModelsNotInYdf                                     (* l.159 *)
| SeriesDifferenceS (S_diff Y_hat_diff : nat)        (* l.167 *)
| SeriesDifferenceY (Y_hat_diff Y_diff : nat)        (* l.174 *)
| MissingIntervals (model_name : string)             (* l.64 *)
| KeyError (key : string)
| IndexError
| FloatValueError (text : string)
| ReshapeError (size rows : nat)
| BroadcastError
| TypeError
| LengthMismatch (expected given : nat)
| NoObjectsToConcatenate
| UnboundLocalError (name : string)
| LibraryError (what : string)     (* raised inside pandas or numpy *)
| ReconcilerError (what : string). (* raised by a reconciler *)

(** The text of the exception, as the f-strings build it. *)
Definition message (e : error) : string :=
  match e with
  | UnknownIntervalMethod m => "Unkwon interval method: " ++ m
  | MissingYdf => "you need to pass `Y_df`"
  | LevelOutsideDomain => "Level outside domain, send `level` list in [0,100)"
  | NonNumericColumns => "`Y_hat_df`s columns contain non numeric types"
  | NullValues => "`Y_hat_df` contains null values"
  | ModelsNotInYdf => "Check `Y_hat_df`s models are included in `Y_df` columns"
  | SeriesDifferenceS s y =>
      "Check `S_df`, `Y_hat_df` series difference, S\Y_hat="
        ++ Str.of_Z (Z.of_nat s) ++ ", Y_hat\S=" ++ Str.of_Z (Z.of_nat y)
  | SeriesDifferenceY yh y =>
      "Check `Y_hat_df`, `Y_df` series difference, Y_hat\Y="
        ++ Str.of_Z (Z.of_nat yh) ++ ", Y\Y_hat=" ++ Str.of_Z (Z.of_nat y)
  | MissingIntervals m =>
      "Please include `" ++ m ++ "` prediction intervals in `Y_hat_df`"
  | KeyError k => k
  | IndexError => "list index out of range"
  | FloatValueError t => "could not convert string to float: '" ++ t ++ "'"
  | ReshapeError _ _ => "cannot reshape array"
  | BroadcastError => "operands could not be broadcast together"
  | TypeError => "unsupported operand type(s)"
  | LengthMismatch _ _ => "Length mismatch"
  | NoObjectsToConcatenate => "No objects to concatenate"
  | UnboundLocalError n => "local variable '" ++ n ++ "' referenced before assignment"
  | LibraryError what => what
  | ReconcilerError what => what
  end.

Definition result (A : Type) : Type := (error + A)%type.

Definition ok {A} (a : A) : result A := inr a.
Definition raise {A} (e : error) : result A := inl e.

Definition rbind {A B} (r : result A) (k : A -> result B) : result B :=
  match r with
  | inl e => inl e
  | inr a => k a
  end.

Declare Scope result_scope.
Delimit Scope result_scope with res.
Notation "x <- c ;; k" := (rbind c (fun x => k))
  (at level 61, c at next level, right associativity) : result_scope.

(* ================================================================== *)
(** * Dictionaries

    A Python [dict] keeps insertion order; assignment to an existing key
    keeps the key's place. *)

Section Dict.
Context {A : Type}.

Fixpoint dict_get (k : string) (d : list (string * A)) : option A :=
  match d with
  | [] => None
  | (k', v) :: d' => if String.eqb k k' then Some v else dict_get k d'
  end.

Fixpoint dict_set (k : string) (v : A) (d : list (string * A))
  : list (string * A) :=
  match d with
  | [] => [(k, v)]
  | (k', v') :: d' =>
      if String.eqb k k' then (k, v) :: d' else (k', v') :: dict_set k v d'
  end.

Definition keys (d : list (string * A)) : list string := map fst d.

(** [d[k]] *)
Definition dict_item (k : string) (d : list (string * A)) : result A :=
  match dict_get k d with
  | Some v => ok v
  | None => raise (KeyError k)
  end.
End Dict.

(* ================================================================== *)
(** * Reconciler instances and their names *)

(** What the orchestrator reads from a reconciler object [fn]:
    [type(fn).__name__], [fn.__dict__], the attributes [insample] and
    [is_sparse_method], and the parameter names of [signature(fn)]. *)
Record reconciler := {
  type_name : string;
  attributes : list (string * pyval);
  insample : bool;
  is_sparse_method : bool;
  parameters : list string
}.

(** The list [args_to_remove] of [_build_fn_name]. *)
Definition args_to_remove (fn : reconciler) : result (list string) :=
  let fn_name := type_name fn in
  let func_params := attributes fn in
  let args := ["insample"; "num_threads"] in
  let args :=
    if negb (truthy (match dict_get "nonnegative" func_params with
                     | Some v => v
                     | None => VBool false
                     end))
    then (args ++ ["nonnegative"])%list else args in
  if String.eqb fn_name "MinTrace" then
    (method <- dict_item "method" func_params ;;
     if eq_str method "mint_shrink" then
       (ridge <- dict_item "mint_shr_ridge" func_params ;;
        if eq_float ridge (2 # 100000000)%Q
        then ok (args ++ ["mint_shr_ridge"])%list else ok args)
     else ok args)%res
  else ok args.

Definition token (p : string * pyval) : string :=
  fst p ++ "-" ++ format_val (snd p).

Definition _build_fn_name (fn : reconciler) : result string :=
  (removed <- args_to_remove fn ;;
   let func_params :=
     map token
         (filter (fun p => negb (Str.mem (fst p) removed)) (attributes fn)) in
   match func_params with
   | [] => ok (type_name fn)
   | _ => ok (type_name fn ++ "_" ++ Str.join "_" func_params)
   end)%res.

(* ================================================================== *)
(** * Regular expressions

    The fragment of [re] that [core.py] uses: an alternation of sequences
    of character classes, each taken once, [+] or [*].  Matching is the
    backtracking one of [re]: alternatives in order, repetitions greedy. *)

Module Regex.

Inductive quantifier := Once | Plus | Star.

Definition item : Type := (ascii -> bool) * quantifier.

(** Length of the longest prefix of [s] inside the class [c]. *)
Fixpoint span (c : ascii -> bool) (s : string) : nat :=
  match s with
  | String a s' => if c a then S (span c s') else 0
  | EmptyString => 0
  end.

Fixpoint drop (n : nat) (s : string) : string :=
  match n, s with
  | S n', String _ s' => drop n' s'
  | _, _ => s
  end.

Fixpoint take (n : nat) (s : string) : string :=
  match n, s with
  | S n', String a s' => String a (take n' s')
  | _, _ => ""
  end.

(** [match_seq p s]: what is left of [s] after the first successful way of
    matching the sequence [p] at the start of [s]. *)
Fixpoint match_seq (p : list item) (s : string) : option string :=
  match p with
  | [] => Some s
  | (c, q) :: p' =>
      let n := span c s in
      let lo := match q with Star => 0 | _ => 1 end in
      let hi := match q with Once => Nat.min 1 n | _ => n end in
      (fix back (k : nat) : option string :=
         if Nat.ltb k lo then None
         else match match_seq p' (drop k s) with
              | Some r => Some r
              | None => match k with
                        | 0 => None
                        | S k' => back k'
                        end
              end) hi
  end.

Fixpoint match_alt (alts : list (list item)) (s : string) : option string :=
  match alts with
  | [] => None
  | p :: alts' =>
      match match_seq p s with
      | Some r => Some r
      | None => match_alt alts' s
      end
  end.

(** [re.findall]; [skip] is the number of characters still covered by the
    previous match.  The alternatives are taken not to match the empty
    string. *)
Fixpoint findall_from (alts : list (list item)) (s : string) (skip : nat)
  : list string :=
  match s with
  | EmptyString => []
  | String _ s' =>
      match skip with
      | S k => findall_from alts s' k
      | 0 =>
          match match_alt alts s with
          | Some r =>
              let len := String.length s - String.length r in
              take len s :: findall_from alts s' (len - 1)
          | None => findall_from alts s' 0
          end
      end
  end.

Definition findall (alts : list (list item)) (s : string) : list string :=
  findall_from alts s 0.

Definition digit (a : ascii) : bool :=
  let n := nat_of_ascii a in Nat.leb 48 n && Nat.leb n 57.

Definition dot (a : ascii) : bool := Ascii.eqb a ".".

Definition comma (a : ascii) : bool := Ascii.eqb a ",".

(** ['[\d]+[.,\d]+|[\d]*[.][\d]+|[\d]+'] *)
Definition number_pattern : list (list item) :=
  [ [ (digit, Plus); ((fun a => dot a || comma a || digit a), Plus) ];
    [ (digit, Star); (dot, Once); (digit, Plus) ];
    [ (digit, Plus) ] ].

End Regex.

(* ================================================================== *)
(** * [float(text)] on the texts the pattern can return *)

Fixpoint digits_value (s : string) (acc : Z) : option Z :=
  match s with
  | EmptyString => Some acc
  | String a s' =>
      if Regex.digit a
      then digits_value s' (10 * acc + (Z.of_nat (nat_of_ascii a) - 48))%Z
      else None
  end.

(** Splits at the first ["."]. *)
Fixpoint split_dot (s : string) : string * option string :=
  match s with
  | EmptyString => ("", None)
  | String a s' =>
      if Regex.dot a then ("", Some s')
      else let (i, f) := split_dot s' in (String a i, f)
  end.

Definition float_of_text (s : string) : result Q :=
  let (i, f) := split_dot s in
  let f := match f with Some f => f | None => "" end in
  if Nat.eqb (String.length i + String.length f) 0 then raise (FloatValueError s)
  else
    match digits_value (i ++ f) 0%Z with
    | Some n => ok (Qmake n (Z.to_pos (10 ^ Z.of_nat (String.length f))))
    | None => raise (FloatValueError s)
    end.

(* ================================================================== *)
(** * Frames and arrays *)

(** A cell of a data frame: a number, a null ([NaN]/[None]), or any other
    object. *)
Inductive cell :=
| Num (q : Q)
| Null
| Obj (s : string).

(** A [pd.DataFrame]: the row labels ([unique_id]) and the columns in
    order. *)
Record frame := {
  index : list string;
  columns : list (string * list cell)
}.

Definition column_names (df : frame) : list string := keys (columns df).

(** [Index.unique()]: first occurrences, in order. *)
Fixpoint unique_from (seen l : list string) : list string :=
  match l with
  | [] => []
  | x :: l' =>
      if Str.mem x seen then unique_from seen l'
      else x :: unique_from (x :: seen) l'
  end.

Definition unique (l : list string) : list string := unique_from [] l.

(** [df.drop(columns=labels, axis=1).columns.to_list()] *)
Definition drop_columns (labels : list string) (df : frame)
  : result (list string) :=
  match filter (fun c => negb (Str.mem c (column_names df))) labels with
  | [] => ok (filter (fun c => negb (Str.mem c labels)) (column_names df))
  | missing :: _ => raise (KeyError missing)
  end.

Fixpoint chunks {A} (rows width : nat) (l : list A) : list (list A) :=
  match rows with
  | 0 => []
  | S r => firstn width l :: chunks r width (skipn width l)
  end.

(** [a.reshape(n, -1)] of a one-dimensional array *)
Definition reshape {A} (n : nat) (l : list A) : result (list (list A)) :=
  if Nat.eqb n 0 then raise (ReshapeError (List.length l) n)
  else if Nat.eqb (List.length l mod n) 0 then ok (chunks n (List.length l / n) l)
  else raise (ReshapeError (List.length l) n).

(** An entry of a float array: [None] stands for a value that is not a
    finite number. *)
Definition xfloat : Type := option Q.

Definition matrix : Type := list (list xfloat).

Definition cell_value (c : cell) : result xfloat :=
  match c with
  | Num q => ok (Some q)
  | Null => ok None
  | Obj _ => raise (TypeError)
  end.

Fixpoint mapM {A B} (f : A -> result B) (l : list A) : result (list B) :=
  match l with
  | [] => ok []
  | x :: l' => (y <- f x ;; ys <- mapM f l' ;; ok (y :: ys))%res
  end.

Fixpoint zip_with {A B C} (f : A -> B -> C) (a : list A) (b : list B)
  : list C :=
  match a, b with
  | x :: a', y :: b' => f x y :: zip_with f a' b'
  | _, _ => []
  end.

(** numpy's broadcasting along one axis: equal lengths, or one of them 1. *)
Definition broadcast {A B C} (f : A -> B -> result C)
           (a : list A) (b : list B) : result (list C) :=
  if Nat.eqb (List.length a) (List.length b) then mapM (fun r => r) (zip_with f a b)
  else match a, b with
       | [x], _ => mapM (f x) b
       | _, [y] => mapM (fun x => f x y) a
       | _, _ => raise BroadcastError
       end.

Definition xsub (a : cell) (b : xfloat) : result xfloat :=
  (a <- cell_value a ;;
   match a, b with
   | Some x, Some y => ok (Some (x - y)%Q)
   | _, _ => ok None
   end)%res.

Definition xscale (sign : Z) (a : xfloat) : xfloat :=
  option_map (fun x => (inject_Z sign * x)%Q) a.

Definition xdiv (a : xfloat) (z : Q) : xfloat :=
  match a with
  | Some x => if Qeq_bool z 0%Q then None else Some (x / z)%Q
  | None => None
  end.

(* ================================================================== *)
(** * Sigma from a prediction interval ([_reverse_engineer_sigmah]) *)

(** The column [pi_model_name[0]], or the exception of line 64. *)
Definition pi_column (Y_hat_df : frame) (model_name : string)
  : result string :=
  let drop_cols := ["ds"] in
  let drop_cols :=
    if Str.mem "y" (column_names Y_hat_df)
    then (drop_cols ++ ["y"])%list else drop_cols in
  let drop_cols :=
    if Str.mem (model_name ++ "-median") (column_names Y_hat_df)
    then (drop_cols ++ [(model_name ++ "-median")%string])%list
    else drop_cols in
  (model_names <- drop_columns drop_cols Y_hat_df ;;
   let pi_model_names :=
     filter (fun name => Str.contains "-lo" name || Str.contains "-hi" name)
            model_names in
   let pi_model_name :=
     filter (fun pi_name => Str.contains model_name pi_name) pi_model_names in
   match pi_model_name with
   | [] => raise (MissingIntervals model_name)
   | pi_col :: _ => ok pi_col
   end)%res.

(** [-1 if 'lo' in pi_col else 1] *)
Definition sign_of (pi_col : string) : Z :=
  if Str.contains "lo" pi_col then (-1)%Z else 1%Z.

(** [float(re.findall(...)[-1])] *)
Definition level_of (pi_col : string) : result Q :=
  match rev (Regex.findall Regex.number_pattern pi_col) with
  | [] => raise IndexError
  | last :: _ => float_of_text last
  end.

Section Sigmah.

Variable ppf : Q -> Q.

Definition _reverse_engineer_sigmah
           (Y_hat_df : frame) (y_hat : matrix) (model_name : string)
  : result matrix :=
  (pi_col <- pi_column Y_hat_df model_name ;;
   let n_series := List.length (unique (index Y_hat_df)) in
   let sign := sign_of pi_col in
   level_col <- level_of pi_col ;;
   let z := ppf ((1 # 2) + level_col / (200 # 1))%Q in
   values <- dict_item pi_col (columns Y_hat_df) ;;
   sigmah <- reshape n_series values ;;
   diff <- broadcast (broadcast xsub) sigmah y_hat ;;
   ok (map (map (fun d => xdiv (xscale sign d) z)) diff))%res.

End Sigmah.

(* ================================================================== *)
(** * The orchestrator's state

    [reconcile] writes attributes of [self], sorts the list object it is
    given as [level] in place, calls the reconcilers and reads the clock.
    All of it is threaded through a state. *)

(** The values stored in the dictionary [reconciler_args]. *)
Inductive arg :=
| IdxBottom                          (* S_df.index.get_indexer(S.columns) *)
| TagsIdx                            (* {key: S_df.index.get_indexer(val)} *)
| SMatrix (sparse : bool)            (* S_for_sparse, or the dense values *)
| FromYdf (column : string)          (* an array built from a column of Y_df *)
| Array (m : matrix)
| Text (s : string)
| Integer (z : Z)
| Level (lv : option (list number)). (* the object passed as [level] *)

(** The ways [reconcile] invokes a reconciler. *)
Inductive operation :=
| FitPredict                  (* calling reconcile_fn itself *)
| Fit                         (* reconcile_fn.fit *)
| Predict                     (* reconciler.predict *)
| Sample (num_samples : Z).   (* reconciler.sample *)

(** A call: the object called, the operation, and the keyword arguments
    it is given. *)
Record call := {
  receiver : reconciler;
  op : operation;
  kwargs : list (string * arg)
}.

(** Data of a column of the output: cells copied from the input, a part of
    what the [k]-th call returned, or a scalar assigned to every row. *)
Inductive coldata :=
| Cells (l : list cell)
| Mean (k : nat)
| Quantile (k j : nat)
| SampleColumn (k j : nat)
| Scalar (z : Z).

Record out_frame := {
  out_index : list string;
  out_columns : list (string * coldata)
}.

Record state := {
  (* attributes of [self] *)
  reconcilers : list reconciler;
  orig_reconcilers : list reconciler;
  self_insample : bool;
  model_names : list string;
  execution_times : list (string * Q);
  level_names : list (string * list string);
  sample_names : list (string * list string);
  (* the object the caller passes as [level]: [None], or a list *)
  level : option (list number);
  (* the calls made to reconcilers so far, oldest first *)
  calls : list call;
  (* the number of times the clock has been read *)
  clock : nat
}.

(** [HierarchicalReconciliation.__init__]; the attributes that only
    [reconcile] creates start empty, and [deepcopy] of a reconciler is the
    reconciler. *)
Definition __init__ (rs : list reconciler) (lv : option (list number))
  : state :=
  {| reconcilers := rs;
     orig_reconcilers := rs;
     self_insample := existsb insample rs;
     model_names := [];
     execution_times := [];
     level_names := [];
     sample_names := [];
     level := lv;
     calls := [];
     clock := 0 |}.

Definition set_model_names (v : list string) (st : state) : state :=
  {| reconcilers := reconcilers st; orig_reconcilers := orig_reconcilers st;
     self_insample := self_insample st; model_names := v;
     execution_times := execution_times st; level_names := level_names st;
     sample_names := sample_names st; level := level st;
     calls := calls st; clock := clock st |}.

Definition set_execution_times (v : list (string * Q)) (st : state) : state :=
  {| reconcilers := reconcilers st; orig_reconcilers := orig_reconcilers st;
     self_insample := self_insample st; model_names := model_names st;
     execution_times := v; level_names := level_names st;
     sample_names := sample_names st; level := level st;
     calls := calls st; clock := clock st |}.

Definition set_level_names (v : list (string * list string)) (st : state)
  : state :=
  {| reconcilers := reconcilers st; orig_reconcilers := orig_reconcilers st;
     self_insample := self_insample st; model_names := model_names st;
     execution_times := execution_times st; level_names := v;
     sample_names := sample_names st; level := level st;
     calls := calls st; clock := clock st |}.

Definition set_sample_names (v : list (string * list string)) (st : state)
  : state :=
  {| reconcilers := reconcilers st; orig_reconcilers := orig_reconcilers st;
     self_insample := self_insample st; model_names := model_names st;
     execution_times := execution_times st; level_names := level_names st;
     sample_names := v; level := level st;
     calls := calls st; clock := clock st |}.

Definition set_level (v : option (list number)) (st : state) : state :=
  {| reconcilers := reconcilers st; orig_reconcilers := orig_reconcilers st;
     self_insample := self_insample st; model_names := model_names st;
     execution_times := execution_times st; level_names := level_names st;
     sample_names := sample_names st; level := v;
     calls := calls st; clock := clock st |}.

Definition set_calls (v : list call) (st : state) : state :=
  {| reconcilers := reconcilers st; orig_reconcilers := orig_reconcilers st;
     self_insample := self_insample st; model_names := model_names st;
     execution_times := execution_times st; level_names := level_names st;
     sample_names := sample_names st; level := level st;
     calls := v; clock := clock st |}.

Definition set_clock (v : nat) (st : state) : state :=
  {| reconcilers := reconcilers st; orig_reconcilers := orig_reconcilers st;
     self_insample := self_insample st; model_names := model_names st;
     execution_times := execution_times st; level_names := level_names st;
     sample_names := sample_names st; level := level st;
     calls := calls st; clock := v |}.

(** Computations that read and write the state and may raise.  When one
    raises, the state is the one reached at the [raise]. *)
Definition M (A : Type) : Type := state -> state * result A.

Definition ret {A} (a : A) : M A := fun st => (st, inr a).

Definition throw {A} (e : error) : M A := fun st => (st, inl e).

Definition bind {A B} (c : M A) (k : A -> M B) : M B :=
  fun st =>
    match c st with
    | (st', inr a) => k a st'
    | (st', inl e) => (st', inl e)
    end.

Definition lift {A} (r : result A) : M A := fun st => (st, r).

Definition get {A} (f : state -> A) : M A := fun st => (st, inr (f st)).

Definition modify (f : state -> state) : M unit := fun st => (f st, inr tt).

Declare Scope monad_scope.
Delimit Scope monad_scope with M.
Notation "x <- c ;; k" := (bind c (fun x => k))
  (at level 61, c at next level, right associativity) : monad_scope.
Notation "c ;;; k" := (bind c (fun _ => k))
  (at level 61, right associativity) : monad_scope.

(** [for x in l: acc = body(x, acc)] *)
Fixpoint for_each {A B} (l : list A) (body : A -> B -> M B) (acc : B) : M B :=
  match l with
  | [] => ret acc
  | x :: l' => (acc' <- body x acc ;; for_each l' body acc')%M
  end.

(* ================================================================== *)
(** * What comes from outside the module

    The orchestrator relies on library functions and on the reconcilers.
    What they compute is left open: every property below holds whatever
    they do. *)

Record externals := {
  (** [scipy.stats.norm.ppf] *)
  norm_ppf : Q -> Q;
  (** what the [n]-th reading of [time.time()] returns *)
  time_time : nat -> Q;
  (** [astype(np.float32)] on one finite value: the nearest [float32], or
      no finite number *)
  astype_float32 : Q -> xfloat;
  (** lines 111-115 (and 118-122) on one frame: [reset_index], the
      [unique_id] made a category over [S_df.index], [sort_values] by
      [unique_id] and [ds], [set_index]; the frame that results, or the
      text of the exception pandas raises.  A label that [S_df.index] does
      not have becomes [NaN], one and the same label for all of them. *)
  sort_on : frame -> frame -> string + frame;
  (** line 124, [S_df.index = pd.CategoricalIndex(...)] *)
  categorical_index : frame -> string + frame;
  (** whether [S_df.index.get_indexer] raises (lines 235-237), as it
      does for an index that repeats a label, and the text of its
      exception *)
  get_indexer : frame -> option string;
  (** whether reading an array from a column of [Y_df] (lines 248-252 and
      278-282) raises in [astype], [pivot] or [loc], and the text of the
      exception; the arguments are [Y_df], [S_df], the column and
      [is_balanced] *)
  array_error : frame -> frame -> string -> bool -> option string;
  (** whether the last call of a list of calls made so far raises, and
      the text of its exception; among them the [TypeError] of a call that
      is given a keyword its callee does not take, as [level] at line 304
      when the reconciler takes none *)
  raises : list call -> option string
}.

(* ================================================================== *)
(** * Validation ([_prepare_fit]) *)

Definition resampling (intervals_method : string) : bool :=
  Str.mem intervals_method ["bootstrap"; "permbu"].

(** [np.any((np.array(level) < 0)|(np.array(level) >= 100))] *)
Definition level_outside_domain (lv : list number) : bool :=
  existsb (fun n => negb (Qle_bool 0 (num_value n))
                    || Qle_bool (100 # 1) (num_value n)) lv.

Definition numeric_column (cells : list cell) : bool :=
  forallb (fun c => match c with Obj _ => false | _ => true end) cells.

Definition has_null (cells : list cell) : bool :=
  existsb (fun c => match c with Null => true | _ => false end) cells.

(** The cells of the columns called [names]. *)
Definition select (names : list string) (df : frame) : list (list cell) :=
  map (fun name => match dict_get name (columns df) with
                   | Some cells => cells
                   | None => []
                   end) names.

(** [len(a.difference(b))] for two indexes *)
Definition index_difference (a b : list string) : nat :=
  List.length (unique (filter (fun x => negb (Str.mem x b)) a)).

Fixpoint positions (x : string) (l : list string) (i : nat) : list nat :=
  match l with
  | [] => []
  | y :: l' =>
      if String.eqb x y then i :: positions x l' (S i) else positions x l' (S i)
  end.

(** [df.loc[labels]] *)
Definition loc (labels : list string) (df : frame) : result frame :=
  match filter (fun u => negb (Str.mem u (index df))) labels with
  | missing :: _ => raise (KeyError missing)
  | [] =>
      let pos := flat_map (fun u => positions u (index df) 0) labels in
      ok {| index := map (fun i => nth i (index df) "") pos;
            columns := map (fun c => (fst c, map (fun i => nth i (snd c) Null) pos))
                           (columns df) |}
  end.

(** The checks, lines 126-179. *)
Definition _prepare_fit_checks (self_insample : bool)
           (Y_hat_df S_df : frame) (Y_df : option frame)
           (level : option (list number)) (intervals_method : string)
  : result (frame * frame * option frame * list string) :=
  if negb (Str.mem intervals_method ["normality"; "bootstrap"; "permbu"])
  then raise (UnknownIntervalMethod intervals_method)
  else if (self_insample || resampling intervals_method)
          && match Y_df with None => true | Some _ => false end
  then raise MissingYdf
  else if match level with
          | Some lv => level_outside_domain lv
                       && Str.mem intervals_method ["normality"; "permbu"]
          | None => false
          end
  then raise LevelOutsideDomain
  else
    (let drop_cols :=
       if Str.mem "y" (column_names Y_hat_df) then ["ds"; "y"] else ["ds"] in
     model_names <- drop_columns drop_cols Y_hat_df ;;
     if negb (forallb numeric_column (select model_names Y_hat_df))
     then raise NonNumericColumns
     else if existsb has_null (select model_names Y_hat_df)
     then raise NullValues
     else
       let pi_model_names :=
         filter (fun name => Str.contains "-lo" name || Str.contains "-hi" name
                             || Str.contains "-median" name) model_names in
       let model_names :=
         filter (fun name => negb (Str.mem name pi_model_names)) model_names in
       if resampling intervals_method
          && negb (forallb (fun name =>
                              match Y_df with
                              | Some df => Str.mem name (column_names df)
                              | None => false
                              end) model_names)
       then raise ModelsNotInYdf
       else
         let uids := unique (index Y_hat_df) in
         let S_diff := index_difference (index S_df) uids in
         let Y_hat_diff :=
           index_difference (index Y_hat_df) (unique (index S_df)) in
         if Nat.ltb 0 S_diff || Nat.ltb 0 Y_hat_diff
         then raise (SeriesDifferenceS S_diff Y_hat_diff)
         else
           match Y_df with
           | Some df =>
               let Y_diff := index_difference (index df) uids in
               let Y_hat_diff :=
                 index_difference (index Y_hat_df) (unique (index df)) in
               if Nat.ltb 0 Y_diff || Nat.ltb 0 Y_hat_diff
               then raise (SeriesDifferenceY Y_hat_diff Y_diff)
               else (S_df <- loc uids S_df ;;
                     ok (Y_hat_df, S_df, Y_df, model_names))
           | None => (S_df <- loc uids S_df ;;
                      ok (Y_hat_df, S_df, Y_df, model_names))
           end)%res.

(** An exception raised inside pandas or numpy. *)
Definition library {A} (r : string + A) : result A :=
  match r with
  | inl what => raise (LibraryError what)
  | inr a => ok a
  end.

Definition refused (r : option string) : result unit :=
  match r with
  | Some what => raise (LibraryError what)
  | None => ok tt
  end.

(** The re-sorting, lines 110-124: under [sort_df] the forecasts, then the
    historical frame when there is one, are put in the order of [S_df],
    and the index of [S_df] is made categorical.  The forecasts and the
    historical frame are new frames; line 124 assigns the index of the
    [S_df] of the caller, whose frames are not part of the state kept
    here. *)
Definition arrange (ext : externals)
           (Y_hat_df S_df : frame) (Y_df : option frame) (sort_df : bool)
  : result (frame * frame * option frame) :=
  if sort_df then
    (Y_hat_df <- library (sort_on ext Y_hat_df S_df) ;;
     Y_df <- match Y_df with
             | Some df => (df <- library (sort_on ext df S_df) ;;
                           ok (Some df))
             | None => ok None
             end ;;
     S_df <- library (categorical_index ext S_df) ;;
     ok (Y_hat_df, S_df, Y_df))%res
  else ok (Y_hat_df, S_df, Y_df).

Definition _prepare_fit (ext : externals) (self_insample : bool)
           (Y_hat_df S_df : frame) (Y_df : option frame)
           (level : option (list number)) (intervals_method : string)
           (sort_df : bool)
  : result (frame * frame * option frame * list string) :=
  (frames <- arrange ext Y_hat_df S_df Y_df sort_df ;;
   let '(Y_hat_df, S_df, Y_df) := frames in
   _prepare_fit_checks self_insample Y_hat_df S_df Y_df level
                       intervals_method)%res.

(* ================================================================== *)
(** * [list.sort()] on numbers: stable, ascending *)

Fixpoint insert_sorted (x : number) (l : list number) : list number :=
  match l with
  | [] => [x]
  | y :: l' =>
      if Qle_bool (num_value x) (num_value y) then x :: l
      else y :: insert_sorted x l'
  end.

Definition list_sort (l : list number) : list number :=
  fold_right insert_sorted [] l.

(** [range(n)] *)
Definition range (n : Z) : list Z := map Z.of_nat (seq 0 (Z.to_nat n)).

(* ================================================================== *)
(** * Output columns *)

(** [df[name] = data]: replaces the data of every column called [name], or
    appends a new column. *)
Definition setitem (name : string) (data : coldata)
           (cols : list (string * coldata)) : list (string * coldata) :=
  if Str.mem name (keys cols)
  then map (fun c => if String.eqb (fst c) name then (fst c, data) else c) cols
  else (cols ++ [(name, data)])%list.

Fixpoint enumerate_from {A} (i : nat) (l : list A) : list (nat * A) :=
  match l with
  | [] => []
  | x :: l' => (i, x) :: enumerate_from (S i) l'
  end.

(** [pd.DataFrame(array, columns=names)] with the [j]-th column of the
    array under the [j]-th name. *)
Definition array_columns (part : nat -> coldata) (names : list string)
  : list (string * coldata) :=
  map (fun jn => (snd jn, part (fst jn))) (enumerate_from 0 names).

Definition lo_names (recmodel_name : string) (lv : list number)
  : list string :=
  map (fun l => recmodel_name ++ "-lo-" ++ format_number l) (rev lv).

Definition hi_names (recmodel_name : string) (lv : list number)
  : list string :=
  map (fun l => recmodel_name ++ "-hi-" ++ format_number l) lv.

Definition sample_column_names (recmodel_name : string) (num_samples : Z)
  : list string :=
  map (fun i => recmodel_name ++ "-sample-" ++ Str.of_Z i) (range num_samples).

(* ================================================================== *)
(** * [reconcile] and [bootstrap_reconcile] *)

Section Orchestrator.

Variable ext : externals.

Definition time : M Q :=
  fun st => (set_clock (S (clock st)) st, inr (time_time ext (clock st))).

(** Makes a call to a reconciler: the call is recorded, and either it
    raises or it returns; the result is the number of the call. *)
Definition invoke (c : call) : M nat :=
  fun st =>
    let made := (calls st ++ [c])%list in
    match raises ext made with
    | Some what => (set_calls made st, inl (ReconcilerError what))
    | None => (set_calls made st, inr (List.length (calls st)))
    end.

(** [a.astype(np.float32)] *)
Definition astype (m : matrix) : matrix :=
  map (map (fun x : xfloat => match x with
                              | Some q => astype_float32 ext q
                              | None => None
                              end)) m.

(** An array read from the column [column] of [Y_df]: reshaped when
    [is_balanced], pivoted on [ds] otherwise. *)
Definition from_Y_df (Y_df : option frame) (column : string)
           (is_balanced : bool) (S_df : frame) : result arg :=
  match Y_df with
  | None => raise TypeError
  | Some df =>
      (cells <- dict_item column (columns df) ;;
       shaped <- (if is_balanced
                  then (rows <- reshape (List.length (index S_df)) cells ;;
                        ok tt)
                  else ok tt) ;;
       built <- refused (array_error ext df S_df column is_balanced) ;;
       ok (FromYdf column))%res
  end.

(** [kwargs]: the entries of [reconciler_args] that the signature of the
    reconciler names, in the order of the signature. *)
Definition select_kwargs (fn : reconciler) (reconciler_args : list (string * arg))
  : list (string * arg) :=
  flat_map (fun key => match dict_get key reconciler_args with
                       | Some v => [(key, v)]
                       | None => []
                       end) (parameters fn).

(** The body of the loop over [self.model_names] (lines 272-333). *)
Definition reconcile_model
           (Y_hat_df S_df : frame) (Y_df : option frame)
           (intervals_method : string) (num_samples seed : Z)
           (is_balanced : bool) (start : Q)
           (reconcile_fn : reconciler) (reconcile_fn_name : string)
           (has_fitted has_level : bool)
           (model_name : string)
           (acc : list (string * arg) * list (string * coldata))
  : M (list (string * arg) * list (string * coldata)) :=
  (let (reconciler_args, Y_tilde_df) := acc in
   let recmodel_name := model_name ++ "/" ++ reconcile_fn_name in
   let n := List.length (index S_df) in
   cells <- lift (dict_item model_name (columns Y_hat_df)) ;;
   rows <- lift (reshape n cells) ;;
   y_hat <- lift (mapM (mapM cell_value) rows) ;;
   let y_hat := astype y_hat in
   let reconciler_args := dict_set "y_hat" (Array y_hat) reconciler_args in
   insample <- get self_insample ;;
   reconciler_args <-
     (if (insample && has_fitted) || resampling intervals_method
      then (y_hat_insample <- lift (from_Y_df Y_df model_name is_balanced
                                              S_df) ;;
            ret (dict_set "y_hat_insample" y_hat_insample reconciler_args))
      else ret reconciler_args) ;;
   lv <- get level ;;
   reconciler_args <-
     (match lv with
      | Some _ =>
          if has_level then
            (reconciler_args <-
               (if Str.mem intervals_method ["normality"; "permbu"]
                then (sigmah <- lift (_reverse_engineer_sigmah
                                        (norm_ppf ext) Y_hat_df y_hat
                                        model_name) ;;
                      ret (dict_set "sigmah" (Array sigmah) reconciler_args))
                else ret reconciler_args) ;;
             ret (dict_set "seed" (Integer seed)
                    (dict_set "num_samples" (Integer 200)
                       (dict_set "intervals_method" (Text intervals_method)
                          reconciler_args))))
          else ret reconciler_args
      | None => ret reconciler_args
      end) ;;
   let kwargs := select_kwargs reconcile_fn reconciler_args in
   k <-
     (if match lv with Some _ => Z.ltb 0 num_samples | None => false end
      then (_ <- invoke {| receiver := reconcile_fn; op := Fit;
                           kwargs := kwargs |} ;;
            S_arg <- lift (dict_item "S" reconciler_args) ;;
            y_hat_arg <- lift (dict_item "y_hat" reconciler_args) ;;
            invoke {| receiver := reconcile_fn; op := Predict;
                      kwargs := [("S", S_arg); ("y_hat", y_hat_arg);
                                 ("level", Level lv)] |})
      else invoke {| receiver := reconcile_fn; op := FitPredict;
                     kwargs := (kwargs ++ [("level", Level lv)])%list |}) ;;
   let Y_tilde_df := setitem recmodel_name (Mean k) Y_tilde_df in
   Y_tilde_df <-
     (match lv with
      | Some l =>
          if Str.mem intervals_method ["bootstrap"; "normality"; "permbu"]
          then
            (let l := list_sort l in
             modify (set_level (Some l)) ;;;
             let names := (lo_names recmodel_name l
                             ++ hi_names recmodel_name l)%list in
             ln <- get level_names ;;
             modify (set_level_names (dict_set recmodel_name names ln)) ;;;
             let Y_tilde_df :=
               (Y_tilde_df ++ array_columns (Quantile k) names)%list in
             if Z.ltb 0 num_samples
             then (ks <- invoke {| receiver := reconcile_fn;
                                   op := Sample num_samples;
                                   kwargs := [("num_samples",
                                               Integer num_samples)] |} ;;
                   let names := sample_column_names recmodel_name num_samples in
                   sn <- get sample_names ;;
                   modify (set_sample_names (dict_set recmodel_name names sn)) ;;;
                   ret (Y_tilde_df ++ array_columns (SampleColumn ks) names)%list)
             else ret Y_tilde_df)
          else ret Y_tilde_df
      | None => ret Y_tilde_df
      end) ;;
   end_ <- time ;;
   et <- get execution_times ;;
   modify (set_execution_times
             (dict_set recmodel_name (end_ - start)%Q et)) ;;;
   ret (reconciler_args, Y_tilde_df))%M.

(** The body of the loop over the reconcilers (lines 261-333). *)
Definition reconcile_reconciler
           (Y_hat_df S_df : frame) (Y_df : option frame)
           (intervals_method : string) (num_samples seed : Z)
           (is_balanced : bool) (start : Q)
           (pair : reconciler * reconciler)
           (acc : list (string * arg) * list (string * coldata))
  : M (list (string * arg) * list (string * coldata)) :=
  (let (reconcile_fn, name_copy) := pair in
   let (reconciler_args, Y_tilde_df) := acc in
   reconcile_fn_name <- lift (_build_fn_name name_copy) ;;
   let reconciler_args :=
     dict_set "S" (SMatrix (is_sparse_method reconcile_fn)) reconciler_args in
   let has_fitted := Str.mem "y_hat_insample" (parameters reconcile_fn) in
   let has_level := Str.mem "level" (parameters reconcile_fn) in
   names <- get model_names ;;
   for_each names
            (reconcile_model Y_hat_df S_df Y_df intervals_method num_samples
                             seed is_balanced start reconcile_fn
                             reconcile_fn_name has_fitted has_level)
            (reconciler_args, Y_tilde_df))%M.

Definition reconcile
           (Y_hat_df S : frame) (tags : list (string * list string))
           (Y_df : option frame) (intervals_method : string)
           (num_samples seed : Z) (sort_df is_balanced : bool)
  : M out_frame :=
  (insample <- get self_insample ;;
   lv <- get level ;;
   prepared <- lift (_prepare_fit ext insample Y_hat_df S Y_df lv
                                  intervals_method sort_df) ;;
   let '(Y_hat_df, S_df, Y_df, names) := prepared in
   modify (set_model_names names) ;;;
   lift (refused (get_indexer ext S_df)) ;;;
   let reconciler_args := [("idx_bottom", IdxBottom); ("tags", TagsIdx)] in
   reconciler_args <-
     (match Y_df with
      | Some _ =>
          (y_insample <- lift (from_Y_df Y_df "y" is_balanced S_df) ;;
           ret (dict_set "y_insample" y_insample reconciler_args))
      | None => ret reconciler_args
      end) ;;
   let Y_tilde_df := map (fun c => (fst c, Cells (snd c))) (columns Y_hat_df) in
   start <- time ;;
   modify (set_execution_times []) ;;;
   modify (set_level_names []) ;;;
   modify (set_sample_names []) ;;;
   rs <- get reconcilers ;;
   os <- get orig_reconcilers ;;
   acc <- for_each (combine rs os)
                   (reconcile_reconciler Y_hat_df S_df Y_df intervals_method
                                         num_samples seed is_balanced start)
                   (reconciler_args, Y_tilde_df) ;;
   ret {| out_index := index Y_hat_df; out_columns := snd acc |})%M.

(** [df.columns = names] *)
Definition set_columns (names : list string) (cols : list (string * coldata))
  : result (list (string * coldata)) :=
  if Nat.eqb (List.length names) (List.length cols)
  then ok (combine names (map snd cols))
  else raise (LengthMismatch (List.length cols) (List.length names)).

(** [pd.concat(frames, axis=0)] of frames that carry the same column
    labels: the labels once, and the rows of the frames one block after the
    other. *)
Record stacked_frame := {
  stacked_columns : list string;
  stacked_index : list string;
  blocks : list (list coldata)
}.

Definition concat_rows (frames : list out_frame) : result stacked_frame :=
  match frames with
  | [] => raise NoObjectsToConcatenate
  | first :: _ =>
      ok {| stacked_columns := keys (out_columns first);
            stacked_index := flat_map out_index frames;
            blocks := map (fun f => map snd (out_columns f)) frames |}
  end.

(** The body of the loop over the seeds (lines 380-394). *)
Definition bootstrap_seed
           (Y_hat_df S_df : frame) (tags : list (string * list string))
           (Y_df : option frame) (intervals_method : string)
           (num_samples : Z) (seed : Z)
           (acc : option (list string) * list out_frame)
  : M (option (list string) * list out_frame) :=
  (let (first_columns, Y_tilde_list) := acc in
   Y_tilde_df <- reconcile Y_hat_df S_df tags Y_df intervals_method
                           num_samples seed false false ;;
   let cols := setitem "seed" (Scalar seed) (out_columns Y_tilde_df) in
   let first_columns :=
     if Z.eqb seed 0 then Some (keys cols) else first_columns in
   match first_columns with
   | None => throw (UnboundLocalError "first_columns")
   | Some names =>
       cols <- lift (set_columns names cols) ;;
       ret (first_columns,
            (Y_tilde_list
               ++ [{| out_index := out_index Y_tilde_df;
                      out_columns := cols |}])%list)
   end)%M.

Definition bootstrap_reconcile
           (Y_hat_df S_df : frame) (tags : list (string * list string))
           (Y_df : option frame) (intervals_method : string)
           (num_samples num_seeds : Z) (sort_df : bool)
  : M stacked_frame :=
  (insample <- get self_insample ;;
   prepared <- lift (_prepare_fit ext insample Y_hat_df S_df Y_df None
                                  intervals_method sort_df) ;;
   let '(Y_hat_df, S_df, Y_df, names) := prepared in
   modify (set_model_names names) ;;;
   acc <- for_each (range num_seeds)
                   (bootstrap_seed Y_hat_df S_df tags Y_df intervals_method
                                   num_samples)
                   (None, []) ;;
   lift (concat_rows (snd acc)))%M.

End Orchestrator.

(* ================================================================== *)
(** * Notions used in the statements *)




(** The errors raised by the checks of [_prepare_fit] (lines 128-174). *)
Definition validation_error (e : error) : bool :=
  match e with
  | UnknownIntervalMethod _ | MissingYdf | LevelOutsideDomain
  | NonNumericColumns | NullValues | ModelsNotInYdf
  | SeriesDifferenceS _ _ | SeriesDifferenceY _ _ => true
  | _ => false
  end.

(** The other exceptions. *)
Definition later_error (e : error) : Prop := validation_error e = false.

(** A level outside [[0, 100)]. *)
Definition outside_domain (n : number) : Prop :=
  ~ (0 <= num_value n /\ num_value n < 100 # 1)%Q.

(** Ascending order of the values. *)
Definition ascending (l : list number) : Prop :=
  Sorted (fun a b => (num_value a <= num_value b)%Q) l.

(** A sequence of runs, one per seed, each starting in the state the
    previous one left. *)
Inductive runs (run : Z -> M out_frame)
  : list Z -> state -> list out_frame -> state -> Prop :=
| runs_nil st : runs run [] st [] st
| runs_cons seed seeds st st1 st2 f fs :
    run seed st = (st1, inr f) ->
    runs run seeds st1 fs st2 ->
    runs run (seed :: seeds) st (f :: fs) st2.


(** The names of the interval columns of a pair [model/algorithm], in the
    order they are given to the frame of quantiles (lines 310-312). *)
Definition interval_names (recmodel_name : string) (lv : list number)
  : list string :=
  (lo_names recmodel_name lv ++ hi_names recmodel_name lv)%list.

(** The interval columns of [recmodel_name] are registered and stand side
    by side in the frame. *)
Definition intervals_recorded (lv : list number) (recmodel_name : string)
           (cols : list (string * coldata)) (st : state) : Prop :=
  dict_get recmodel_name (level_names st)
  = Some (interval_names recmodel_name (list_sort lv))
  /\ exists pre post,
      keys cols
      = (pre ++ interval_names recmodel_name (list_sort lv) ++ post)%list.

(** The same for the sample columns. *)
Definition samples_recorded (num_samples : Z) (recmodel_name : string)
           (cols : list (string * coldata)) (st : state) : Prop :=
  dict_get recmodel_name (sample_names st)
  = Some (sample_column_names recmodel_name num_samples)
  /\ exists pre post,
      keys cols
      = (pre ++ sample_column_names recmodel_name num_samples ++ post)%list.

(** A later point of the same run: columns were added on the right only
    and what was registered is still registered. *)
Definition extends (lv : list number) (num_samples : Z)
           (s s' : list (string * coldata) * state) : Prop :=
  (exists more, keys (fst s') = (keys (fst s) ++ more)%list)
  /\ (forall rm,
         dict_get rm (level_names (snd s))
         = Some (interval_names rm (list_sort lv)) ->
         dict_get rm (level_names (snd s'))
         = Some (interval_names rm (list_sort lv)))
  /\ (forall rm,
         dict_get rm (sample_names (snd s))
         = Some (sample_column_names rm num_samples) ->
         dict_get rm (sample_names (snd s'))
         = Some (sample_column_names rm num_samples)).

(** The data of a column came from [reconciler.sample]. *)
Definition is_sample_column (d : coldata) : Prop :=
  exists k j, d = SampleColumn k j.

(** Where the list passed as [level] stands during a run: untouched as
    long as no interval is registered, sorted from then on. *)
Definition level_progress (lv : list number) (st : state) : Prop :=
  (level st = Some lv /\ level_names st = [])
  \/ (level st = Some (list_sort lv) /\ level_names st <> []).

(** What a pair [model/algorithm] has left behind once it is processed. *)
Definition pair_recorded (lv : list number) (num_samples : Z)
           (recmodel_name : string)
           (cols : list (string * coldata)) (st : state) : Prop :=
  intervals_recorded lv recmodel_name cols st
  /\ ((0 < num_samples)%Z ->
      samples_recorded num_samples recmodel_name cols st).

(** No sample was drawn. *)
Definition no_samples (cols : list (string * coldata)) (st : state) : Prop :=
  sample_names st = []
  /\ forall c d, In (c, d) cols -> ~ is_sample_column d.

(** The state in which the loops of [reconcile] start: the names of the
    models are stored, the clock was read once, the registries are empty. *)
Definition loop_start (names : list string) (st : state) : state :=
  set_sample_names []
    (set_level_names []
       (set_execution_times []
          (set_clock (S (clock st)) (set_model_names names st)))).

(** [reconciler_args] as lines 234-253 build it. *)
Definition initial_args (ext : externals) (S_df : frame)
           (Y_df : option frame) (is_balanced : bool)
  : result (list (string * arg)) :=
  (indexed <- refused (get_indexer ext S_df) ;;
   match Y_df with
   | Some _ =>
       (y_insample <- from_Y_df ext Y_df "y" is_balanced S_df ;;
        ok (dict_set "y_insample" y_insample
                     [("idx_bottom", IdxBottom); ("tags", TagsIdx)]))
   | None => ok [("idx_bottom", IdxBottom); ("tags", TagsIdx)]
   end)%res.

(** The columns of the frame of one seed, under the labels of its own run:
    the columns the run returned, with its seed ([Y_tilde_df['seed'] =
    seed]). *)
Definition seeded_columns (sf : Z * out_frame) : list (string * coldata) :=
  setitem "seed" (Scalar (fst sf)) (out_columns (snd sf)).

(** The frame of one seed: the data of the run, with the seed, under the
    given labels. *)
Definition seeded_frame (names : list string) (sf : Z * out_frame)
  : out_frame :=
  {| out_index := out_index (snd sf);
     out_columns := combine names (map snd (seeded_columns sf)) |}.

(** The frames of the seeds one under the other: the labels are those of
    the first run (with its seed column), the rows are those of the runs in
    the order of the seeds, and the data of each run stays in the positions
    its run gave it. *)
Definition stack_seeds (seeds : list Z) (first : out_frame)
           (rest : list out_frame) : stacked_frame :=
  {| stacked_columns := keys (seeded_columns (0%Z, first));
     stacked_index := flat_map out_index (first :: rest);
     blocks := map (fun sf => map snd (seeded_columns sf))
                   (combine seeds (first :: rest)) |}.


(** A column that [_prepare_fit] takes for a bound or for the median of a
    model, by its name (line 158). *)
Definition interval_like (name : string) : bool :=
  Str.contains "-lo" name || Str.contains "-hi" name
  || Str.contains "-median" name.

(** A column that [_prepare_fit] takes for a model: any column other than
    [ds] and [y] that is not taken for a bound or a median. *)
Definition is_model_column (name : string) : bool :=
  negb (String.eqb name "ds") && negb (String.eqb name "y")
  && negb (interval_like name).

(* lemmas *)

(** The number of times [x] occurs in [l]. *)
Fixpoint occurrences (x : string) (l : list string) : nat :=
  match l with
  | [] => 0
  | y :: l' => if String.eqb x y then S (occurrences x l') else occurrences x l'
  end.

(** A decimal digit occurs in [s]. *)
Fixpoint has_digit (s : string) : bool :=
  match s with
  | EmptyString => false
  | String a s' => Regex.digit a || has_digit s'
  end.

(** The operations that one pair [model/algorithm] asks of its reconciler:
    [fit], [predict] and [sample] when a level list is given and samples
    are asked for, the call of the reconciler itself otherwise (lines
    305-312 and 321). *)
Definition pair_ops (lv : option (list number)) (num_samples : Z)
  : list operation :=
  match lv with
  | Some _ =>
      if Z.ltb 0 num_samples then [Fit; Predict; Sample num_samples]
      else [FitPredict]
  | None => [FitPredict]
  end.

Definition pair_with (fn : reconciler) (o : operation)
  : reconciler * operation := (fn, o).

(** The array [y_hat] of a model (lines 273-275): the column of the
    model, one row per series, cast to [float32]. *)
Definition y_hat_of (ext : externals) (Y_hat_df S_df : frame)
           (model_name : string) : result matrix :=
  (cells <- dict_item model_name (columns Y_hat_df) ;;
   rows <- reshape (List.length (index S_df)) cells ;;
   y_hat <- mapM (mapM cell_value) rows ;;
   ok (astype ext y_hat))%res.

(** The name [_build_fn_name] gives to a reconciler, when it gives one. *)
Definition built_name (fn : reconciler) : string :=
  match _build_fn_name fn with
  | inr name => name
  | inl _ => ""
  end.

(** The name of the pair made of a model and of the reconciler that stands
    with its copy at one place of [zip(self.reconcilers,
    self.orig_reconcilers)]: the name of the reconciler is that of the
    copy (line 262). *)
Definition recmodel_name (q : (reconciler * reconciler) * string) : string :=
  snd q ++ "/" ++ built_name (snd (fst q)).

(** [Y_tilde_df[name] = fcsts_model['mean']] for the call number [k]. *)
Definition set_mean (cols : list (string * coldata)) (kn : nat * string)
  : list (string * coldata) :=
  setitem (snd kn) (Mean (fst kn)) cols.

(** A call made for [model_name] to the reconciler [fn] when no level list
    is given: the reconciler itself is called, with [level=None], and the
    [y_hat] it receives, if its signature names one, is the array of the
    model. *)
Definition mean_call (ext : externals) (Y_hat_df S_df : frame)
           (fn : reconciler) (model_name : string) (c : call) : Prop :=
  receiver c = fn /\ op c = FitPredict
  /\ dict_get "level" (kwargs c) = Some (Level None)
  /\ (In "y_hat" (parameters fn) ->
      exists y, y_hat_of ext Y_hat_df S_df model_name = inr y
                /\ dict_get "y_hat" (kwargs c) = Some (Array y)).

(** The keywords of a call.  [fit] receives entries of [reconciler_args]
    that the signature of the reconciler names.  The reconciler itself
    receives such entries and then [level], whether its signature names
    [level] or not (line 304).  [predict] receives [S], [y_hat] and
    [level] (line 301); [sample] the number of samples. *)
Definition keywords_passed (c : call) : Prop :=
  match op c with
  | Fit => incl (keys (kwargs c)) (parameters (receiver c))
  | FitPredict =>
      exists kw lv,
        kwargs c = (kw ++ [("level", Level lv)])%list
        /\ incl (keys kw) (parameters (receiver c))
        /\ ~ In "level" (keys kw)
  | Predict => keys (kwargs c) = ["S"; "y_hat"; "level"]
  | Sample num_samples => kwargs c = [("num_samples", Integer num_samples)]
  end.




(** What a call of a turn of the inner loop is given, [ra] being
    [reconciler_args] at the end of the turn and [lv] the level list at its
    start. *)
Definition turn_keywords (ra : list (string * arg))
           (lv : option (list number)) (c : call) : Prop :=
  match op c with
  | Fit => kwargs c = select_kwargs (receiver c) ra
  | FitPredict =>
      kwargs c = (select_kwargs (receiver c) ra ++ [("level", Level lv)])%list
  | Predict =>
      exists s y,
        dict_get "S" ra = Some s /\ dict_get "y_hat" ra = Some y
        /\ kwargs c = [("S", s); ("y_hat", y); ("level", Level lv)]
  | Sample num_samples => kwargs c = [("num_samples", Integer num_samples)]
  end.


(** The row of a frame at a position: the cell of each column there. *)
Definition row (df : frame) (i : nat) : list (string * cell) :=
  map (fun c => (fst c, nth i (snd c) Null)) (columns df).

(* ================================================================== *)
(** * Inputs of the examples *)

(** The quantile function at the probabilities the examples use, to six
    decimals. *)
Definition example_ppf (p : Q) : Q :=
  if Qeq_bool p (9 # 10) then (1281552 # 1000000)%Q
  else if Qeq_bool p (975 # 1000) then (1959964 # 1000000)%Q
  else 1%Q.

(** A clock that advances by one second at each reading. *)
Definition example_clock (n : nat) : Q := inject_Z (Z.of_nat n).

(** [x] rounded to the nearest integer, halves to the even one. *)
Definition round_half_even (x : Q) : Z :=
  let f := Qfloor x in
  match (x - inject_Z f ?= 1 # 2)%Q with
  | Lt => f
  | Gt => (f + 1)%Z
  | Eq => if Z.even f then f else (f + 1)%Z
  end.

(** The nearest [float32]: 24 significant bits, exponents from [-126] to
    [127], halves to even; beyond the range the value is infinite. *)
Definition example_float32 (q : Q) : xfloat :=
  if Qeq_bool q 0 then Some 0%Q
  else
    let a := (Z.abs (Qnum q) # Qden q)%Q in
    let e0 := (Z.log2 (Qnum a) - Z.log2 (Zpos (Qden a)))%Z in
    let e := if Qle_bool (Qpower 2 e0) a then e0 else (e0 - 1)%Z in
    let e := Z.max e (-126) in
    let quantum := Qpower 2 (e - 23) in
    let r := (inject_Z (round_half_even (a / quantum)) * quantum)%Q in
    if Qle_bool (Qpower 2 128) r then None
    else Some (Qred (if Qle_bool 0 q then r else - r)%Q).

(** The position of the first [u] in [l], or the length of [l]. *)
Fixpoint rank (u : string) (l : list string) : nat :=
  match l with
  | [] => 0
  | x :: l' => if String.eqb u x then 0 else S (rank u l')
  end.

(** The order of [sort_values] within a column: numbers ascending, texts
    in the order of their characters, nulls last. *)
Definition cell_leb (a b : cell) : bool :=
  match a, b with
  | Num x, Num y => Qle_bool x y
  | Obj s, Obj t => String.leb s t
  | _, Null => true
  | Null, _ => false
  | Num _, Obj _ => true
  | Obj _, Num _ => false
  end.

Fixpoint insert_position (leb : nat -> nat -> bool) (i : nat) (l : list nat)
  : list nat :=
  match l with
  | [] => [i]
  | j :: l' => if leb i j then i :: l else j :: insert_position leb i l'
  end.

(** Lines 111-115 on frames whose index is called [unique_id]: the rows
    in the order of their label in [S_df.index], then of [ds]; a label
    that [S_df.index] does not have is replaced by [nan] and goes last. *)
Definition example_sort (df S_df : frame) : string + frame :=
  if Str.mem "unique_id" (column_names df)
  then inl "ValueError: cannot insert unique_id, already exists"
  else if negb (Nat.eqb (List.length (unique (index S_df)))
                        (List.length (index S_df)))
  then inl "ValueError: Categorical categories must be unique"
  else
    match dict_get "ds" (columns df) with
    | None => inl "KeyError: 'ds'"
    | Some ds =>
        if existsb (fun c => match c with Num _ => true | _ => false end) ds
           && existsb (fun c => match c with Obj _ => true | _ => false end) ds
        then inl "TypeError: '<' not supported between instances of 'str' and 'float'"
        else
          let label i := nth i (index df) "" in
          let key i := (rank (label i) (index S_df), nth i ds Null) in
          let leb i j :=
            Nat.ltb (fst (key i)) (fst (key j))
            || (Nat.eqb (fst (key i)) (fst (key j))
                && cell_leb (snd (key i)) (snd (key j))) in
          let pos := fold_right (insert_position leb) []
                                (seq 0 (List.length (index df))) in
          inr {| index := map (fun i => if Str.mem (label i) (index S_df)
                                        then label i else "nan") pos;
                 columns := map (fun c => (fst c,
                                           map (fun i => nth i (snd c) Null)
                                               pos))
                                (columns df) |}
    end.

(** Line 124: the labels stay, under the condition that none repeats. *)
Definition example_categorical_index (S_df : frame) : string + frame :=
  if negb (Nat.eqb (List.length (unique (index S_df)))
                   (List.length (index S_df)))
  then inl "ValueError: Categorical categories must be unique"
  else inr S_df.

(** [get_indexer] wants an index that repeats no label. *)
Definition example_get_indexer (S_df : frame) : option string :=
  if negb (Nat.eqb (List.length (unique (index S_df)))
                   (List.length (index S_df)))
  then Some "InvalidIndexError: Reindexing only valid with uniquely valued Index objects"
  else None.

(** The libraries as the examples take them, on historical frames whose
    values are numbers and whose rows differ in their label or their
    [ds], and with reconcilers that never raise. *)
Definition example_externals : externals :=
  {| norm_ppf := example_ppf;
     time_time := example_clock;
     astype_float32 := example_float32;
     sort_on := example_sort;
     categorical_index := example_categorical_index;
     get_indexer := example_get_indexer;
     array_error := fun _ _ _ _ => None;
     raises := fun _ => None |}.

Definition BottomUp : reconciler :=
  {| type_name := "BottomUp"; attributes := [];
     insample := false; is_sparse_method := false;
     parameters := ["S"; "y_hat"; "idx_bottom"; "y_insample"; "y_hat_insample";
                    "sigmah"; "level"; "intervals_method"; "num_samples";
                    "seed"; "tags"] |}.



Definition MinTrace_shrink : reconciler :=
  {| type_name := "MinTrace";
     attributes := [("method", VStr "mint_shrink");
                    ("nonnegative", VBool false);
                    ("insample", VBool true);
                    ("mint_shr_ridge", VNum (Float (2 # 100000000)%Q "2e-08"));
                    ("num_threads", VNum (Int 1%Z))];
     insample := true; is_sparse_method := false;
     parameters := ["S"; "y_hat"; "y_insample"; "y_hat_insample"; "sigmah";
                    "intervals_method"; "num_samples"; "seed"; "tags";
                    "idx_bottom"; "level"] |}.


(** A hierarchy [total = a + b]. *)
Definition S_total_a_b : frame :=
  {| index := ["total"; "a"; "b"];
     columns := [("a", [Num 1; Num 1; Num 0]%Q);
                 ("b", [Num 1; Num 0; Num 1]%Q)] |}.

(** One model with its [80] interval. *)
Definition Y_hat_ETS : frame :=
  {| index := ["total"; "a"; "b"];
     columns := [("ds", [Num 1; Num 1; Num 1]%Q);
                 ("ETS", [Num 10; Num 4; Num 5]%Q);
                 ("ETS-lo-80", [Num 8; Num 3; Num 4]%Q);
                 ("ETS-hi-80", [Num 12; Num 5; Num 6]%Q)] |}.


(** Historical values with the fitted values of [ETS]. *)
Definition Y_df_ETS : frame :=
  {| index := ["total"; "total"; "a"; "a"; "b"; "b"];
     columns := [("ds", [Num (-1); Num 0; Num (-1); Num 0; Num (-1); Num 0]%Q);
                 ("y", [Num 9; Num 10; Num 4; Num 5; Num 5; Num 5]%Q);
                 ("ETS", [Num 9; Num 9; Num 4; Num 4; Num 5; Num 5]%Q)] |}.

(** One series, a forecast of [10.0] and its [-hi-80] bound [12.0]. *)
Definition Y_hat_hi_80 : frame :=
  {| index := ["a"];
     columns := [("ds", [Num 1%Q]); ("model", [Num (10 # 1)%Q]);
                 ("model-hi-80", [Num (12 # 1)%Q])] |}.

(** The same forecast with its [-lo-80] bound [8.0]. *)
Definition Y_hat_lo_80 : frame :=
  {| index := ["a"];
     columns := [("ds", [Num 1%Q]); ("model", [Num (10 # 1)%Q]);
                 ("model-lo-80", [Num (8 # 1)%Q])] |}.

(** A model called [global] with its upper bound only. *)
Definition Y_hat_global : frame :=
  {| index := ["a"];
     columns := [("ds", [Num 1%Q]); ("global", [Num (10 # 1)%Q]);
                 ("global-hi-80", [Num (12 # 1)%Q])] |}.

(** [Naive] has no interval; [SeasonalNaive] has one. *)
Definition Y_hat_Naive_SeasonalNaive : frame :=
  {| index := ["a"];
     columns := [("ds", [Num 1%Q]);
                 ("Naive", [Num (10 # 1)%Q]);
                 ("SeasonalNaive", [Num (11 # 1)%Q]);
                 ("SeasonalNaive-lo-80", [Num (8 # 1)%Q]);
                 ("SeasonalNaive-hi-80", [Num (14 # 1)%Q])] |}.

Definition tags_total_bottom : list (string * list string) :=
  [("total", ["total"]); ("bottom", ["a"; "b"])].

(** [reconcile] with the levels [[95, 80]] under [normality]. *)
Definition run_intervals : state * result out_frame :=
  reconcile example_externals Y_hat_ETS S_total_a_b
            tags_total_bottom None "normality" (-1) 0 true false
            (__init__ [BottomUp] (Some [Int 95; Int 80])).

Definition state_intervals : state := Eval vm_compute in fst run_intervals.

Definition frame_intervals : out_frame :=
  Eval vm_compute in
    match snd run_intervals with
    | inr out => out
    | inl _ => {| out_index := []; out_columns := [] |}
    end.

(** The same with two samples. *)
Definition run_samples : state * result out_frame :=
  reconcile example_externals Y_hat_ETS S_total_a_b
            tags_total_bottom None "normality" 2 0 true false
            (__init__ [BottomUp] (Some [Int 95; Int 80])).

Definition state_samples : state := Eval vm_compute in fst run_samples.

Definition frame_samples : out_frame :=
  Eval vm_compute in
    match snd run_samples with
    | inr out => out
    | inl _ => {| out_index := []; out_columns := [] |}
    end.

(** Two samples asked for, and no level list. *)
Definition run_samples_no_level : state * result out_frame :=
  reconcile example_externals Y_hat_ETS S_total_a_b
            tags_total_bottom None "normality" 2 0 true false
            (__init__ [BottomUp] None).

Definition state_samples_no_level : state :=
  Eval vm_compute in fst run_samples_no_level.

Definition frame_samples_no_level : out_frame :=
  Eval vm_compute in
    match snd run_samples_no_level with
    | inr out => out
    | inl _ => {| out_index := []; out_columns := [] |}
    end.


(** Two seeds, with the 80% interval. *)
Definition run_bootstrap : state * result stacked_frame :=
  bootstrap_reconcile example_externals Y_hat_ETS S_total_a_b
                      tags_total_bottom None "normality" (-1) 2 true
                      (__init__ [BottomUp] (Some [Int 80])).

Definition state_bootstrap : state :=
  Eval vm_compute in fst run_bootstrap.

Definition frame_bootstrap : stacked_frame :=
  Eval vm_compute in
    match snd run_bootstrap with
    | inr out => out
    | inl _ => {| stacked_columns := []; stacked_index := []; blocks := [] |}
    end.

(** A [MinTrace] object whose [__dict__] holds no [method]. *)
Definition MinTrace_no_method : reconciler :=
  {| type_name := "MinTrace";
     attributes := [("nonnegative", VBool false); ("insample", VBool true)];
     insample := true; is_sparse_method := false;
     parameters := ["S"; "y_hat"; "y_insample"; "y_hat_insample"; "sigmah";
                    "intervals_method"; "num_samples"; "seed"; "tags";
                    "idx_bottom"; "level"] |}.


(** Forecasts without the column [ds]. *)
Definition Y_hat_no_ds : frame :=
  {| index := ["total"; "a"; "b"];
     columns := [("ETS", [Num 10; Num 4; Num 5]%Q)] |}.

(** The series in another order than in [S_total_a_b]. *)
Definition Y_hat_b_a_total : frame :=
  {| index := ["b"; "a"; "total"];
     columns := [("ds", [Num 1; Num 1; Num 1]%Q);
                 ("ETS", [Num 5; Num 4; Num 10]%Q)] |}.

(** The same forecasts in the order of [S_total_a_b]. *)
Definition Y_hat_total_a_b : frame :=
  {| index := ["total"; "a"; "b"];
     columns := [("ds", [Num 1; Num 1; Num 1]%Q);
                 ("ETS", [Num 10; Num 4; Num 5]%Q)] |}.

(** Forecasts that are no [float32]. *)
Definition Y_hat_tenths : frame :=
  {| index := ["total"; "a"; "b"];
     columns := [("ds", [Num 1; Num 1; Num 1]%Q);
                 ("ETS", [Num (3 # 10); Num (1 # 10); Num (2 # 10)]%Q)] |}.

(** The rows of [S_total_a_b] in that order. *)
Definition S_b_a_total : frame :=
  {| index := ["b"; "a"; "total"];
     columns := [("a", [Num 0; Num 1; Num 1]%Q);
                 ("b", [Num 1; Num 0; Num 1]%Q)] |}.

(** Forecasts given in another order than [S_total_a_b], no level list,
    and the re-sorting. *)
Definition run_resorted : state * result out_frame :=
  reconcile example_externals Y_hat_b_a_total S_total_a_b
            tags_total_bottom None "normality" (-1) 0 true false
            (__init__ [BottomUp] None).

Definition state_resorted : state := Eval vm_compute in fst run_resorted.

Definition frame_resorted : out_frame :=
  Eval vm_compute in
    match snd run_resorted with
    | inr out => out
    | inl _ => {| out_index := []; out_columns := [] |}
    end.

(** A bound whose name holds no level. *)
Definition Y_hat_lo_unnamed : frame :=
  {| index := ["a"];
     columns := [("ds", [Num 1%Q]); ("model", [Num (10 # 1)%Q]);
                 ("model-lo", [Num (8 # 1)%Q])] |}.

(** A bound at the level [0]. *)
Definition Y_hat_lo_0 : frame :=
  {| index := ["a"];
     columns := [("ds", [Num 1%Q]); ("model", [Num (10 # 1)%Q]);
                 ("model-lo-0", [Num (8 # 1)%Q])] |}.

(** A function that vanishes at [1/2], as the quantile function of the
    normal law does. *)
Definition centred_ppf (p : Q) : Q := (p - (1 # 2))%Q.

(* ================================================================== *)
(** * Strings, lists and dictionaries: basic facts *)

Lemma mem_In (x : string) (l : list string) :
  Str.mem x l = true <-> In x l.
Proof.
  unfold Str.mem. rewrite existsb_exists. split.
  - intros [y [Hy Heq]]. apply String.eqb_eq in Heq. now subst.
  - intros H. exists x. split; [assumption | apply String.eqb_refl].
Qed.

Lemma mem_not_In (x : string) (l : list string) :
  Str.mem x l = false <-> ~ In x l.
Proof.
  rewrite <- mem_In. destruct (Str.mem x l); split; congruence.
Qed.






Lemma dict_get_In {A} (k : string) (v : A) (d : list (string * A)) :
  dict_get k d = Some v -> In (k, v) d.
Proof.
  induction d as [| [k' v'] d IH]; simpl; [discriminate |].
  destruct (String.eqb k k') eqn:E.
  - apply String.eqb_eq in E. intros H. injection H as H. subst. now left.
  - intros H. right. now apply IH.
Qed.


Lemma dict_get_set_same {A} (k : string) (v : A) (d : list (string * A)) :
  dict_get k (dict_set k v d) = Some v.
Proof.
  induction d as [| [k' v'] d IH]; simpl.
  - now rewrite String.eqb_refl.
  - destruct (String.eqb k k') eqn:E; simpl.
    + now rewrite String.eqb_refl.
    + now rewrite E.
Qed.

Lemma dict_get_set_other {A} (k k' : string) (v : A) (d : list (string * A)) :
  k <> k' -> dict_get k (dict_set k' v d) = dict_get k d.
Proof.
  intros Hne. induction d as [| [k'' v''] d IH]; simpl.
  - apply String.eqb_neq in Hne. now rewrite Hne.
  - destruct (String.eqb k' k'') eqn:E; simpl.
    + apply String.eqb_eq in E. subst k''.
      apply String.eqb_neq in Hne. now rewrite Hne.
    + destruct (String.eqb k k''); [reflexivity | assumption].
Qed.

Lemma dict_set_not_nil {A} (k : string) (v : A) (d : list (string * A)) :
  dict_set k v d <> [].
Proof. destruct d as [| [k' v'] d]; simpl; [| destruct (String.eqb k k')]; discriminate. Qed.

(* ================================================================== *)
(** * Names of reconcilers *)

Example name_MinTrace_shrink :
  _build_fn_name
    {| type_name := "MinTrace";
       attributes := [("method", VStr "mint_shrink");
                      ("nonnegative", VBool false);
                      ("insample", VBool true);
                      ("mint_shr_ridge", VNum (Float (2 # 100000000)%Q "2e-08"));
                      ("num_threads", VNum (Int 1%Z))];
       insample := true; is_sparse_method := false;
       parameters := [] |}
  = inr "MinTrace_method-mint_shrink".
Proof. reflexivity. Qed.

Example name_BottomUp :
  _build_fn_name
    {| type_name := "BottomUp"; attributes := [];
       insample := false; is_sparse_method := false; parameters := [] |}
  = inr "BottomUp".
Proof. reflexivity. Qed.








Ltac solve_NoDup :=
  repeat constructor; simpl; intuition discriminate.




(* ================================================================== *)
(** * Validation *)

Lemma level_outside_domain_spec (lv : list number) :
  level_outside_domain lv = true <-> exists n, In n lv /\ outside_domain n.
Proof.
  unfold level_outside_domain, outside_domain. rewrite existsb_exists.
  split; intros [n [Hin H]]; exists n; (split; [assumption |]).
  - apply orb_true_iff in H. intros [H0 H100]. destruct H as [H | H].
    + apply negb_true_iff in H. apply Qle_bool_iff in H0. congruence.
    + apply Qle_bool_iff in H. now apply Qle_not_lt in H.
  - apply orb_true_iff.
    destruct (Qle_bool 0 (num_value n)) eqn:E0; [| now left].
    right. apply Qle_bool_iff in E0. apply Qle_bool_iff.
    destruct (Qlt_le_dec (num_value n) (100 # 1)) as [Hlt | Hle];
      [exfalso; apply H; now split | assumption].
Qed.

Lemma mem_normality_permbu (m : string) :
  Str.mem m ["normality"; "permbu"] = true
  <-> m = "normality" \/ m = "permbu".
Proof. rewrite mem_In. simpl. intuition. Qed.

Lemma drop_columns_error (labels : list string) (df : frame) (e : error) :
  drop_columns labels df = inl e -> exists k, e = KeyError k.
Proof.
  unfold drop_columns. destruct (filter _ labels); [discriminate |].
  intros H. injection H as <-. eauto.
Qed.

Lemma loc_error (labels : list string) (df : frame) (e : error) :
  loc labels df = inl e -> exists k, e = KeyError k.
Proof.
  unfold loc. destruct (filter _ labels); [discriminate |].
  intros H. injection H as <-. eauto.
Qed.

(** ** The re-sorting *)

Lemma arrange_unsorted
      (ext : externals) (Y_hat_df S_df : frame) (Y_df : option frame) :
  arrange ext Y_hat_df S_df Y_df false = inr (Y_hat_df, S_df, Y_df).
Proof. reflexivity. Qed.

(** What the re-sorting raises comes from pandas. *)
Lemma arrange_error
      (ext : externals) (Y_hat_df S_df : frame) (Y_df : option frame)
      (sort_df : bool) (e : error) :
  arrange ext Y_hat_df S_df Y_df sort_df = inl e ->
  exists what, e = LibraryError what.
Proof.
  unfold arrange, library, rbind, raise, ok.
  destruct sort_df; [| discriminate].
  destruct (sort_on ext Y_hat_df S_df) as [w | Yh];
    [intros H; injection H as <-; eauto |].
  destruct Y_df as [df |].
  - destruct (sort_on ext df S_df) as [w | df'];
      [intros H; injection H as <-; eauto |].
    destruct (categorical_index ext S_df) as [w | S'];
      [intros H; injection H as <-; eauto | discriminate].
  - destruct (categorical_index ext S_df) as [w | S'];
      [intros H; injection H as <-; eauto | discriminate].
Qed.

(** The re-sorting keeps a historical frame when there is one, and makes
    none. *)
Lemma arrange_Y_df
      (ext : externals) (Y_hat_df S_df : frame) (Y_df : option frame)
      (sort_df : bool) (Y_hat_df' S_df' : frame) (Y_df' : option frame) :
  arrange ext Y_hat_df S_df Y_df sort_df = inr (Y_hat_df', S_df', Y_df') ->
  (Y_df' = None <-> Y_df = None).
Proof.
  unfold arrange, library, rbind, raise, ok.
  destruct sort_df.
  - destruct (sort_on ext Y_hat_df S_df) as [w | Yh]; [discriminate |].
    destruct Y_df as [df |].
    + destruct (sort_on ext df S_df) as [w | df']; [discriminate |].
      destruct (categorical_index ext S_df) as [w | S']; [discriminate |].
      intros H. injection H as _ _ <-. split; discriminate.
    + destruct (categorical_index ext S_df) as [w | S']; [discriminate |].
      intros H. injection H as _ _ <-. tauto.
  - intros H. injection H as _ _ <-. tauto.
Qed.

(** [_prepare_fit] without re-sorting is its checks. *)
Lemma prepare_fit_unsorted
      (ext : externals) (self_insample : bool) (Y_hat_df S_df : frame)
      (Y_df : option frame) (level : option (list number))
      (intervals_method : string) :
  _prepare_fit ext self_insample Y_hat_df S_df Y_df level intervals_method
               false
  = _prepare_fit_checks self_insample Y_hat_df S_df Y_df level
                        intervals_method.
Proof. reflexivity. Qed.

(** [_prepare_fit] is the re-sorting followed by the checks on the frames
    it leaves. *)
Lemma prepare_fit_arranged
      (ext : externals) (self_insample : bool) (Y_hat_df S_df : frame)
      (Y_df : option frame) (level : option (list number))
      (intervals_method : string) (sort_df : bool)
      (r : result (frame * frame * option frame * list string)) :
  _prepare_fit ext self_insample Y_hat_df S_df Y_df level intervals_method
               sort_df = r
  <-> (exists what, arrange ext Y_hat_df S_df Y_df sort_df
                    = inl (LibraryError what)
                    /\ r = inl (LibraryError what))
      \/ (exists Y_hat_df1 S_df1 Y_df1,
             arrange ext Y_hat_df S_df Y_df sort_df
             = inr (Y_hat_df1, S_df1, Y_df1)
             /\ _prepare_fit_checks self_insample Y_hat_df1 S_df1 Y_df1 level
                                    intervals_method = r).
Proof.
  unfold _prepare_fit, rbind.
  destruct (arrange ext Y_hat_df S_df Y_df sort_df)
    as [e | [[Yh1 S1] Yd1]] eqn:Ea.
  - destruct (arrange_error _ _ _ _ _ _ Ea) as [what ->]. split.
    + intros <-. left. now exists what.
    + intros [[w [Hw ->]] | [Yh1 [S1 [Yd1 [Hc _]]]]];
        [now injection Hw as -> | discriminate].
  - split.
    + intros <-. right. now exists Yh1, S1, Yd1.
    + intros [[w [Hw _]] | [Yh1' [S1' [Yd1' [Hc <-]]]]];
        [discriminate | now injection Hc as <- <- <-].
Qed.

(** ** The check of the levels *)

(** What the checks do once the first two have passed. *)
Lemma prepare_fit_level_raise
      (self_insample : bool) (Y_hat_df S_df : frame) (Y_df : option frame)
      (level : option (list number)) (intervals_method : string) :
  _prepare_fit_checks self_insample Y_hat_df S_df Y_df level intervals_method
  = inl LevelOutsideDomain
  <-> Str.mem intervals_method ["normality"; "bootstrap"; "permbu"] = true
      /\ (self_insample || resampling intervals_method)
         && match Y_df with None => true | Some _ => false end = false
      /\ match level with
         | Some lv => level_outside_domain lv
                      && Str.mem intervals_method ["normality"; "permbu"]
         | None => false
         end = true.
Proof.
  unfold _prepare_fit_checks.
  destruct (Str.mem intervals_method ["normality"; "bootstrap"; "permbu"]);
    simpl negb; cbv iota; [| split; [discriminate | intros [H _]; discriminate]].
  destruct ((self_insample || resampling intervals_method)
            && match Y_df with None => true | Some _ => false end);
    [split; [discriminate | intros [_ [H _]]; discriminate] |].
  destruct (match level with
            | Some lv => level_outside_domain lv
                         && Str.mem intervals_method ["normality"; "permbu"]
            | None => false
            end); [tauto |].
  split; [| intros [_ [_ H]]; discriminate].
  intros H. exfalso. revert H. unfold rbind, raise, ok.
  destruct (drop_columns _ Y_hat_df) as [e | names] eqn:Ed.
  { apply drop_columns_error in Ed. destruct Ed as [k ->]. discriminate. }
  repeat match goal with
         | |- context [if ?b then _ else _] => destruct b
         | |- context [match ?x with Some _ => _ | None => _ end] => destruct x
         | |- context [match loc ?a ?b with _ => _ end] =>
             let E := fresh "E" in
             destruct (loc a b) eqn:E;
             [apply loc_error in E; destruct E as [? ->] |]
         end; discriminate.
Qed.

(** The domain error of the checks. *)
Lemma checks_level_domain
      (self_insample : bool) (Y_hat_df S_df : frame) (Y_df : option frame)
      (level : option (list number)) (intervals_method : string) :
  _prepare_fit_checks self_insample Y_hat_df S_df Y_df level intervals_method
  = inl LevelOutsideDomain
  <-> (intervals_method = "normality" \/ intervals_method = "permbu")
      /\ (self_insample = true \/ intervals_method = "permbu" ->
          Y_df <> None)
      /\ exists lv, level = Some lv
                    /\ exists n, In n lv /\ outside_domain n.
Proof.
  rewrite prepare_fit_level_raise. split.
  - intros [Hm [Hy Hl]].
    destruct level as [lv |]; [| discriminate].
    apply andb_true_iff in Hl. destruct Hl as [Ho Hnp].
    apply mem_normality_permbu in Hnp.
    split; [assumption |]. split.
    + intros Hreq ->. simpl in Hy. rewrite andb_true_r in Hy.
      apply orb_false_iff in Hy. destruct Hy as [Hsi Hres].
      destruct Hreq as [-> | ->]; [discriminate |].
      vm_compute in Hres. discriminate.
    + exists lv. split; [reflexivity |].
      now apply level_outside_domain_spec.
  - intros [Hm [Hy [l [-> Hn]]]].
    apply level_outside_domain_spec in Hn.
    split; [destruct Hm as [-> | ->]; reflexivity |]. split.
    + destruct Y_df as [df |]; [apply andb_false_r |].
      rewrite andb_true_r. apply orb_false_iff.
      destruct self_insample; [exfalso; now apply Hy; [left |] |].
      split; [reflexivity |].
      destruct Hm as [-> | ->]; [reflexivity |].
      exfalso. apply Hy; [now right | reflexivity].
    + rewrite Hn. now apply mem_normality_permbu.
Qed.

(** C3, as amended.  [_prepare_fit] raises the domain error exactly when
    the re-sorting of the frames, which comes first when [sort_df] is true,
    raises nothing, the strategy is a known one, the historical frame is
    there when it is required, a level list was given, one of its levels
    lies outside [[0, 100)], and the strategy is [normality] or [permbu]: of
    the two resampling strategies only [bootstrap] is exempt.  Without
    re-sorting the first condition always holds.  With or without it, level
    [100] under [normality] raises the domain error, level [99.9] under
    [normality] passes validation, and [bootstrap] never raises the domain
    error. *)
Theorem level_domain_check :
  (forall (ext : externals) (self_insample : bool) (Y_hat_df S_df : frame)
          (Y_df : option frame) (level : option (list number))
          (intervals_method : string) (sort_df : bool),
      _prepare_fit ext self_insample Y_hat_df S_df Y_df level
                   intervals_method sort_df
      = inl LevelOutsideDomain
      <-> (exists frames,
              arrange ext Y_hat_df S_df Y_df sort_df = inr frames)
          /\ (intervals_method = "normality" \/ intervals_method = "permbu")
          /\ (self_insample = true \/ intervals_method = "permbu" ->
              Y_df <> None)
          /\ exists lv, level = Some lv
                        /\ exists n, In n lv /\ outside_domain n)
  /\ (forall (ext : externals) (Y_hat_df S_df : frame) (Y_df : option frame),
         exists frames, arrange ext Y_hat_df S_df Y_df false = inr frames)
  /\ (forall ext : externals,
         _prepare_fit ext false Y_hat_ETS S_total_a_b None
                      (Some [Int 100]) "normality" false
         = inl LevelOutsideDomain)
  /\ _prepare_fit example_externals false Y_hat_ETS S_total_a_b None
                  (Some [Int 100]) "normality" true
     = inl LevelOutsideDomain
  /\ (forall ext : externals,
         _prepare_fit ext false Y_hat_ETS S_total_a_b None
                      (Some [Float (999 # 10) "99.9"]) "normality" false
         = inr (Y_hat_ETS, S_total_a_b, None, ["ETS"]))
  /\ _prepare_fit example_externals false Y_hat_ETS S_total_a_b None
                  (Some [Float (999 # 10) "99.9"]) "normality" true
     = inr (Y_hat_ETS, S_total_a_b, None, ["ETS"])
  /\ (forall (ext : externals) (self_insample : bool) (Y_hat_df S_df : frame)
             (Y_df : option frame) (level : option (list number))
             (sort_df : bool),
         _prepare_fit ext self_insample Y_hat_df S_df Y_df level "bootstrap"
                      sort_df
         <> inl LevelOutsideDomain).
Proof.
  assert (Hiff : forall (ext : externals) (self_insample : bool)
                        (Y_hat_df S_df : frame) (Y_df : option frame)
                        (level : option (list number))
                        (intervals_method : string) (sort_df : bool),
      _prepare_fit ext self_insample Y_hat_df S_df Y_df level
                   intervals_method sort_df
      = inl LevelOutsideDomain
      <-> (exists frames,
              arrange ext Y_hat_df S_df Y_df sort_df = inr frames)
          /\ (intervals_method = "normality" \/ intervals_method = "permbu")
          /\ (self_insample = true \/ intervals_method = "permbu" ->
              Y_df <> None)
          /\ exists lv, level = Some lv
                        /\ exists n, In n lv /\ outside_domain n).
  { intros ext si Yh S Y lv m sort_df. rewrite prepare_fit_arranged. split.
    - intros [[w [_ Hw]] | [Yh1 [S1 [Yd1 [Ha Hc]]]]]; [discriminate |].
      apply checks_level_domain in Hc. destruct Hc as [Hm [Hy Hl]].
      split; [eauto |]. split; [assumption |]. split; [| assumption].
      intros Hreq HY. apply (Hy Hreq).
      now apply (arrange_Y_df _ _ _ _ _ _ _ _ Ha).
    - intros [[[[Yh1 S1] Yd1] Ha] [Hm [Hy Hl]]]. right.
      exists Yh1, S1, Yd1. split; [assumption |].
      apply checks_level_domain.
      split; [assumption |]. split; [| assumption].
      intros Hreq HY. apply (Hy Hreq).
      now apply (arrange_Y_df _ _ _ _ _ _ _ _ Ha). }
  split; [exact Hiff |].
  split; [intros; eexists; apply arrange_unsorted |].
  split; [reflexivity |].
  split; [reflexivity |].
  split; [reflexivity |].
  split; [reflexivity |].
  intros ext si Yh S Y lv sort_df H. apply Hiff in H.
  destruct H as [_ [[H | H] _]]; discriminate.
Qed.

(** C3, as stated, fails: [permbu] is a resampling strategy and level
    [100] raises the domain error under it, with the re-sorting and
    without it. *)
Lemma permbu_level_100_raises :
  resampling "permbu" = true
  /\ _prepare_fit example_externals false Y_hat_ETS S_total_a_b
                  (Some Y_df_ETS) (Some [Int 100]) "permbu" true
     = inl LevelOutsideDomain
  /\ forall ext : externals,
      _prepare_fit ext false Y_hat_ETS S_total_a_b
                   (Some Y_df_ETS) (Some [Int 100]) "permbu" false
      = inl LevelOutsideDomain.
Proof. repeat split; reflexivity. Qed.

(* ================================================================== *)
(** * Sigma from a prediction interval *)

Example findall_lo_80 :
  Regex.findall Regex.number_pattern "ARIMA-lo-80" = ["80"].
Proof. reflexivity. Qed.

Example findall_mixed :
  Regex.findall Regex.number_pattern "m1-hi-97.5x.5,7,8"
  = ["1"; "97.5"; ".5"; "7,8"].
Proof. reflexivity. Qed.

Example float_of_80 : float_of_text "80" = inr (80 # 1)%Q.
Proof. reflexivity. Qed.

Example float_of_97_5 : float_of_text "97.5" = inr (975 # 10)%Q.
Proof. reflexivity. Qed.

Example float_of_commas : float_of_text "7,8" = inl (FloatValueError "7,8").
Proof. reflexivity. Qed.

Lemma prefix_append (a b : string) : String.prefix a (a ++ b) = true.
Proof.
  induction a as [| ch a IH]; simpl; [now destruct b |].
  destruct (ascii_dec ch ch); [assumption | contradiction].
Qed.

Lemma contains_prefix (sub s : string) :
  String.prefix sub s = true -> Str.contains sub s = true.
Proof. intros H. destruct s; cbn [Str.contains]; now rewrite H. Qed.

Lemma contains_append (sub a b : string) :
  Str.contains sub (a ++ sub ++ b) = true.
Proof.
  induction a as [| ch a IH].
  - change ("" ++ sub ++ b) with (sub ++ b).
    apply contains_prefix, prefix_append.
  - change (String ch a ++ sub ++ b) with (String ch (a ++ sub ++ b)).
    cbn [Str.contains].
    destruct (String.prefix sub (String ch (a ++ sub ++ b)));
      [reflexivity | assumption].
Qed.

(** The exception of line 64 names the model. *)
Lemma missing_intervals_names_model (model_name : string) :
  Str.contains model_name (message (MissingIntervals model_name)) = true.
Proof. apply contains_append. Qed.

(** The column [_reverse_engineer_sigmah] reads is a column of the frame
    whose name contains ["-lo"] or ["-hi"] and contains the name of the
    model; when no column is such, the exception names the model. *)
Lemma pi_column_spec (Y_hat_df : frame) (model_name : string) :
  match pi_column Y_hat_df model_name with
  | inr pi_col =>
      In pi_col (column_names Y_hat_df)
      /\ (Str.contains "-lo" pi_col = true \/ Str.contains "-hi" pi_col = true)
      /\ Str.contains model_name pi_col = true
  | inl e =>
      (exists k, e = KeyError k)
      \/ (e = MissingIntervals model_name
          /\ forall c, In c (column_names Y_hat_df) ->
                       c <> "ds" -> c <> "y" ->
                       c <> model_name ++ "-median" ->
                       (Str.contains "-lo" c = true
                        \/ Str.contains "-hi" c = true) ->
                       Str.contains model_name c = false)
  end.
Proof.
  unfold pi_column, rbind.
  set (drop_cols := if Str.mem (model_name ++ "-median") _ then _ else _).
  destruct (drop_columns drop_cols Y_hat_df) as [e | names] eqn:Ed.
  { left. now apply drop_columns_error in Ed. }
  assert (Hnames : forall c, In c names
                             <-> In c (column_names Y_hat_df)
                                 /\ ~ In c drop_cols).
  { unfold drop_columns in Ed. destruct (filter _ drop_cols); [| discriminate].
    injection Ed as <-. intros c. rewrite filter_In, negb_true_iff, mem_not_In.
    reflexivity. }
  destruct (filter (fun pi_name => Str.contains model_name pi_name) _)
    as [| pi_col rest] eqn:Ef.
  - right. split; [reflexivity |].
    intros c Hin Hds Hy Hmed Hlohi.
    destruct (Str.contains model_name c) eqn:Ec; [| reflexivity].
    exfalso.
    assert (Hc : In c (filter (fun pi_name => Str.contains model_name pi_name)
                   (filter (fun name => Str.contains "-lo" name
                                        || Str.contains "-hi" name) names))).
    { rewrite !filter_In. repeat split; try assumption.
      - apply Hnames. split; [assumption |]. subst drop_cols.
        destruct (Str.mem "y" _), (Str.mem (model_name ++ "-median") _);
          simpl; intuition congruence.
      - apply orb_true_iff. exact Hlohi. }
    rewrite Ef in Hc. contradiction.
  - assert (Hc : In pi_col
                   (filter (fun pi_name => Str.contains model_name pi_name)
                      (filter (fun name => Str.contains "-lo" name
                                           || Str.contains "-hi" name) names)))
      by (rewrite Ef; now left).
    rewrite !filter_In in Hc. destruct Hc as [[Hin Hlohi] Hm].
    apply Hnames in Hin. apply orb_true_iff in Hlohi.
    destruct Hin as [Hin _]. repeat split; assumption.
Qed.

(** C1.  The sign is chosen by looking for ["lo"] anywhere in the name of
    the column, the name of the model included: for the model [global],
    a forecast of [10.0] and the upper bound [global-hi-80] at [12.0], the
    sign is [-1] and the sigma is [-(12 - 10) / z] instead of
    [(12 - 10) / z]. *)
Theorem sigmah_sign_from_model_name (ppf : Q -> Q) :
  pi_column Y_hat_global "global" = inr "global-hi-80"
  /\ sign_of "global-hi-80" = (-1)%Z
  /\ _reverse_engineer_sigmah ppf Y_hat_global [[Some (10 # 1)%Q]] "global"
     = inr [[xdiv (Some (inject_Z (-1) * ((12 # 1) - (10 # 1)))%Q)
                  (ppf ((1 # 2) + (80 # 1) / (200 # 1))%Q)]].
Proof. repeat split. Qed.

(** The two cases that the specification works out: a forecast of [10.0]
    with the bound [-hi-80] at [12.0], or with the bound [-lo-80] at [8.0],
    gives [2 / norm.ppf(0.9)]. *)
Lemma sigmah_hi_80_lo_80 (ppf : Q -> Q) :
  let z := ppf ((1 # 2) + (80 # 1) / (200 # 1))%Q in
  _reverse_engineer_sigmah ppf Y_hat_hi_80 [[Some (10 # 1)%Q]] "model"
  = inr [[xdiv (Some (2 # 1)%Q) z]]
  /\ _reverse_engineer_sigmah ppf Y_hat_lo_80 [[Some (10 # 1)%Q]] "model"
     = inr [[xdiv (Some (2 # 1)%Q) z]]
  /\ ((1 # 2) + (80 # 1) / (200 # 1) == 9 # 10)%Q.
Proof. repeat split. Qed.

(** C6.  The interval column is searched by looking for the name of the
    model anywhere in the names of the columns: [Naive] has no interval
    column, no exception is raised, and its sigma is derived from the
    column [SeasonalNaive-lo-80] of another model. *)
Theorem sigmah_from_another_model (ppf : Q -> Q) :
  pi_column Y_hat_Naive_SeasonalNaive "Naive" = inr "SeasonalNaive-lo-80"
  /\ _reverse_engineer_sigmah ppf Y_hat_Naive_SeasonalNaive
                              [[Some (10 # 1)%Q]] "Naive"
     = inr [[xdiv (Some (inject_Z (-1) * ((8 # 1) - (10 # 1)))%Q)
                  (ppf ((1 # 2) + (80 # 1) / (200 # 1))%Q)]].
Proof. repeat split. Qed.

(* ================================================================== *)
(** * Sorting *)

Lemma insert_sorted_perm (x : number) (l : list number) :
  Permutation (x :: l) (insert_sorted x l).
Proof.
  induction l as [| y l IH]; simpl; [reflexivity |].
  destruct (Qle_bool (num_value x) (num_value y)); [reflexivity |].
  rewrite perm_swap. now apply perm_skip.
Qed.

Lemma list_sort_perm (l : list number) : Permutation l (list_sort l).
Proof.
  induction l as [| x l IH]; simpl; [reflexivity |].
  rewrite <- insert_sorted_perm. now apply perm_skip.
Qed.

Lemma insert_sorted_ascending (x : number) (l : list number) :
  ascending l -> ascending (insert_sorted x l).
Proof.
  unfold ascending. induction l as [| y l IH]; simpl; intros Hs.
  - repeat constructor.
  - destruct (Qle_bool (num_value x) (num_value y)) eqn:E.
    + apply Qle_bool_iff in E. constructor; [assumption | now constructor].
    + assert (Hyx : (num_value y <= num_value x)%Q).
      { apply Qlt_le_weak, Qnot_le_lt. intros H.
        apply Qle_bool_iff in H. congruence. }
      inversion Hs as [| ? ? Hs' Hhd]; subst.
      constructor; [now apply IH |].
      destruct l as [| z l]; simpl.
      * now constructor.
      * inversion Hhd; subst.
        destruct (Qle_bool (num_value x) (num_value z)); now constructor.
Qed.

Lemma list_sort_ascending (l : list number) : ascending (list_sort l).
Proof.
  induction l as [| x l IH]; simpl.
  - constructor.
  - now apply insert_sorted_ascending.
Qed.

Lemma list_sort_fixed (l : list number) : ascending l -> list_sort l = l.
Proof.
  unfold ascending. induction l as [| x l IH]; intros Hs; [reflexivity |].
  inversion Hs as [| ? ? Hs' Hhd]; subst. simpl. rewrite (IH Hs').
  destruct l as [| y l]; [reflexivity |]. simpl.
  inversion Hhd as [| ? ? Hxy]; subst.
  apply Qle_bool_iff in Hxy. now rewrite Hxy.
Qed.

Lemma list_sort_idempotent (l : list number) :
  list_sort (list_sort l) = list_sort l.
Proof. apply list_sort_fixed, list_sort_ascending. Qed.

Lemma range_In (n i : Z) : In i (range n) <-> (0 <= i < n)%Z.
Proof.
  unfold range. rewrite in_map_iff. split.
  - intros [k [<- Hk]]. apply in_seq in Hk. lia.
  - intros H. exists (Z.to_nat i). split; [lia |]. apply in_seq. lia.
Qed.

(* ================================================================== *)
(** * Running the orchestrator symbolically *)

(** The scrutinee that blocks the evaluation of a term. *)
Ltac head_scrutinee t :=
  lazymatch t with
  | match ?x with inl _ => _ | inr _ => _ end => head_scrutinee x
  | match ?x with Some _ => _ | None => _ end => head_scrutinee x
  | if ?x then _ else _ => head_scrutinee x
  | let (_, _) := ?x in _ => head_scrutinee x
  | (match ?x with inl _ => _ | inr _ => _ end) _ => head_scrutinee x
  | (match ?x with Some _ => _ | None => _ end) _ => head_scrutinee x
  | (if ?x then _ else _) _ => head_scrutinee x
  | _ => t
  end.

Ltac step_in H :=
  cbv beta iota in H;
  lazymatch type of H with
  | ?lhs = _ =>
      lazymatch lhs with
      | match _ with inl _ => _ | inr _ => _ end => idtac
      | match _ with Some _ => _ | None => _ end => idtac
      | if _ then _ else _ => idtac
      | let (_, _) := _ in _ => idtac
      end;
      let x := head_scrutinee lhs in
      destruct x eqn:?; try discriminate H
  end.

Ltac run_in H := repeat step_in H.

Ltac simpl_state :=
  cbn [reconcilers orig_reconcilers self_insample model_names
       execution_times level_names sample_names level calls clock
       set_model_names set_execution_times set_level_names
       set_sample_names set_level set_calls set_clock fst snd].

Ltac simpl_state_in H :=
  cbn [reconcilers orig_reconcilers self_insample model_names
       execution_times level_names sample_names level calls clock
       set_model_names set_execution_times set_level_names
       set_sample_names set_level set_calls set_clock fst snd] in H.

(** ** Exceptions that are not those of the validation *)

Lemma dict_item_later {A} (k : string) (d : list (string * A)) (e : error) :
  dict_item k d = inl e -> later_error e.
Proof.
  unfold dict_item. destruct (dict_get k d); [discriminate |].
  intros H. now injection H as <-.
Qed.

Lemma reshape_later {A} (n : nat) (l : list A) (e : error) :
  reshape n l = inl e -> later_error e.
Proof.
  unfold reshape. intros H. run_in H; now injection H as <-.
Qed.

Lemma mapM_later {A B} (f : A -> result B) (l : list A) (e : error) :
  (forall x e, f x = inl e -> later_error e) ->
  mapM f l = inl e -> later_error e.
Proof.
  intros Hf. induction l as [| x l IH]; simpl; [discriminate |].
  unfold rbind. destruct (f x) eqn:Ex.
  - intros H. injection H as <-. eauto.
  - destruct (mapM f l); [intros H; injection H as <-; now apply IH |
                          discriminate].
Qed.

Lemma cell_value_later (c : cell) (e : error) :
  cell_value c = inl e -> later_error e.
Proof. destruct c; simpl; try discriminate. intros H. now injection H as <-. Qed.

Lemma from_Y_df_later (ext : externals) (Y_df : option frame)
      (column : string) (is_balanced : bool) (S_df : frame) (e : error) :
  from_Y_df ext Y_df column is_balanced S_df = inl e -> later_error e.
Proof.
  unfold from_Y_df, refused, rbind, raise, ok. intros H.
  run_in H; injection H as <-;
    try reflexivity; eauto using dict_item_later, reshape_later.
Qed.

Lemma broadcast_later {A B C} (f : A -> B -> result C)
      (a : list A) (b : list B) (e : error) :
  (forall x y e, f x y = inl e -> later_error e) ->
  broadcast f a b = inl e -> later_error e.
Proof.
  intros Hf. unfold broadcast.
  destruct (Nat.eqb (List.length a) (List.length b)).
  - revert b. induction a as [| x a IH]; intros [| y b]; simpl;
      try discriminate.
    unfold rbind. destruct (f x y) eqn:Exy.
    + intros H. injection H as <-. eauto.
    + specialize (IH b). simpl in IH. unfold rbind in IH.
      destruct (mapM (fun r => r) (zip_with f a b));
        [intros H; injection H as <-; now apply IH | discriminate].
  - destruct a as [| x [| x' a]]; destruct b as [| y [| y' b]];
      try (intros H; now injection H as <-);
      try (apply mapM_later; intros; eauto).
Qed.

Lemma xsub_later (a : cell) (b : xfloat) (e : error) :
  xsub a b = inl e -> later_error e.
Proof.
  unfold xsub, rbind. destruct (cell_value a) eqn:E.
  - intros H. injection H as <-. eauto using cell_value_later.
  - destruct x, b; discriminate.
Qed.

Lemma float_of_text_later (s : string) (e : error) :
  float_of_text s = inl e -> later_error e.
Proof.
  unfold float_of_text. destruct (split_dot s) as [i f].
  intros H. run_in H; now injection H as <-.
Qed.

Lemma reverse_engineer_sigmah_later
      (ppf : Q -> Q) (Y_hat_df : frame) (y_hat : matrix)
      (model_name : string) (e : error) :
  _reverse_engineer_sigmah ppf Y_hat_df y_hat model_name = inl e ->
  later_error e.
Proof.
  unfold _reverse_engineer_sigmah, rbind. intros H.
  pose proof (pi_column_spec Y_hat_df model_name) as Hpi.
  destruct (pi_column Y_hat_df model_name) as [e' | pi_col].
  - injection H as <-. destruct Hpi as [[k ->] | [-> _]]; reflexivity.
  - clear Hpi. unfold level_of in H.
    destruct (rev (Regex.findall Regex.number_pattern pi_col)) as [| t ts].
    + now injection H as <-.
    + destruct (float_of_text t) eqn:Ef;
        [injection H as <-; eauto using float_of_text_later |].
      destruct (dict_item pi_col (columns Y_hat_df)) eqn:Ed;
        [injection H as <-; eauto using dict_item_later |].
      destruct (reshape _ l) eqn:Er;
        [injection H as <-; eauto using reshape_later |].
      destruct (broadcast (broadcast xsub) l0 y_hat) eqn:Eb;
        [| discriminate].
      injection H as <-. revert Eb. apply broadcast_later.
      intros x y err. apply broadcast_later. apply xsub_later.
Qed.

Lemma build_fn_name_later (fn : reconciler) (e : error) :
  _build_fn_name fn = inl e -> later_error e.
Proof.
  unfold _build_fn_name, rbind.
  destruct (args_to_remove fn) eqn:Ea.
  - intros H. injection H as <-. revert Ea.
    unfold args_to_remove, rbind. intros H.
    run_in H; injection H as <-;
      eauto using dict_item_later.
  - destruct (map token _); discriminate.
Qed.

(* ================================================================== *)
(** * The loops of [reconcile] *)

Lemma for_each_inv {A B : Type}
      (I : B -> state -> Prop) (E : A -> B -> state -> Prop)
      (R : B * state -> B * state -> Prop)
      (l : list A) (body : A -> B -> M B) :
  (forall s, R s s) ->
  (forall s1 s2 s3, R s1 s2 -> R s2 s3 -> R s1 s3) ->
  (forall x s s', E x (fst s) (snd s) -> R s s' -> E x (fst s') (snd s')) ->
  (forall x acc st acc' st',
      In x l -> I acc st -> body x acc st = (st', inr acc') ->
      I acc' st' /\ E x acc' st' /\ R (acc, st) (acc', st')) ->
  forall acc st acc' st',
    I acc st -> for_each l body acc st = (st', inr acc') ->
    I acc' st' /\ (forall x, In x l -> E x acc' st')
    /\ R (acc, st) (acc', st').
Proof.
  intros Hrefl Htrans Hmono.
  induction l as [| x l IH]; intros Hstep acc st acc' st' HI Hrun.
  - simpl in Hrun. unfold ret in Hrun. injection Hrun as <- <-.
    repeat split; [assumption | contradiction | apply Hrefl].
  - simpl in Hrun. unfold bind in Hrun.
    destruct (body x acc st) as [st1 [e | acc1]] eqn:Ex; [discriminate |].
    destruct (Hstep x acc st acc1 st1 (or_introl eq_refl) HI Ex)
      as [HI1 [HE1 HR1]].
    assert (Hstep' : forall y a s a' s',
               In y l -> I a s -> body y a s = (s', inr a') ->
               I a' s' /\ E y a' s' /\ R (a, s) (a', s')).
    { intros y a s a' s' Hy. apply Hstep. now right. }
    destruct (IH Hstep' acc1 st1 acc' st' HI1 Hrun) as [HI' [HE' HR']].
    repeat split.
    + assumption.
    + intros y [<- | Hy]; [| now apply HE'].
      apply (Hmono x (acc1, st1) (acc', st')); assumption.
    + now apply (Htrans _ (acc1, st1)).
Qed.

Lemma for_each_invariant {A B : Type} (I : B -> state -> Prop)
      (l : list A) (body : A -> B -> M B) :
  (forall x acc st acc' st',
      I acc st -> body x acc st = (st', inr acc') -> I acc' st') ->
  forall acc st acc' st',
    I acc st -> for_each l body acc st = (st', inr acc') -> I acc' st'.
Proof.
  intros Hstep acc st acc' st' HI Hrun.
  assert (H : I acc' st' /\ (forall x, In x l -> True) /\ True).
  { apply (for_each_inv I (fun _ _ _ => True) (fun _ _ => True) l body)
      with (acc := acc) (st := st); auto.
    intros x a s a' s' _ Ha Hb. split; [| split]; auto.
    exact (Hstep x a s a' s' Ha Hb). }
  exact (proj1 H).
Qed.

Lemma for_each_error {A B : Type} (P : error -> Prop)
      (l : list A) (body : A -> B -> M B) :
  (forall x acc st st' e, body x acc st = (st', inl e) -> P e) ->
  forall acc st st' e, for_each l body acc st = (st', inl e) -> P e.
Proof.
  intros Hbody. induction l as [| x l IH]; intros acc st st' e; simpl.
  - discriminate.
  - unfold bind. destruct (body x acc st) as [st1 [e1 | acc1]] eqn:Ex.
    + intros H. injection H as <- <-. eauto.
    + apply IH.
Qed.

Section Loops.

Variable ext : externals.

(** What one turn of the inner loop does when it completes. *)
Lemma reconcile_model_ok
      (Y_hat_df S_df : frame) (Y_df : option frame) (method : string)
      (ns seed : Z) (bal : bool) (start : Q) (fn : reconciler)
      (fn_name : string) (hf hl : bool) (model : string)
      (ra : list (string * arg)) (cols : list (string * coldata))
      (st st' : state) (ra' : list (string * arg))
      (cols' : list (string * coldata)) :
  reconcile_model ext Y_hat_df S_df Y_df method ns seed bal start
                  fn fn_name hf hl model (ra, cols) st
  = (st', inr (ra', cols')) ->
  let rm := model ++ "/" ++ fn_name in
  reconcilers st' = reconcilers st
  /\ orig_reconcilers st' = orig_reconcilers st
  /\ self_insample st' = self_insample st
  /\ model_names st' = model_names st
  /\ (exists t, execution_times st' = dict_set rm t (execution_times st))
  /\ (exists c new, calls st' = (calls st ++ c :: new)%list)
  /\ match level st with
     | Some lv =>
         if Str.mem method ["bootstrap"; "normality"; "permbu"] then
           level st' = Some (list_sort lv)
           /\ level_names st'
              = dict_set rm (interval_names rm (list_sort lv)) (level_names st)
           /\ exists k,
               if Z.ltb 0 ns then
                 sample_names st'
                 = dict_set rm (sample_column_names rm ns) (sample_names st)
                 /\ exists ks,
                     cols' = ((setitem rm (Mean k) cols
                               ++ array_columns (Quantile k)
                                    (interval_names rm (list_sort lv)))
                              ++ array_columns (SampleColumn ks)
                                   (sample_column_names rm ns))%list
               else
                 sample_names st' = sample_names st
                 /\ cols' = (setitem rm (Mean k) cols
                             ++ array_columns (Quantile k)
                                  (interval_names rm (list_sort lv)))%list
         else
           level st' = Some lv /\ level_names st' = level_names st
           /\ sample_names st' = sample_names st
           /\ exists k, cols' = setitem rm (Mean k) cols
     | None =>
         level st' = None /\ level_names st' = level_names st
         /\ sample_names st' = sample_names st
         /\ exists k, cols' = setitem rm (Mean k) cols
     end.
Proof.
  unfold reconcile_model, bind, lift, get, modify, ret, time, invoke.
  intros H. run_in H.
  all: injection H as <- <- <-; simpl_state.
  all: repeat match goal with
              | E : level _ = _ |- _ => rewrite E
              | E : Str.mem _ _ = _ |- _ => rewrite E
              | E : Z.ltb _ _ = _ |- _ => rewrite E
              end.
  all: unfold interval_names.
  all: repeat split; eauto.
  all: rewrite <- ?app_assoc; simpl; eauto.
Qed.

(** The exceptions of the inner loop are not those of the validation. *)
Lemma reconcile_model_later
      (Y_hat_df S_df : frame) (Y_df : option frame) (method : string)
      (ns seed : Z) (bal : bool) (start : Q) (fn : reconciler)
      (fn_name : string) (hf hl : bool) (model : string)
      (acc : list (string * arg) * list (string * coldata))
      (st st' : state) (e : error) :
  reconcile_model ext Y_hat_df S_df Y_df method ns seed bal start
                  fn fn_name hf hl model acc st
  = (st', inl e) ->
  later_error e.
Proof.
  destruct acc as [ra cols].
  unfold reconcile_model, bind, lift, get, modify, ret, time, invoke.
  intros H. run_in H.
  all: injection H as <- <-.
  all: eauto using dict_item_later, reshape_later, from_Y_df_later,
         reverse_engineer_sigmah_later.
  all: try reflexivity.
  all: match goal with
       | E : mapM (mapM cell_value) _ = inl _ |- _ =>
           revert E; apply mapM_later; intros ? ?; apply mapM_later;
           apply cell_value_later
       end.
Qed.

(** ** Columns *)

Lemma keys_app {A} (a b : list (string * A)) :
  keys (a ++ b)%list = (keys a ++ keys b)%list.
Proof. apply map_app. Qed.

Lemma keys_setitem (name : string) (d : coldata)
      (cols : list (string * coldata)) :
  exists more, keys (setitem name d cols) = (keys cols ++ more)%list.
Proof.
  unfold setitem. destruct (Str.mem name (keys cols)).
  - exists []. rewrite app_nil_r. unfold keys. rewrite map_map.
    apply map_ext. intros [c x]. simpl. now destruct (String.eqb c name).
  - exists [name]. now rewrite keys_app.
Qed.

Lemma enumerate_from_snd {A} (i : nat) (l : list A) :
  map snd (enumerate_from i l) = l.
Proof.
  revert i. induction l as [| x l IH]; intros i; simpl;
    [reflexivity | now rewrite IH].
Qed.

Lemma keys_array_columns (part : nat -> coldata) (names : list string) :
  keys (array_columns part names) = names.
Proof.
  unfold keys, array_columns. rewrite map_map. simpl.
  apply enumerate_from_snd.
Qed.

Lemma In_array_columns (part : nat -> coldata) (names : list string)
      (c : string) (d : coldata) :
  In (c, d) (array_columns part names) -> exists j, d = part j.
Proof.
  unfold array_columns. rewrite in_map_iff.
  intros [[j n] [H _]]. injection H as _ <-. now exists j.
Qed.

Lemma In_setitem (name : string) (d0 : coldata)
      (cols : list (string * coldata)) (c : string) (d : coldata) :
  In (c, d) (setitem name d0 cols) -> d = d0 \/ In (c, d) cols.
Proof.
  unfold setitem. destruct (Str.mem name (keys cols)).
  - rewrite in_map_iff. intros [[c' d'] [H Hin]]. simpl in H.
    destruct (String.eqb c' name).
    + injection H as _ <-. now left.
    + injection H as <- <-. now right.
  - rewrite in_app_iff. simpl. intros [H | [H | []]]; [now right |].
    injection H as _ <-. now left.
Qed.

(** ** The relation between two points of a run *)

Lemma extends_refl (lv : list number) (ns : Z)
      (s : list (string * coldata) * state) :
  extends lv ns s s.
Proof.
  repeat split; auto. exists []. now rewrite app_nil_r.
Qed.

Lemma extends_trans (lv : list number) (ns : Z)
      (s1 s2 s3 : list (string * coldata) * state) :
  extends lv ns s1 s2 -> extends lv ns s2 s3 -> extends lv ns s1 s3.
Proof.
  intros [[e1 H1] [Hl1 Hs1]] [[e2 H2] [Hl2 Hs2]]. repeat split; auto.
  exists (e1 ++ e2)%list. now rewrite H2, H1, app_assoc.
Qed.

Lemma intervals_recorded_extends (lv : list number) (ns : Z) (rm : string)
      (s s' : list (string * coldata) * state) :
  intervals_recorded lv rm (fst s) (snd s) -> extends lv ns s s' ->
  intervals_recorded lv rm (fst s') (snd s').
Proof.
  intros [Hget [pre [post Hk]]] [[more He] [Hl _]]. split; [auto |].
  exists pre, (post ++ more)%list. rewrite He, Hk.
  now rewrite <- !app_assoc.
Qed.

Lemma samples_recorded_extends (lv : list number) (ns : Z) (rm : string)
      (s s' : list (string * coldata) * state) :
  samples_recorded ns rm (fst s) (snd s) -> extends lv ns s s' ->
  samples_recorded ns rm (fst s') (snd s').
Proof.
  intros [Hget [pre [post Hk]]] [[more He] [_ Hs]]. split; [auto |].
  exists pre, (post ++ more)%list. rewrite He, Hk.
  now rewrite <- !app_assoc.
Qed.

Lemma dict_get_set_canonical {A} (f : string -> A) (rm rm' : string)
      (d : list (string * A)) :
  dict_get rm' d = Some (f rm') ->
  dict_get rm' (dict_set rm (f rm) d) = Some (f rm').
Proof.
  intros H. destruct (string_dec rm' rm) as [-> | Hne].
  - apply dict_get_set_same.
  - now rewrite dict_get_set_other.
Qed.

(** ** One run, with a level list *)

Section Run.

Variables (Y_hat_df S_df : frame) (Y_df : option frame) (method : string).
Variables (ns seed : Z) (bal : bool) (start : Q).
Variable lv : list number.
Variable models : list string.

Hypothesis Hmethod :
  Str.mem method ["bootstrap"; "normality"; "permbu"] = true.

Let acc_type : Type := (list (string * arg) * list (string * coldata))%type.

Let I (acc : acc_type) (st : state) : Prop :=
  model_names st = models /\ level_progress lv st.

Let R (s s' : acc_type * state) : Prop :=
  extends lv ns (snd (fst s), snd s) (snd (fst s'), snd s').

Lemma reconcile_model_step
      (fn : reconciler) (fn_name : string) (hf hl : bool) (model : string)
      (acc acc' : acc_type) (st st' : state) :
  I acc st ->
  reconcile_model ext Y_hat_df S_df Y_df method ns seed bal start
                  fn fn_name hf hl model acc st
  = (st', inr acc') ->
  I acc' st'
  /\ pair_recorded lv ns (model ++ "/" ++ fn_name) (snd acc') st'
  /\ R (acc, st) (acc', st').
Proof.
  destruct acc as [ra cols], acc' as [ra' cols'].
  intros [Hmodels Hlevel] Hrun.
  apply reconcile_model_ok in Hrun.
  destruct Hrun as [_ [_ [_ [Hm [_ [_ Hrun]]]]]].
  set (rm := model ++ "/" ++ fn_name) in *.
  assert (Hl : exists l, level st = Some l /\ list_sort l = list_sort lv).
  { destruct Hlevel as [[-> _] | [-> _]]; eexists; split; try reflexivity.
    apply list_sort_idempotent. }
  destruct Hl as [l [Hl Hsort]].
  rewrite Hl, Hmethod, Hsort in Hrun.
  destruct Hrun as [Hlevel' [Hnames [k Hrun]]].
  destruct (keys_setitem rm (Mean k) cols) as [more Hext].
  assert (Hcols : exists post,
             cols' = ((setitem rm (Mean k) cols
                       ++ array_columns (Quantile k)
                            (interval_names rm (list_sort lv)))
                      ++ post)%list
             /\ (sample_names st'
                 = dict_set rm (sample_column_names rm ns) (sample_names st)
                 /\ (exists ks,
                        post = array_columns (SampleColumn ks)
                                 (sample_column_names rm ns))
                 \/ (sample_names st' = sample_names st
                     /\ post = [] /\ (0 <? ns)%Z = false))).
  { destruct (0 <? ns)%Z.
    - destruct Hrun as [Hs [ks ->]]. eexists. split; [reflexivity |].
      left. split; [assumption | now exists ks].
    - destruct Hrun as [Hs ->]. exists []. split; [now rewrite app_nil_r |].
      right. auto. }
  destruct Hcols as [post [-> Hsamples]].
  split; [| split].
  - split; [congruence |]. right. split; [assumption |].
    rewrite Hnames. apply dict_set_not_nil.
  - split.
    + split; [rewrite Hnames; apply dict_get_set_same |].
      exists (keys (setitem rm (Mean k) cols)), (keys post). simpl.
      now rewrite !keys_app, keys_array_columns, <- app_assoc.
    + intros Hns. assert (Hlt : (0 <? ns)%Z = true) by now apply Z.ltb_lt.
      destruct Hsamples as [[Hs [ks ->]] | [_ [_ Hf]]]; [| congruence].
      split; [rewrite Hs; apply dict_get_set_same |].
      exists (keys (setitem rm (Mean k) cols
                    ++ array_columns (Quantile k)
                         (interval_names rm (list_sort lv)))%list), [].
      simpl. now rewrite keys_app, keys_array_columns, app_nil_r.
  - unfold R, extends. simpl. split; [| split].
    + rewrite !keys_app, Hext, keys_array_columns.
      eexists. rewrite <- !app_assoc. reflexivity.
    + intros rm'. rewrite Hnames.
      apply (dict_get_set_canonical
               (fun r => interval_names r (list_sort lv))).
    + intros rm'. destruct Hsamples as [[-> _] | [-> _]]; [| auto].
      apply (dict_get_set_canonical (fun r => sample_column_names r ns)).
Qed.

Lemma R_refl (s : acc_type * state) : R s s.
Proof. apply extends_refl. Qed.

Lemma R_trans (s1 s2 s3 : acc_type * state) : R s1 s2 -> R s2 s3 -> R s1 s3.
Proof. apply extends_trans. Qed.

Lemma pair_recorded_R (rm : string) (s s' : acc_type * state) :
  pair_recorded lv ns rm (snd (fst s)) (snd s) -> R s s' ->
  pair_recorded lv ns rm (snd (fst s')) (snd s').
Proof.
  intros [Hi Hs] HR. split.
  - exact (intervals_recorded_extends
             lv ns rm (snd (fst s), snd s) (snd (fst s'), snd s') Hi HR).
  - intros Hns.
    exact (samples_recorded_extends
             lv ns rm (snd (fst s), snd s) (snd (fst s'), snd s')
             (Hs Hns) HR).
Qed.

(** The inner loop. *)
Lemma reconcile_models_loop
      (fn : reconciler) (fn_name : string) (hf hl : bool)
      (l : list string) (acc acc' : acc_type) (st st' : state) :
  I acc st ->
  for_each l (reconcile_model ext Y_hat_df S_df Y_df method ns seed bal
                              start fn fn_name hf hl) acc st
  = (st', inr acc') ->
  I acc' st'
  /\ (forall model, In model l ->
                    pair_recorded lv ns (model ++ "/" ++ fn_name)
                                  (snd acc') st')
  /\ R (acc, st) (acc', st').
Proof.
  apply (for_each_inv I
           (fun model a s =>
              pair_recorded lv ns (model ++ "/" ++ fn_name) (snd a) s) R).
  - apply R_refl.
  - apply R_trans.
  - intros model s s'. apply pair_recorded_R.
  - intros model a s a' s' _. apply reconcile_model_step.
Qed.

(** The outer loop. *)
Lemma reconcile_reconcilers_loop
      (pairs : list (reconciler * reconciler))
      (acc acc' : acc_type) (st st' : state) :
  I acc st ->
  for_each pairs (reconcile_reconciler ext Y_hat_df S_df Y_df method ns
                                       seed bal start) acc st
  = (st', inr acc') ->
  I acc' st'
  /\ (forall fn name_copy fn_name model,
         In (fn, name_copy) pairs ->
         _build_fn_name name_copy = inr fn_name ->
         In model models ->
         pair_recorded lv ns (model ++ "/" ++ fn_name) (snd acc') st')
  /\ R (acc, st) (acc', st').
Proof.
  intros HI Hrun.
  destruct (for_each_inv I
              (fun (pair : reconciler * reconciler) a s =>
                 forall fn_name model,
                   _build_fn_name (snd pair) = inr fn_name ->
                   In model models ->
                   pair_recorded lv ns (model ++ "/" ++ fn_name) (snd a) s)
              R pairs
              (reconcile_reconciler ext Y_hat_df S_df Y_df method ns
                                    seed bal start)
              R_refl R_trans) with (acc := acc) (st := st)
                                   (acc' := acc') (st' := st')
    as [HI' [HE HR]]; try assumption.
  - intros pair s s' H HR fn_name model Hname Hmodel.
    apply (pair_recorded_R _ s s'); auto.
  - intros [fn name_copy] [ra cols] s a' s' _ HIs Hbody.
    unfold reconcile_reconciler, bind, lift, get in Hbody.
    destruct (_build_fn_name name_copy) as [e | fn_name] eqn:Ename;
      [discriminate |].
    cbv beta iota in Hbody.
    assert (Hm : model_names s = models) by apply HIs.
    rewrite Hm in Hbody.
    apply reconcile_models_loop in Hbody; [| exact HIs].
    destruct Hbody as [HI1 [HE1 HR1]].
    split; [assumption |]. split; [| exact HR1].
    intros fn_name' model Hname Hmodel. simpl in Hname.
    rewrite Ename in Hname. injection Hname as <-. now apply HE1.
  - split; [assumption |]. split; [| assumption].
    intros fn name_copy fn_name model Hin Hname Hmodel.
    exact (HE (fn, name_copy) Hin fn_name model Hname Hmodel).
Qed.

End Run.

(** ** [reconcile] as validation followed by the loops *)

(** [reconcile] in one equation. *)
Lemma reconcile_unfold
      (Y_hat_df S_df0 : frame) (tags : list (string * list string))
      (Y_df : option frame) (method : string) (ns seed : Z)
      (sort_df bal : bool) (st : state) :
  reconcile ext Y_hat_df S_df0 tags Y_df method ns seed sort_df bal st
  = match _prepare_fit ext (self_insample st) Y_hat_df S_df0 Y_df (level st)
                       method sort_df with
    | inl e => (st, inl e)
    | inr (Y_hat_df', S_df, Y_df', names) =>
        match initial_args ext S_df Y_df' bal with
        | inl e => (set_model_names names st, inl e)
        | inr ra =>
            match for_each (combine (reconcilers st) (orig_reconcilers st))
                           (reconcile_reconciler ext Y_hat_df' S_df Y_df'
                                                 method ns seed bal
                                                 (time_time ext (clock st)))
                           (ra, map (fun c => (fst c, Cells (snd c)))
                                    (columns Y_hat_df'))
                           (loop_start names st) with
            | (st', inl e) => (st', inl e)
            | (st', inr acc) =>
                (st', inr {| out_index := index Y_hat_df';
                             out_columns := snd acc |})
            end
        end
    end.
Proof.
  unfold reconcile, bind, lift, get, modify, ret, time, initial_args, rbind,
    ok.
  cbv beta iota.
  destruct (_prepare_fit _ _ Y_hat_df S_df0 Y_df _ method _)
    as [e | [[[Y_hat_df' S_df] Y_df'] names]]; [reflexivity |].
  cbv beta iota.
  destruct (refused (get_indexer ext S_df)) as [e | indexed];
    [reflexivity |].
  cbv beta iota.
  destruct Y_df' as [df |].
  - destruct (from_Y_df _ (Some df) "y" bal _) as [e | a];
      cbv beta iota; [reflexivity |].
    simpl_state. fold (loop_start names st).
    now destruct (for_each _ _ _ _) as [s1 [e | acc]].
  - simpl_state. fold (loop_start names st).
    now destruct (for_each _ _ _ _) as [s1 [e | acc]].
Qed.

Lemma reconcile_ok
      (Y_hat_df S : frame) (tags : list (string * list string))
      (Y_df : option frame) (method : string) (ns seed : Z)
      (sort_df bal : bool) (st st' : state) (out : out_frame) :
  reconcile ext Y_hat_df S tags Y_df method ns seed sort_df bal st
  = (st', inr out) ->
  exists Y_hat_df' S_df Y_df' names ra ra',
    _prepare_fit ext (self_insample st) Y_hat_df S Y_df (level st) method
                 sort_df
    = inr (Y_hat_df', S_df, Y_df', names)
    /\ for_each (combine (reconcilers st) (orig_reconcilers st))
                (reconcile_reconciler ext Y_hat_df' S_df Y_df' method ns
                                      seed bal (time_time ext (clock st)))
                (ra, map (fun c => (fst c, Cells (snd c))) (columns Y_hat_df'))
                (loop_start names st)
       = (st', inr (ra', out_columns out))
    /\ out_index out = index Y_hat_df'.
Proof.
  intros H. rewrite reconcile_unfold in H.
  destruct (_prepare_fit _ _ Y_hat_df S Y_df _ method _)
    as [e | [[[Y_hat_df' S_df] Y_df'] names]]; [discriminate |].
  destruct (initial_args _ _ Y_df' bal) as [e | ra]; [discriminate |].
  destruct (for_each _ _ _ _) as [s1 [e | [ra' cols']]] eqn:El;
    [discriminate |].
  injection H as <- <-.
  exists Y_hat_df', S_df, Y_df', names, ra, ra'. now repeat split.
Qed.

Lemma reconcile_reconciler_later
      (Y_hat_df S_df : frame) (Y_df : option frame) (method : string)
      (ns seed : Z) (bal : bool) (start : Q)
      (pair : reconciler * reconciler)
      (acc : list (string * arg) * list (string * coldata))
      (st st' : state) (e : error) :
  reconcile_reconciler ext Y_hat_df S_df Y_df method ns seed bal start
                       pair acc st
  = (st', inl e) ->
  later_error e.
Proof.
  destruct pair as [fn name_copy], acc as [ra cols].
  unfold reconcile_reconciler, bind, lift, get. intros H.
  destruct (_build_fn_name name_copy) as [e' | fn_name] eqn:Ename;
    cbv beta iota in H.
  - injection H as <- <-. eauto using build_fn_name_later.
  - revert H. apply for_each_error.
    intros. eauto using reconcile_model_later.
Qed.

Lemma initial_args_later (S_df : frame) (Y_df : option frame) (bal : bool)
      (e : error) :
  initial_args ext S_df Y_df bal = inl e -> later_error e.
Proof.
  unfold initial_args, refused, rbind, raise, ok.
  destruct (get_indexer ext S_df);
    [intros H; injection H as <-; reflexivity |].
  destruct Y_df as [df |]; [| discriminate].
  destruct (from_Y_df _ _ _ _ _) as [e' | a] eqn:Ey; [| discriminate].
  intros H. injection H as <-. eauto using from_Y_df_later.
Qed.

(** An exception of [reconcile] is an exception of the validation, raised
    before anything was written, or one of the other exceptions. *)
Lemma reconcile_error
      (Y_hat_df S : frame) (tags : list (string * list string))
      (Y_df : option frame) (method : string) (ns seed : Z)
      (sort_df bal : bool) (st st' : state) (e : error) :
  reconcile ext Y_hat_df S tags Y_df method ns seed sort_df bal st
  = (st', inl e) ->
  (_prepare_fit ext (self_insample st) Y_hat_df S Y_df (level st) method
                sort_df = inl e
   /\ st' = st)
  \/ later_error e.
Proof.
  intros H. rewrite reconcile_unfold in H.
  destruct (_prepare_fit _ _ Y_hat_df S Y_df _ method _)
    as [e' | [[[Y_hat_df' S_df] Y_df'] names]].
  - injection H as <- <-. now left.
  - right.
    destruct (initial_args _ _ Y_df' bal) as [e' | ra] eqn:Ea.
    + injection H as <- <-. eauto using initial_args_later.
    + destruct (for_each _ _ _ _) as [s1 [e' | acc]] eqn:El;
        [| discriminate].
      injection H as <- <-. revert El. apply for_each_error.
      intros. eauto using reconcile_reconciler_later.
Qed.

Lemma prepare_fit_ok_method
      (self_insample : bool) (Y_hat_df S_df : frame) (Y_df : option frame)
      (level : option (list number)) (method : string) (sort_df : bool)
      (p : frame * frame * option frame * list string) :
  _prepare_fit ext self_insample Y_hat_df S_df Y_df level method sort_df
  = inr p ->
  Str.mem method ["bootstrap"; "normality"; "permbu"] = true.
Proof.
  intros H. apply prepare_fit_arranged in H.
  destruct H as [[w [_ H]] | [Yh1 [S1 [Yd1 [_ H]]]]]; [discriminate |].
  revert H. unfold _prepare_fit_checks.
  destruct (Str.mem method ["normality"; "bootstrap"; "permbu"]) eqn:E;
    [| discriminate].
  intros _. apply mem_In in E. apply mem_In. simpl in *. tauto.
Qed.

End Loops.

(* ================================================================== *)
(** * Properties of [reconcile] *)

(** A completed run with a level list: the list is sorted unless nothing
    was registered, and every pair [model/algorithm] is recorded. *)
Lemma reconcile_recorded
      (ext : externals)
      (Y_hat_df S : frame) (tags : list (string * list string))
      (Y_df : option frame) (method : string) (ns seed : Z) (sort_df bal : bool)
      (st st' : state) (out : out_frame) (lv : list number) :
  level st = Some lv ->
  reconcile ext Y_hat_df S tags Y_df method ns seed sort_df bal st
  = (st', inr out) ->
  level_progress lv st'
  /\ forall fn name_copy fn_name model,
      In (fn, name_copy) (combine (reconcilers st) (orig_reconcilers st)) ->
      _build_fn_name name_copy = inr fn_name ->
      In model (model_names st') ->
      pair_recorded lv ns (model ++ "/" ++ fn_name) (out_columns out) st'.
Proof.
  intros Hlevel Hrun.
  destruct (reconcile_ok ext _ _ _ _ _ _ _ _ _ _ _ _ Hrun)
    as [Y_hat_df' [S_df [Y_df' [names [ra [ra' [Hprep [Hloop _]]]]]]]].
  pose proof (prepare_fit_ok_method _ _ _ _ _ _ _ _ _ Hprep) as Hmethod.
  apply (reconcile_reconcilers_loop ext Y_hat_df' S_df Y_df' method ns
           seed bal _ lv names Hmethod) in Hloop.
  - destruct Hloop as [[Hnames Hprog] [Hrec _]].
    split; [assumption |]. rewrite Hnames. exact Hrec.
  - split; [reflexivity |]. left. split; [exact Hlevel | reflexivity].
Qed.

(** C4.  When [reconcile] completes and a level list was given, then for
    every reconciler and every model the pair [model/algorithm] has its
    interval columns registered and standing side by side in the output
    frame: the [-lo-] columns over the levels in descending order (the
    sorted list reversed), immediately followed by the [-hi-] columns over
    the levels in ascending order.  For the levels [[80, 95]], in any
    order, the columns are [-lo-95, -lo-80, -hi-80, -hi-95]. *)
Theorem interval_columns_order
        (ext : externals)
        (Y_hat_df S : frame) (tags : list (string * list string))
        (Y_df : option frame) (method : string) (ns seed : Z)
        (sort_df bal : bool)
        (st st' : state) (out : out_frame) (lv : list number)
        (Hlevel : level st = Some lv)
        (Hrun : reconcile ext Y_hat_df S tags Y_df method ns seed sort_df bal st
                = (st', inr out)) :
  ascending (list_sort lv)
  /\ Permutation lv (list_sort lv)
  /\ (forall fn name_copy fn_name model,
         In (fn, name_copy)
            (combine (reconcilers st) (orig_reconcilers st)) ->
         _build_fn_name name_copy = inr fn_name ->
         In model (model_names st') ->
         let rm := model ++ "/" ++ fn_name in
         let lo := map (fun l => rm ++ "-lo-" ++ format_number l)
                       (rev (list_sort lv)) in
         let hi := map (fun l => rm ++ "-hi-" ++ format_number l)
                       (list_sort lv) in
         dict_get rm (level_names st') = Some (lo ++ hi)%list
         /\ exists pre post,
             keys (out_columns out) = (pre ++ (lo ++ hi) ++ post)%list)
  /\ (forall rm,
         interval_names rm (list_sort [Int 80; Int 95])
         = [rm ++ "-lo-95"; rm ++ "-lo-80"; rm ++ "-hi-80"; rm ++ "-hi-95"]
         /\ interval_names rm (list_sort [Int 95; Int 80])
            = [rm ++ "-lo-95"; rm ++ "-lo-80"; rm ++ "-hi-80"; rm ++ "-hi-95"]).
Proof.
  split; [apply list_sort_ascending |].
  split; [apply list_sort_perm |].
  split; [| intros rm; split; reflexivity].
  intros fn name_copy fn_name model Hin Hname Hmodel.
  destruct (reconcile_recorded ext _ _ _ _ _ _ _ _ _ _ _ _ _ Hlevel Hrun)
    as [_ Hrec].
  destruct (Hrec fn name_copy fn_name model Hin Hname Hmodel) as [Hi _].
  exact Hi.
Qed.

(** C10.  When [reconcile] completes, a level list was given and some
    interval columns were produced, the list object passed as [level] holds
    afterwards the ascending permutation of what it held before. *)
Theorem level_sorted_in_place
        (ext : externals)
        (Y_hat_df S : frame) (tags : list (string * list string))
        (Y_df : option frame) (method : string) (ns seed : Z)
        (sort_df bal : bool)
        (st st' : state) (out : out_frame) (lv : list number)
        (Hlevel : level st = Some lv)
        (Hrun : reconcile ext Y_hat_df S tags Y_df method ns seed sort_df bal st
                = (st', inr out))
        (Hintervals : level_names st' <> []) :
  exists lv',
    level st' = Some lv' /\ ascending lv' /\ Permutation lv lv'
    /\ lv' = list_sort lv.
Proof.
  destruct (reconcile_recorded ext _ _ _ _ _ _ _ _ _ _ _ _ _ Hlevel Hrun)
    as [[[_ Hnil] | [Hsorted _]] _]; [contradiction |].
  exists (list_sort lv).
  repeat split; auto using list_sort_ascending, list_sort_perm.
Qed.

(** ** Runs that draw no sample *)

Lemma reconcile_model_no_samples
      (ext : externals)
      (Y_hat_df S_df : frame) (Y_df : option frame) (method : string)
      (ns seed : Z) (bal : bool) (start : Q) (fn : reconciler)
      (fn_name : string) (hf hl : bool) (model : string)
      (acc acc' : list (string * arg) * list (string * coldata))
      (st st' : state) :
  (level st = None \/ (0 <? ns)%Z = false) /\ no_samples (snd acc) st ->
  reconcile_model ext Y_hat_df S_df Y_df method ns seed bal start
                  fn fn_name hf hl model acc st
  = (st', inr acc') ->
  (level st' = None \/ (0 <? ns)%Z = false) /\ no_samples (snd acc') st'.
Proof.
  destruct acc as [ra cols], acc' as [ra' cols'].
  intros [Hcase [Hnames Hcols]] Hrun. simpl in Hcols.
  apply reconcile_model_ok in Hrun.
  destruct Hrun as [_ [_ [_ [_ [_ [_ Hrun]]]]]].
  assert (Hmean : forall k c d,
             In (c, d) (setitem (model ++ "/" ++ fn_name) (Mean k) cols) ->
             ~ is_sample_column d).
  { intros k c d Hin. apply In_setitem in Hin.
    destruct Hin as [-> | Hin]; [intros [? [? ?]]; discriminate | eauto]. }
  destruct (level st) as [l |] eqn:El.
  - destruct Hcase as [Hcase | Hns]; [discriminate |].
    destruct (Str.mem method ["bootstrap"; "normality"; "permbu"]).
    + destruct Hrun as [_ [_ [k Hrun]]]. rewrite Hns in Hrun.
      destruct Hrun as [Hs ->]. split; [now right |]. split; [congruence |].
      simpl. intros c d Hin. apply in_app_or in Hin.
      destruct Hin as [Hin | Hin]; [eauto |].
      apply In_array_columns in Hin. destruct Hin as [j ->].
      intros [? [? ?]]; discriminate.
    + destruct Hrun as [_ [_ [Hs [k ->]]]].
      split; [now right |]. split; [congruence | eauto].
  - destruct Hrun as [Hl [_ [Hs [k ->]]]].
    split; [now left |]. split; [congruence | eauto].
Qed.

Lemma reconcile_no_samples
      (ext : externals)
      (Y_hat_df S : frame) (tags : list (string * list string))
      (Y_df : option frame) (method : string) (ns seed : Z) (sort_df bal : bool)
      (st st' : state) (out : out_frame) :
  level st = None \/ (ns <= 0)%Z ->
  reconcile ext Y_hat_df S tags Y_df method ns seed sort_df bal st
  = (st', inr out) ->
  no_samples (out_columns out) st'.
Proof.
  intros Hcase Hrun.
  destruct (reconcile_ok ext _ _ _ _ _ _ _ _ _ _ _ _ Hrun)
    as [Y_hat_df' [S_df [Y_df' [names [ra [ra' [_ [Hloop _]]]]]]]].
  set (I := fun (acc : list (string * arg) * list (string * coldata))
                (s : state) =>
              (level s = None \/ (0 <? ns)%Z = false)
              /\ no_samples (snd acc) s).
  assert (Hinner : forall fn fn_name hf hl start l acc s acc' s',
             I acc s ->
             for_each l (reconcile_model ext Y_hat_df' S_df Y_df' method
                                         ns seed bal start fn fn_name hf hl)
                      acc s
             = (s', inr acc') ->
             I acc' s').
  { intros fn fn_name hf hl start l. apply for_each_invariant.
    intros model acc s acc' s' HI Hm.
    exact (reconcile_model_no_samples _ _ _ _ _ _ _ _ _ _ _ _ _ _ _ _ _ _
             HI Hm). }
  assert (Houter : I (ra', out_columns out) st').
  { revert Hloop. apply for_each_invariant.
    - intros [fn name_copy] [ra0 cols0] s a' s' HI Hbody.
      unfold reconcile_reconciler, bind, lift, get in Hbody.
      destruct (_build_fn_name name_copy) as [e | fn_name]; [discriminate |].
      cbv beta iota in Hbody. revert Hbody. now apply Hinner.
    - split.
      + destruct Hcase as [Hn | Hns]; [now left |].
        right. now apply Z.ltb_ge.
      + split; [reflexivity |]. simpl. intros c d Hin.
        apply in_map_iff in Hin. destruct Hin as [[c' x] [Heq _]].
        injection Heq as _ <-. intros [? [? ?]]; discriminate. }
  exact (proj2 Houter).
Qed.

(** C7, as amended.  When [reconcile] completes with a level list and a
    positive sample count, every pair [model/algorithm] has its sample
    columns [model/algorithm-sample-i], for [i] from [0] to
    [num_samples - 1] in this order, side by side in the output frame and
    registered.  With no level list, or with a sample count that is not
    positive, no sample is drawn: the registry of sample names is empty and
    no column of the output holds samples. *)
Theorem sample_columns
        (ext : externals)
        (Y_hat_df S : frame) (tags : list (string * list string))
        (Y_df : option frame) (method : string) (ns seed : Z)
        (sort_df bal : bool)
        (st st' : state) (out : out_frame)
        (Hrun : reconcile ext Y_hat_df S tags Y_df method ns seed sort_df bal st
                = (st', inr out)) :
  (forall lv, level st = Some lv -> (0 < ns)%Z ->
      forall fn name_copy fn_name model,
        In (fn, name_copy)
           (combine (reconcilers st) (orig_reconcilers st)) ->
        _build_fn_name name_copy = inr fn_name ->
        In model (model_names st') ->
        let rm := model ++ "/" ++ fn_name in
        let names := map (fun i => rm ++ "-sample-" ++ Str.of_Z i)
                         (range ns) in
        dict_get rm (sample_names st') = Some names
        /\ (exists pre post,
               keys (out_columns out) = (pre ++ names ++ post)%list)
        /\ forall i, (0 <= i < ns)%Z ->
                     In (rm ++ "-sample-" ++ Str.of_Z i)
                        (keys (out_columns out)))
  /\ (level st = None \/ (ns <= 0)%Z ->
      sample_names st' = []
      /\ forall c d, In (c, d) (out_columns out) -> ~ is_sample_column d).
Proof.
  split.
  - intros lv Hlevel Hns fn name_copy fn_name model Hin Hname Hmodel.
    destruct (reconcile_recorded ext _ _ _ _ _ _ _ _ _ _ _ _ _ Hlevel Hrun)
      as [_ Hrec].
    destruct (Hrec fn name_copy fn_name model Hin Hname Hmodel) as [_ Hs].
    destruct (Hs Hns) as [Hget [pre [post Hkeys]]].
    split; [exact Hget |]. split; [now exists pre, post |].
    intros i Hi. rewrite Hkeys. apply in_or_app. right.
    apply in_or_app. left. unfold sample_column_names.
    apply in_map_iff. exists i. split; [reflexivity | now apply range_In].
  - intros Hcase. exact (reconcile_no_samples _ _ _ _ _ _ _ _ _ _ _ _ _
                           Hcase Hrun).
Qed.



(* ================================================================== *)
(** * The properties on the examples *)

Lemma interval_columns_order_witness :
  level (__init__ [BottomUp] (Some [Int 95; Int 80]))
  = Some [Int 95; Int 80]
  /\ run_intervals = (state_intervals, inr frame_intervals)
  /\ dict_get "ETS/BottomUp" (level_names state_intervals)
     = Some ["ETS/BottomUp-lo-95"; "ETS/BottomUp-lo-80";
             "ETS/BottomUp-hi-80"; "ETS/BottomUp-hi-95"]
  /\ exists pre post,
      keys (out_columns frame_intervals)
      = (pre ++ ["ETS/BottomUp-lo-95"; "ETS/BottomUp-lo-80";
                 "ETS/BottomUp-hi-80"; "ETS/BottomUp-hi-95"] ++ post)%list.
Proof.
  assert (Hl : level (__init__ [BottomUp] (Some [Int 95; Int 80]))
               = Some [Int 95; Int 80]) by reflexivity.
  assert (Hr : run_intervals = (state_intervals, inr frame_intervals))
    by (vm_compute; reflexivity).
  split; [exact Hl |]. split; [exact Hr |].
  destruct (interval_columns_order
              example_externals Y_hat_ETS S_total_a_b
              tags_total_bottom None "normality" (-1) 0 true false
              _ _ _ _ Hl Hr) as [_ [_ [H _]]].
  apply (H BottomUp BottomUp "BottomUp" "ETS").
  - simpl. left. reflexivity.
  - reflexivity.
  - simpl. left. reflexivity.
Defined.

Lemma level_sorted_in_place_witness :
  level (__init__ [BottomUp] (Some [Int 95; Int 80]))
  = Some [Int 95; Int 80]
  /\ run_intervals = (state_intervals, inr frame_intervals)
  /\ level_names state_intervals <> []
  /\ exists lv',
      level state_intervals = Some lv' /\ ascending lv'
      /\ Permutation [Int 95; Int 80] lv'
      /\ lv' = list_sort [Int 95; Int 80].
Proof.
  assert (Hl : level (__init__ [BottomUp] (Some [Int 95; Int 80]))
               = Some [Int 95; Int 80]) by reflexivity.
  assert (Hr : run_intervals = (state_intervals, inr frame_intervals))
    by (vm_compute; reflexivity).
  assert (Hn : level_names state_intervals <> []) by discriminate.
  split; [exact Hl |]. split; [exact Hr |]. split; [exact Hn |].
  exact (level_sorted_in_place
           example_externals Y_hat_ETS S_total_a_b
           tags_total_bottom None "normality" (-1) 0 true false
           _ _ _ _ Hl Hr Hn).
Defined.

Lemma sample_columns_witness :
  run_samples = (state_samples, inr frame_samples)
  /\ dict_get "ETS/BottomUp" (sample_names state_samples)
     = Some ["ETS/BottomUp-sample-0"; "ETS/BottomUp-sample-1"]
  /\ In "ETS/BottomUp-sample-1" (keys (out_columns frame_samples)).
Proof.
  assert (Hr : run_samples = (state_samples, inr frame_samples))
    by (vm_compute; reflexivity).
  split; [exact Hr |].
  destruct (sample_columns
              example_externals Y_hat_ETS S_total_a_b
              tags_total_bottom None "normality" 2 0 true false
              _ _ _ Hr) as [H _].
  destruct (H [Int 95; Int 80] eq_refl eq_refl
              BottomUp BottomUp "BottomUp" "ETS"
              (or_introl eq_refl) eq_refl (or_introl eq_refl))
    as [Hget [_ Hin]].
  split; [exact Hget |].
  apply (Hin 1%Z). split; [intros Hc; discriminate Hc | reflexivity].
Defined.

(** C7, as stated, fails: two samples were asked for, no level list was
    given, the run completes and the frame has no sample column. *)
Lemma samples_need_a_level :
  run_samples_no_level
  = (state_samples_no_level, inr frame_samples_no_level)
  /\ keys (out_columns frame_samples_no_level)
     = ["ds"; "ETS"; "ETS-lo-80"; "ETS-hi-80"; "ETS/BottomUp"]
  /\ ~ In "ETS/BottomUp-sample-0" (keys (out_columns frame_samples_no_level))
  /\ sample_names state_samples_no_level = [].
Proof.
  split; [vm_compute; reflexivity |].
  split; [reflexivity |].
  split; [| reflexivity].
  simpl. intuition discriminate.
Qed.





(* ================================================================== *)
(** * [bootstrap_reconcile] *)

Lemma combine_fst_snd {A B} (l : list (A * B)) :
  combine (map fst l) (map snd l) = l.
Proof.
  induction l as [| [a b] l IH]; simpl; [reflexivity | now rewrite IH].
Qed.

Lemma keys_combine {A} (names : list string) (data : list A) :
  List.length names = List.length data -> keys (combine names data) = names.
Proof.
  revert data. induction names as [| n names IH]; intros [| d data] H;
    simpl in *; try discriminate; try reflexivity.
  f_equal. apply IH. now injection H.
Qed.

Lemma map_snd_combine {A} (names : list string) (data : list A) :
  List.length names = List.length data ->
  map snd (combine names data) = data.
Proof.
  revert data. induction names as [| n names IH]; intros [| d data] H;
    simpl in *; try discriminate; try reflexivity.
  f_equal. apply IH. now injection H.
Qed.

(** [df.columns = names] keeps the data of the columns in their place,
    whatever their labels were, and asks only for as many names as there
    are columns. *)
Lemma set_columns_ok (names : list string)
      (cols cols' : list (string * coldata)) :
  set_columns names cols = inr cols' ->
  List.length names = List.length cols
  /\ cols' = combine names (map snd cols)
  /\ keys cols' = names /\ map snd cols' = map snd cols.
Proof.
  unfold set_columns.
  destruct (Nat.eqb (List.length names) (List.length cols)) eqn:E;
    [| discriminate].
  apply Nat.eqb_eq in E. intros H. injection H as <-.
  assert (Hl : List.length names = List.length (map snd cols))
    by now rewrite length_map.
  repeat split; auto using keys_combine, map_snd_combine.
Qed.

Lemma set_columns_own_keys (cols : list (string * coldata)) :
  set_columns (keys cols) cols = inr cols.
Proof.
  unfold set_columns, keys. rewrite length_map, Nat.eqb_refl.
  unfold ok. now rewrite combine_fst_snd.
Qed.

Lemma dict_get_setitem (name : string) (d : coldata)
      (cols : list (string * coldata)) :
  dict_get name (setitem name d cols) = Some d.
Proof.
  unfold setitem. destruct (Str.mem name (keys cols)) eqn:E.
  - apply mem_In in E. induction cols as [| [c x] cols IH];
      [contradiction |].
    simpl. destruct (String.eqb c name) eqn:Ec.
    + apply String.eqb_eq in Ec. subst. simpl. now rewrite String.eqb_refl.
    + simpl. rewrite String.eqb_sym, Ec. apply IH.
      destruct E as [E | E]; [| assumption].
      simpl in E. subst. now rewrite String.eqb_refl in Ec.
  - apply mem_not_In in E. induction cols as [| [c x] cols IH]; simpl.
    + now rewrite String.eqb_refl.
    + destruct (String.eqb name c) eqn:Ec.
      * apply String.eqb_eq in Ec. subst. exfalso. apply E. now left.
      * apply IH. intros H. apply E. now right.
Qed.

Lemma setitem_absent (name : string) (d : coldata)
      (cols : list (string * coldata)) :
  ~ In name (keys cols) -> setitem name d cols = (cols ++ [(name, d)])%list.
Proof.
  intros H. apply mem_not_In in H. unfold setitem. now rewrite H.
Qed.

Lemma runs_length (run : Z -> M out_frame) (seeds : list Z)
      (st st' : state) (fs : list out_frame) :
  runs run seeds st fs st' -> List.length fs = List.length seeds.
Proof. induction 1; simpl; congruence. Qed.

Lemma range_positive (n : Z) :
  (0 < n)%Z ->
  exists rest, range n = 0%Z :: rest /\ Forall (fun s => s <> 0%Z) rest.
Proof.
  intros Hn. unfold range.
  destruct (Z.to_nat n) as [| k] eqn:E; [lia |].
  simpl. eexists. split; [reflexivity |].
  apply Forall_forall. intros s Hs. apply in_map_iff in Hs.
  destruct Hs as [i [<- Hi]]. apply in_seq in Hi. lia.
Qed.

Lemma range_nonpositive (n : Z) : (n <= 0)%Z -> range n = [].
Proof.
  intros Hn. unfold range. destruct (Z.to_nat n) eqn:E; [reflexivity | lia].
Qed.

Lemma range_length (n : Z) : List.length (range n) = Z.to_nat n.
Proof. unfold range. now rewrite length_map, length_seq. Qed.

Lemma flat_map_seeded_frame (names : list string) (seeds : list Z)
      (fs : list out_frame) :
  List.length fs = List.length seeds ->
  flat_map out_index (map (seeded_frame names) (combine seeds fs))
  = flat_map out_index fs.
Proof.
  revert fs. induction seeds as [| s seeds IH]; intros [| f fs] H;
    simpl in *; try discriminate; try reflexivity.
  f_equal. apply IH. now injection H.
Qed.

Lemma blocks_seeded_frame (names : list string)
      (sfs : list (Z * out_frame)) :
  Forall (fun sf => List.length names = List.length (seeded_columns sf))
         sfs ->
  map (fun f => map snd (out_columns f)) (map (seeded_frame names) sfs)
  = map (fun sf => map snd (seeded_columns sf)) sfs.
Proof.
  induction 1 as [| sf sfs Hlen Hall IH]; simpl; [reflexivity |].
  rewrite IH. f_equal. apply map_snd_combine. now rewrite length_map.
Qed.

Section Bootstrap.

Variable ext : externals.
Variables (Y_hat_df S_df : frame) (tags : list (string * list string)).
Variables (Y_df : option frame) (method : string) (ns : Z).

Let run (seed : Z) : M out_frame :=
  reconcile ext Y_hat_df S_df tags Y_df method ns seed false false.

(** One turn of the loop over the seeds. *)
Lemma bootstrap_seed_ok (seed : Z) (fc fc' : option (list string))
      (lst lst' : list out_frame) (st st' : state) :
  bootstrap_seed ext Y_hat_df S_df tags Y_df method ns seed (fc, lst) st
  = (st', inr (fc', lst')) ->
  exists f names,
    run seed st = (st', inr f)
    /\ fc' = Some names
    /\ (if Z.eqb seed 0
        then names = keys (seeded_columns (seed, f))
        else fc = Some names)
    /\ List.length names = List.length (seeded_columns (seed, f))
    /\ lst' = (lst ++ [seeded_frame names (seed, f)])%list.
Proof.
  unfold bootstrap_seed, bind, lift, ret, throw. intros H.
  fold (run seed) in H.
  destruct (run seed st) as [s1 [e | f]] eqn:Er; [discriminate |].
  cbv beta iota in H. exists f.
  unfold seeded_frame, seeded_columns. cbn [fst snd].
  destruct (Z.eqb seed 0) eqn:Es.
  - rewrite set_columns_own_keys in H. injection H as <- <- <-.
    exists (keys (setitem "seed" (Scalar seed) (out_columns f))).
    split; [reflexivity |]. split; [reflexivity |].
    split; [reflexivity |]. split.
    + unfold keys. now rewrite length_map.
    + unfold keys. now rewrite combine_fst_snd.
  - destruct fc as [names |]; [| discriminate].
    destruct (set_columns names _) as [e | cols] eqn:Ec; [discriminate |].
    injection H as <- <- <-.
    apply set_columns_ok in Ec. destruct Ec as [Hlen [-> _]].
    exists names. repeat split; auto.
Qed.

(** Conversely, a turn goes through as soon as the run does and returns as
    many columns as there are labels: the labels of the run itself are not
    looked at. *)
Lemma bootstrap_seed_run (seed : Z) (fc : option (list string))
      (names : list string) (lst : list out_frame) (st st' : state)
      (f : out_frame) :
  run seed st = (st', inr f) ->
  (if Z.eqb seed 0
   then names = keys (seeded_columns (seed, f))
   else fc = Some names) ->
  List.length names = List.length (seeded_columns (seed, f)) ->
  bootstrap_seed ext Y_hat_df S_df tags Y_df method ns seed (fc, lst) st
  = (st', inr (Some names, (lst ++ [seeded_frame names (seed, f)])%list)).
Proof.
  intros Hrun Hfc Hlen.
  unfold bootstrap_seed, bind, lift, ret, throw. fold (run seed).
  rewrite Hrun. cbv beta iota.
  unfold seeded_frame, seeded_columns in *. cbn [fst snd] in *.
  assert (Hset : set_columns names
                             (setitem "seed" (Scalar seed) (out_columns f))
                 = inr (combine names
                                (map snd (setitem "seed" (Scalar seed)
                                                  (out_columns f))))).
  { unfold set_columns. apply Nat.eqb_eq in Hlen. now rewrite Hlen. }
  destruct (Z.eqb seed 0).
  - subst names. rewrite Hset. reflexivity.
  - subst fc. rewrite Hset. reflexivity.
Qed.

(** The turns after the first one. *)
Lemma bootstrap_later_seeds (names : list string) (seeds : list Z) :
  Forall (fun s => s <> 0%Z) seeds ->
  forall lst st fc' lst' st',
    for_each seeds
             (bootstrap_seed ext Y_hat_df S_df tags Y_df method ns)
             (Some names, lst) st
    = (st', inr (fc', lst')) ->
    exists fs,
      runs run seeds st fs st'
      /\ lst' = (lst ++ map (seeded_frame names) (combine seeds fs))%list
      /\ Forall (fun sf =>
                   List.length names = List.length (seeded_columns sf))
                (combine seeds fs).
Proof.
  induction 1 as [| seed seeds Hseed Hrest IH]; intros lst st fc' lst' st' H.
  - simpl in H. unfold ret in H. injection H as <- <- <-.
    exists []. repeat split; [constructor | now rewrite app_nil_r |
                                constructor].
  - cbn [for_each] in H. unfold bind in H.
    destruct (bootstrap_seed ext Y_hat_df S_df tags Y_df method ns seed
                             (Some names, lst) st)
      as [s1 [e | [fc1 lst1]]] eqn:E1; [discriminate |].
    apply bootstrap_seed_ok in E1.
    destruct E1 as [f [names1 [Hrun [-> [Hfc [Hlen ->]]]]]].
    apply Z.eqb_neq in Hseed. rewrite Hseed in Hfc. injection Hfc as <-.
    apply IH in H. destruct H as [fs [Hruns [-> Hall]]].
    exists (f :: fs). repeat split.
    + econstructor; eassumption.
    + simpl. now rewrite <- app_assoc.
    + simpl. constructor; assumption.
Qed.

Lemma bootstrap_later_runs (names : list string) (seeds : list Z) :
  Forall (fun s => s <> 0%Z) seeds ->
  forall lst st fs st',
    runs run seeds st fs st' ->
    Forall (fun sf => List.length names = List.length (seeded_columns sf))
           (combine seeds fs) ->
    for_each seeds
             (bootstrap_seed ext Y_hat_df S_df tags Y_df method ns)
             (Some names, lst) st
    = (st', inr (Some names,
                 (lst ++ map (seeded_frame names) (combine seeds fs))%list)).
Proof.
  induction 1 as [| seed seeds Hseed Hrest IH];
    intros lst st fs st' Hruns Hall.
  - inversion Hruns; subst. simpl. unfold ret. now rewrite app_nil_r.
  - inversion Hruns as [| ? ? ? st1 ? f fs' Hrun Hruns']; subst.
    simpl in Hall. inversion Hall as [| ? ? Hlen Hall']; subst.
    cbn [for_each]. unfold bind.
    rewrite (bootstrap_seed_run seed (Some names) names lst st st1 f Hrun).
    + rewrite (IH _ _ _ _ Hruns' Hall'). simpl. now rewrite <- app_assoc.
    + apply Z.eqb_neq in Hseed. now rewrite Hseed.
    + exact Hlen.
Qed.

End Bootstrap.

(** [bootstrap_reconcile] returns a frame exactly when the validation
    passes (it re-sorts the frames under [sort_df]) and [reconcile]
    completes once for each seed of [range num_seeds] = 0, 1, ...,
    num_seeds - 1, in this order, on the frames the validation returned and
    without re-sorting them again, each run starting in the state the
    previous one left (there is at least one seed), and every run gives as
    many columns as the first one.  The
    frame returned then carries the labels of the first run with its seed
    column; the data of each run stay in the positions their run gave
    them, whatever labels that run gave them (nothing compares the labels
    or their order with those of the first run; only their number
    matters, through the assignment of the labels); the rows of the runs
    follow one another in the order of the seeds.  In the frame of each
    run the column [seed] holds the seed of the run, and it is the last
    column when the run returned no column of that name. *)
Theorem bootstrap_runs_once_per_seed
        (ext : externals) (Y_hat_df S_df : frame)
        (tags : list (string * list string)) (Y_df : option frame)
        (method : string) (ns num_seeds : Z) (sort_df : bool)
        (st st' : state)
        (out : stacked_frame) :
  (bootstrap_reconcile ext Y_hat_df S_df tags Y_df method ns num_seeds sort_df
                       st
   = (st', inr out)
   <-> exists Y_hat_df' S_df' Y_df' names first rest,
       _prepare_fit ext (self_insample st) Y_hat_df S_df Y_df None method
                    sort_df
       = inr (Y_hat_df', S_df', Y_df', names)
       /\ runs (fun seed => reconcile ext Y_hat_df' S_df' tags Y_df'
                                      method ns seed false false)
               (range num_seeds) (set_model_names names st)
               (first :: rest) st'
       /\ List.length (first :: rest) = Z.to_nat num_seeds
       /\ Forall (fun sf => List.length (seeded_columns sf)
                            = List.length (seeded_columns (0%Z, first)))
                 (combine (range num_seeds) (first :: rest))
       /\ out = stack_seeds (range num_seeds) first rest)
  /\ (forall (seed : Z) (f : out_frame),
         dict_get "seed" (seeded_columns (seed, f)) = Some (Scalar seed)
         /\ (~ In "seed" (keys (out_columns f)) ->
             seeded_columns (seed, f)
             = (out_columns f ++ [("seed", Scalar seed)])%list)).
Proof.
  split; [| intros seed f; split;
            [apply dict_get_setitem | apply setitem_absent]].
  unfold bootstrap_reconcile, bind, get, lift, modify.
  destruct (_prepare_fit ext (self_insample st) Y_hat_df S_df Y_df None method
                    sort_df)
    as [e | [[[Y_hat_df' S_df'] Y_df'] names]] eqn:Ep.
  { split; [discriminate |].
    intros (? & ? & ? & ? & ? & ? & H & _). discriminate H. }
  destruct (Z_lt_le_dec 0 num_seeds) as [Hn | Hn].
  2:{ rewrite (range_nonpositive _ Hn). simpl. split; [discriminate |].
      intros (? & ? & ? & ? & ? & ? & _ & H & _). inversion H. }
  destruct (range_positive _ Hn) as [seeds [Er Hseeds]]. rewrite Er.
  cbn [for_each]. unfold bind. split.
  - intros H.
    destruct (bootstrap_seed ext Y_hat_df' S_df' tags Y_df' method ns 0
                             (None, []) (set_model_names names st))
      as [s1 [e | [fc1 lst1]]] eqn:E1; [discriminate |].
    apply bootstrap_seed_ok in E1.
    destruct E1 as [first [names1 [Hrun [-> [Hfc [Hlen ->]]]]]].
    simpl in Hfc.
    destruct (for_each seeds _ _ s1) as [s2 [e | [fc2 lst2]]] eqn:E2;
      [discriminate |].
    apply bootstrap_later_seeds in E2; [| exact Hseeds].
    destruct E2 as [rest [Hruns [-> Hall]]].
    pose proof (runs_length _ _ _ _ _ Hruns) as Hl.
    simpl in H. injection H as <- <-.
    exists Y_hat_df', S_df', Y_df', names, first, rest.
    split; [reflexivity |]. split; [econstructor; eassumption |].
    split; [simpl; rewrite Hl, <- range_length, Er; reflexivity |].
    split.
    + simpl. constructor; [reflexivity |].
      eapply Forall_impl; [| exact Hall]. intros sf Hsf.
      rewrite <- Hsf. exact Hlen.
    + unfold stack_seeds. simpl. f_equal.
      * rewrite keys_combine; [exact Hfc | now rewrite length_map].
      * f_equal. now apply flat_map_seeded_frame.
      * f_equal.
        -- apply map_snd_combine. now rewrite length_map.
        -- apply blocks_seeded_frame. exact Hall.
  - intros (Yh & S' & Yd & names' & first & rest & Hp & Hruns & _ & Hall & ->).
    injection Hp as <- <- <- <-.
    inversion Hruns as [| ? ? ? st1 ? ? ? Hrun Hruns']; subst.
    simpl in Hall. inversion Hall as [| ? ? _ Hall']; subst.
    rewrite (bootstrap_seed_run ext Y_hat_df' S_df' tags Y_df' method ns
               0 None (keys (seeded_columns (0%Z, first))) [] _ _ _ Hrun
               eq_refl);
      [| unfold keys; now rewrite length_map].
    rewrite (bootstrap_later_runs ext Y_hat_df' S_df' tags Y_df' method
               ns _ _ Hseeds _ _ _ _ Hruns').
    + pose proof (runs_length _ _ _ _ _ Hruns') as Hl.
      simpl. unfold ok, stack_seeds. do 3 f_equal.
      * apply keys_combine. unfold keys. now rewrite !length_map.
      * simpl. f_equal. now apply flat_map_seeded_frame.
      * simpl. f_equal.
        -- apply map_snd_combine. unfold keys. now rewrite !length_map.
        -- apply blocks_seeded_frame.
           eapply Forall_impl; [| exact Hall']. intros sf Hsf.
           unfold keys. now rewrite length_map.
    + eapply Forall_impl; [| exact Hall']. intros sf Hsf.
      unfold keys. now rewrite length_map.
Qed.

(** The statement on the run with two seeds. *)
Lemma bootstrap_runs_once_per_seed_witness :
  bootstrap_reconcile example_externals Y_hat_ETS S_total_a_b
                      tags_total_bottom None "normality" (-1) 2 true
                      (__init__ [BottomUp] (Some [Int 80]))
  = (state_bootstrap, inr frame_bootstrap)
  /\ exists Y_hat_df' S_df' Y_df' names first rest,
      _prepare_fit example_externals false Y_hat_ETS S_total_a_b None None
                   "normality" true
      = inr (Y_hat_df', S_df', Y_df', names)
      /\ runs (fun seed => reconcile example_externals Y_hat_df'
                                     S_df' tags_total_bottom Y_df'
                                     "normality" (-1) seed false false)
              [0%Z; 1%Z]
              (set_model_names names (__init__ [BottomUp] (Some [Int 80])))
              (first :: rest) state_bootstrap
      /\ List.length (first :: rest) = 2
      /\ Forall (fun sf => List.length (seeded_columns sf)
                           = List.length (seeded_columns (0%Z, first)))
                (combine [0%Z; 1%Z] (first :: rest))
      /\ frame_bootstrap = stack_seeds [0%Z; 1%Z] first rest.
Proof.
  assert (Hr : bootstrap_reconcile
                 example_externals Y_hat_ETS S_total_a_b
                 tags_total_bottom None "normality" (-1) 2 true
                 (__init__ [BottomUp] (Some [Int 80]))
               = (state_bootstrap, inr frame_bootstrap))
    by (vm_compute; reflexivity).
  split; [exact Hr |].
  exact (proj1 (proj1 (bootstrap_runs_once_per_seed
                         example_externals Y_hat_ETS S_total_a_b
                         tags_total_bottom None "normality" (-1) 2 true
                         (__init__ [BottomUp] (Some [Int 80]))
                         state_bootstrap frame_bootstrap)) Hr).
Defined.

(* ================================================================== *)
(** * Further properties: [bootstrap_reconcile] without a seed *)

(** When the validation passes and [num_seeds] is zero or negative,
    [bootstrap_reconcile] raises the exception of [pd.concat] on an empty
    list: no reconciler was called and nothing but [self.model_names] was
    written. *)
Theorem bootstrap_no_seed_raises
        (ext : externals) (Y_hat_df S_df : frame)
        (tags : list (string * list string)) (Y_df : option frame)
        (method : string) (ns num_seeds : Z) (sort_df : bool)
        (st : state)
        (Y_hat_df' S_df' : frame) (Y_df' : option frame)
        (names : list string) :
  _prepare_fit ext (self_insample st) Y_hat_df S_df Y_df None method
                    sort_df
  = inr (Y_hat_df', S_df', Y_df', names) ->
  (num_seeds <= 0)%Z ->
  bootstrap_reconcile ext Y_hat_df S_df tags Y_df method ns num_seeds sort_df
                       st
  = (set_model_names names st, inl NoObjectsToConcatenate).
Proof.
  intros Hp Hn. unfold bootstrap_reconcile, bind, get, lift, modify.
  rewrite Hp. cbv beta iota. rewrite (range_nonpositive _ Hn). reflexivity.
Qed.

(* ================================================================== *)
(** * Further properties: the exceptions of [_build_fn_name] *)

(** [_build_fn_name] raises for a [MinTrace] object only, and then a
    [KeyError]: for [method] when [__dict__] has no such entry, for
    [mint_shr_ridge] when the method is [mint_shrink] and [__dict__] has
    no ridge.  Every other object gets a name. *)
Theorem build_fn_name_raises (fn : reconciler) (e : error) :
  _build_fn_name fn = inl e
  <-> type_name fn = "MinTrace"
      /\ ((dict_get "method" (attributes fn) = None
           /\ e = KeyError "method")
          \/ (exists m, dict_get "method" (attributes fn) = Some m
                        /\ eq_str m "mint_shrink" = true
                        /\ dict_get "mint_shr_ridge" (attributes fn) = None
                        /\ e = KeyError "mint_shr_ridge")).
Proof.
  unfold _build_fn_name, args_to_remove, dict_item, rbind, raise, ok.
  cbv zeta.
  destruct (String.eqb (type_name fn) "MinTrace") eqn:Et.
  - apply String.eqb_eq in Et.
    destruct (dict_get "method" (attributes fn)) as [m |] eqn:Em.
    + destruct (eq_str m "mint_shrink") eqn:Es.
      * destruct (dict_get "mint_shr_ridge" (attributes fn)) as [r |] eqn:Er.
        -- split.
           ++ destruct (eq_float r _); destruct (map token _); discriminate.
           ++ intros [_ [[H _] | [m' [_ [_ [H _]]]]]]; discriminate.
        -- split.
           ++ intros H. injection H as <-. split; [assumption |]. right.
              exists m. repeat split; assumption.
           ++ intros [_ [[H _] | [m' [_ [_ [_ ->]]]]]];
                [discriminate | reflexivity].
      * split.
        -- destruct (map token _); discriminate.
        -- intros [_ [[H _] | [m' [H [Hs _]]]]]; [discriminate |].
           injection H as <-. congruence.
    + split.
      * intros H. injection H as <-. split; [assumption |]. now left.
      * intros [_ [[_ ->] | [m' [H _]]]]; [reflexivity | discriminate].
  - apply String.eqb_neq in Et. split.
    + destruct (map token _); discriminate.
    + intros [H _]. contradiction.
Qed.

(* ================================================================== *)
(** * Further properties: what a validated input is *)

Lemma checks_ok
      (ins : bool) (Y_hat_df S_df : frame) (Y_df : option frame)
      (level : option (list number)) (method : string)
      (Y_hat_df' S_df' : frame) (Y_df' : option frame)
      (names : list string) :
  _prepare_fit_checks ins Y_hat_df S_df Y_df level method
  = inr (Y_hat_df', S_df', Y_df', names) ->
  exists cols,
    drop_columns (if Str.mem "y" (column_names Y_hat_df)
                  then ["ds"; "y"] else ["ds"]) Y_hat_df = inr cols
    /\ forallb numeric_column (select cols Y_hat_df) = true
    /\ existsb has_null (select cols Y_hat_df) = false
    /\ names = filter (fun name =>
                         negb (Str.mem name (filter interval_like cols))) cols
    /\ index_difference (index S_df) (unique (index Y_hat_df)) = 0
    /\ index_difference (index Y_hat_df) (unique (index S_df)) = 0
    /\ (forall df, Y_df = Some df ->
                   index_difference (index df) (unique (index Y_hat_df)) = 0
                   /\ index_difference (index Y_hat_df) (unique (index df))
                      = 0)
    /\ loc (unique (index Y_hat_df)) S_df = inr S_df'
    /\ Y_hat_df' = Y_hat_df /\ Y_df' = Y_df.
Proof.
  intros H. unfold _prepare_fit_checks, rbind, raise, ok in H.
  destruct (negb (Str.mem method _)); [discriminate |].
  destruct (_ && _); [discriminate |].
  destruct (match level with Some _ => _ | None => _ end); [discriminate |].
  destruct (drop_columns _ Y_hat_df) as [e | cols] eqn:Ed; [discriminate |].
  destruct (forallb numeric_column _) eqn:En; [| discriminate].
  destruct (existsb has_null _) eqn:Eh; [discriminate |].
  cbv beta iota zeta in H. simpl negb in H. cbv iota in H.
  destruct (_ && _); [discriminate |].
  destruct (Nat.ltb 0 (index_difference (index S_df) _)
            || Nat.ltb 0 (index_difference (index Y_hat_df) _)) eqn:Es;
    [discriminate |].
  apply orb_false_iff in Es. destruct Es as [Es1 Es2].
  apply Nat.ltb_ge in Es1, Es2.
  exists cols. split; [reflexivity |]. split; [assumption |].
  split; [assumption |].
  destruct Y_df as [df |].
  - destruct (Nat.ltb 0 (index_difference (index df) _)
              || Nat.ltb 0 (index_difference (index Y_hat_df) _)) eqn:Ey;
      [discriminate |].
    apply orb_false_iff in Ey. destruct Ey as [Ey1 Ey2].
    apply Nat.ltb_ge in Ey1, Ey2.
    destruct (loc _ S_df) as [e | S1] eqn:El; [discriminate |].
    injection H as <- <- <- <-.
    split; [reflexivity |]. split; [lia |]. split; [lia |].
    split; [intros df' Hdf; injection Hdf as <-; lia |].
    repeat split; reflexivity.
  - destruct (loc _ S_df) as [e | S1] eqn:El; [discriminate |].
    injection H as <- <- <- <-.
    split; [reflexivity |]. split; [lia |]. split; [lia |].
    split; [discriminate |]. repeat split; reflexivity.
Qed.

Lemma In_unique_from (x : string) (seen l : list string) :
  In x (unique_from seen l) <-> In x l /\ ~ In x seen.
Proof.
  revert seen. induction l as [| y l IH]; intros seen; simpl.
  - tauto.
  - destruct (Str.mem y seen) eqn:E.
    + apply mem_In in E. rewrite IH. split.
      * intros [H1 H2]. tauto.
      * intros [[-> | H1] H2]; [contradiction | tauto].
    + apply mem_not_In in E. simpl. rewrite IH. simpl. split.
      * intros [-> | [H1 H2]]; [tauto |]. split; [tauto |]. tauto.
      * intros [[-> | H1] H2]; [now left |].
        destruct (string_dec y x) as [-> | Hn]; [now left |]. right.
        split; [assumption |]. intros [H | H]; [congruence | contradiction].
Qed.

Lemma In_unique (x : string) (l : list string) : In x (unique l) <-> In x l.
Proof. unfold unique. rewrite In_unique_from. simpl. tauto. Qed.

Lemma NoDup_unique_from (seen l : list string) : NoDup (unique_from seen l).
Proof.
  revert seen. induction l as [| y l IH]; intros seen; simpl.
  - constructor.
  - destruct (Str.mem y seen); [apply IH |].
    constructor; [| apply IH].
    rewrite In_unique_from. simpl. tauto.
Qed.

Lemma NoDup_unique (l : list string) : NoDup (unique l).
Proof. apply NoDup_unique_from. Qed.

Lemma index_difference_0 (a b : list string) :
  index_difference a b = 0 <-> forall x, In x a -> In x b.
Proof.
  unfold index_difference. split.
  - intros H x Hx. apply length_zero_iff_nil in H.
    destruct (Str.mem x b) eqn:E; [now apply mem_In in E |].
    assert (Hin : In x (unique (filter (fun x => negb (Str.mem x b)) a))).
    { rewrite In_unique, filter_In. split; [assumption |]. now rewrite E. }
    rewrite H in Hin. contradiction.
  - intros H. apply length_zero_iff_nil.
    destruct (unique _) as [| x l] eqn:E; [reflexivity |].
    assert (Hin : In x (unique (filter (fun x => negb (Str.mem x b)) a)))
      by (rewrite E; now left).
    rewrite In_unique, filter_In in Hin. destruct Hin as [Hx Hm].
    apply H in Hx. apply mem_In in Hx. rewrite Hx in Hm. discriminate.
Qed.

Lemma drop_columns_ok (labels : list string) (df : frame)
      (cols : list string) :
  drop_columns labels df = inr cols ->
  cols = filter (fun c => negb (Str.mem c labels)) (column_names df)
  /\ forall l, In l labels -> In l (column_names df).
Proof.
  unfold drop_columns.
  destruct (filter _ labels) as [| m ms] eqn:E; [| discriminate].
  intros H. injection H as <-. split; [reflexivity |].
  intros l Hl. destruct (Str.mem l (column_names df)) eqn:Em;
    [now apply mem_In in Em |].
  assert (Hin : In l (filter (fun c => negb (Str.mem c (column_names df)))
                             labels)).
  { apply filter_In. split; [assumption |]. now rewrite Em. }
  rewrite E in Hin. contradiction.
Qed.

Lemma filter_filter {A} (f g : A -> bool) (l : list A) :
  filter f (filter g l) = filter (fun x => g x && f x) l.
Proof.
  induction l as [| x l IH]; simpl; [reflexivity |].
  destruct (g x); simpl; [destruct (f x) |]; now rewrite IH.
Qed.

Lemma mem_filter (f : string -> bool) (x : string) (l : list string) :
  In x l -> Str.mem x (filter f l) = f x.
Proof.
  intros Hx. destruct (f x) eqn:E.
  - apply mem_In. apply filter_In. now split.
  - apply mem_not_In. intros H. apply filter_In in H. destruct H as [_ H].
    congruence.
Qed.

(** The names of the models, when the checks pass. *)
Lemma checks_model_names
      (ins : bool) (Y_hat_df S_df : frame) (Y_df : option frame)
      (level : option (list number)) (method : string)
      (Y_hat_df' S_df' : frame) (Y_df' : option frame)
      (names : list string) :
  _prepare_fit_checks ins Y_hat_df S_df Y_df level method
  = inr (Y_hat_df', S_df', Y_df', names) ->
  In "ds" (column_names Y_hat_df)
  /\ names = filter is_model_column (column_names Y_hat_df).
Proof.
  intros H. apply checks_ok in H.
  destruct H as [cols [Hd [_ [_ [-> _]]]]].
  apply drop_columns_ok in Hd. destruct Hd as [-> Hl]. split.
  - apply Hl. destruct (Str.mem "y" _); now left.
  - rewrite (filter_ext_in
               (fun name => negb (Str.mem name (filter interval_like _)))
               (fun name => negb (interval_like name))).
    2:{ intros c Hc. now rewrite mem_filter. }
    rewrite filter_filter. apply filter_ext_in. intros c Hc.
    unfold is_model_column.
    destruct (Str.mem "y" (column_names Y_hat_df)) eqn:Ey; simpl.
    + rewrite orb_false_r, negb_orb. reflexivity.
    + rewrite orb_false_r.
      assert (Hy : String.eqb c "y" = false).
      { apply String.eqb_neq. intros ->. apply mem_not_In in Ey.
        contradiction. }
      rewrite Hy. simpl. now rewrite andb_true_r.
Qed.

(** The series, when the checks pass. *)
Lemma checks_same_series
      (ins : bool) (Y_hat_df S_df : frame) (Y_df : option frame)
      (level : option (list number)) (method : string)
      (Y_hat_df' S_df' : frame) (Y_df' : option frame)
      (names : list string) :
  _prepare_fit_checks ins Y_hat_df S_df Y_df level method
  = inr (Y_hat_df', S_df', Y_df', names) ->
  (forall u, In u (index Y_hat_df) <-> In u (index S_df))
  /\ (forall df, Y_df = Some df ->
                 forall u, In u (index Y_hat_df) <-> In u (index df)).
Proof.
  intros H. apply checks_ok in H.
  destruct H as [cols [_ [_ [_ [_ [HS [HY [Hdf _]]]]]]]].
  rewrite index_difference_0 in HS, HY. split.
  - intros u. split; intros Hu.
    + rewrite <- In_unique. now apply HY.
    + rewrite <- In_unique. now apply HS.
  - intros df Edf u. destruct (Hdf df Edf) as [H1 H2].
    rewrite index_difference_0 in H1, H2. split; intros Hu.
    + rewrite <- In_unique. now apply H2.
    + rewrite <- In_unique. now apply H1.
Qed.

Lemma loc_ok_when_known (labels : list string) (df : frame) :
  (forall u, In u labels -> In u (index df)) ->
  exists df', loc labels df = inr df'.
Proof.
  intros H. unfold loc.
  destruct (filter _ labels) as [| m ms] eqn:E; [eexists; reflexivity |].
  assert (Hin : In m (filter (fun u => negb (Str.mem u (index df))) labels))
    by (rewrite E; now left).
  apply filter_In in Hin. destruct Hin as [Hm Hn].
  apply H in Hm. apply mem_In in Hm. rewrite Hm in Hn. discriminate.
Qed.

(** What lines 126-179 raise. *)
Lemma checks_errors
      (ins : bool) (Y_hat_df S_df : frame) (Y_df : option frame)
      (level : option (list number)) (method : string) (e : error) :
  _prepare_fit_checks ins Y_hat_df S_df Y_df level method = inl e ->
  validation_error e = true
  \/ (e = KeyError "ds" /\ ~ In "ds" (column_names Y_hat_df)).
Proof.
  unfold _prepare_fit_checks, rbind, raise, ok. intros H.
  destruct (negb (Str.mem method _));
    [injection H as <-; now left |].
  destruct (_ && _); [injection H as <-; now left |].
  destruct (match level with Some _ => _ | None => _ end);
    [injection H as <-; now left |].
  destruct (drop_columns _ Y_hat_df) as [e' | cols] eqn:Ed.
  { injection H as <-. right. unfold drop_columns in Ed.
    destruct (filter _ _) as [| m ms] eqn:Ef; [discriminate |].
    injection Ed as <-.
    assert (Hin : In m (m :: ms)) by now left.
    rewrite <- Ef in Hin. apply filter_In in Hin. destruct Hin as [Hm Hn].
    apply negb_true_iff in Hn. apply mem_not_In in Hn.
    destruct (Str.mem "y" (column_names Y_hat_df)) eqn:Ey.
    - apply mem_In in Ey.
      destruct Hm as [<- | [<- | []]]; [now split | contradiction].
    - destruct Hm as [<- | []]. now split. }
  destruct (negb (forallb numeric_column _));
    [injection H as <-; now left |].
  destruct (existsb has_null _); [injection H as <-; now left |].
  cbv beta iota zeta in H.
  destruct (_ && _); [injection H as <-; now left |].
  destruct (Nat.ltb 0 (index_difference (index S_df) _)
            || Nat.ltb 0 (index_difference (index Y_hat_df) _)) eqn:Es;
    [injection H as <-; now left |].
  apply orb_false_iff in Es. destruct Es as [_ Es].
  apply Nat.ltb_ge in Es.
  assert (Hloc : exists df', loc (unique (index Y_hat_df)) S_df = inr df').
  { apply loc_ok_when_known. intros u Hu. rewrite In_unique in Hu.
    assert (H0 : index_difference (index Y_hat_df) (unique (index S_df)) = 0)
      by lia.
    rewrite index_difference_0 in H0. rewrite <- In_unique. now apply H0. }
  destruct Hloc as [df' Hloc]. rewrite Hloc in H.
  destruct Y_df as [df |]; [| discriminate].
  destruct (_ || _); [injection H as <-; now left | discriminate].
Qed.

Lemma positions_nth (x : string) (l : list string) (pre : list string) :
  map (fun i => nth i (pre ++ l)%list "") (positions x l (List.length pre))
  = repeat x (occurrences x l).
Proof.
  revert pre. induction l as [| y l IH]; intros pre; simpl; [reflexivity |].
  assert (Hpre : (pre ++ y :: l = (pre ++ [y]) ++ l)%list)
    by now rewrite <- app_assoc.
  assert (Hlen : S (List.length pre) = List.length (pre ++ [y])%list)
    by (rewrite length_app; simpl; lia).
  destruct (String.eqb x y) eqn:E.
  - apply String.eqb_eq in E. subst y. simpl. f_equal.
    + rewrite app_nth2, Nat.sub_diag; [reflexivity | lia].
    + rewrite Hpre, Hlen. apply IH.
  - rewrite Hpre, Hlen. apply IH.
Qed.

Lemma occurrences_NoDup (x : string) (l : list string) :
  NoDup l -> In x l -> occurrences x l = 1.
Proof.
  induction 1 as [| y l Hy Hl IH]; simpl; [contradiction |].
  intros [-> | Hx].
  - rewrite String.eqb_refl. f_equal.
    clear IH Hl. induction l as [| z l IH]; simpl; [reflexivity |].
    destruct (String.eqb x z) eqn:E.
    + apply String.eqb_eq in E. subst. exfalso. apply Hy. now left.
    + apply IH. intros H. apply Hy. now right.
  - destruct (String.eqb x y) eqn:E; [| now apply IH].
    apply String.eqb_eq in E. subst. contradiction.
Qed.

Lemma loc_index (labels : list string) (df df' : frame) :
  loc labels df = inr df' ->
  index df' = flat_map (fun u => repeat u (occurrences u (index df))) labels
  /\ column_names df' = column_names df.
Proof.
  unfold loc. destruct (filter _ labels); [| discriminate].
  intros H. injection H as <-. simpl. split.
  - induction labels as [| u labels IH]; simpl; [reflexivity |].
    rewrite map_app, IH. f_equal.
    exact (positions_nth u (index df) []).
  - unfold column_names, keys.
    induction (columns df) as [| c cs IH]; simpl; [reflexivity |].
    now rewrite <- IH.
Qed.




Lemma checks_missing_Y_df
      (ins : bool) (Y_hat_df S_df : frame) (Y_df : option frame)
      (level : option (list number)) (method : string) :
  _prepare_fit_checks ins Y_hat_df S_df Y_df level method = inl MissingYdf
  <-> Str.mem method ["normality"; "bootstrap"; "permbu"] = true
      /\ (ins = true \/ resampling method = true)
      /\ Y_df = None.
Proof.
  unfold _prepare_fit_checks.
  destruct (Str.mem method ["normality"; "bootstrap"; "permbu"]);
    simpl negb; cbv iota;
    [| split; [discriminate | intros [H _]; discriminate]].
  destruct Y_df as [df |].
  - rewrite andb_false_r. split; [| intros [_ [_ H]]; discriminate].
    intros H. exfalso. revert H. unfold rbind, raise, ok.
    destruct (match level with Some _ => _ | None => _ end);
      [discriminate |].
    destruct (drop_columns _ Y_hat_df) as [e | names] eqn:Ed.
    { apply drop_columns_error in Ed. destruct Ed as [k ->]. discriminate. }
    repeat match goal with
           | |- context [if ?b then _ else _] => destruct b
           | |- context [match loc ?a ?b with _ => _ end] =>
               let E := fresh "E" in
               destruct (loc a b) eqn:E;
               [apply loc_error in E; destruct E as [? ->] |]
           end; discriminate.
  - rewrite andb_true_r.
    destruct (ins || resampling method) eqn:E.
    + split; [| reflexivity]. intros _. apply orb_true_iff in E. auto.
    + apply orb_false_iff in E. destruct E as [-> E]. rewrite E.
      split; [| intros [_ [[H | H] _]]; discriminate].
      intros H. exfalso. revert H. unfold rbind, raise, ok.
      destruct (match level with Some _ => _ | None => _ end);
        [discriminate |].
      destruct (drop_columns _ Y_hat_df) as [e | names] eqn:Ed.
      { apply drop_columns_error in Ed. destruct Ed as [k ->].
        discriminate. }
      repeat match goal with
             | |- context [if ?b then _ else _] => destruct b
             | |- context [match loc ?a ?b with _ => _ end] =>
                 let E := fresh "E" in
                 destruct (loc a b) eqn:E;
                 [apply loc_error in E; destruct E as [? ->] |]
             end; discriminate.
Qed.

(** ** The rows that [loc] takes *)

Lemma positions_bound (x : string) (l : list string) (k p : nat) :
  In p (positions x l k) -> k <= p < k + List.length l.
Proof.
  revert k. induction l as [| y l IH]; intros k; simpl; [contradiction |].
  destruct (String.eqb x y).
  - intros [<- | H]; [lia |]. apply IH in H. lia.
  - intros H. apply IH in H. lia.
Qed.

(** Every row of [df.loc[labels]] is a row of [df], with its label. *)
Lemma loc_rows (labels : list string) (df df' : frame) :
  loc labels df = inr df' ->
  forall i u,
    nth_error (index df') i = Some u ->
    exists j, nth_error (index df) j = Some u /\ row df' i = row df j.
Proof.
  unfold loc. destruct (filter _ labels); [| discriminate].
  intros H. injection H as <-. cbn [index]. intros i u Hi.
  rewrite nth_error_map in Hi.
  destruct (nth_error (flat_map (fun u => positions u (index df) 0) labels) i)
    as [pos |] eqn:Ep; [| discriminate].
  injection Hi as <-. exists pos. split.
  - pose proof (nth_error_In _ _ Ep) as Hin. apply in_flat_map in Hin.
    destruct Hin as [u [_ Hin]]. apply positions_bound in Hin.
    apply nth_error_nth'. lia.
  - unfold row. cbn [columns]. rewrite map_map. apply map_ext.
    intros c. cbn [fst snd]. f_equal.
    apply nth_error_nth. rewrite nth_error_map, Ep. reflexivity.
Qed.

Lemma occurrences_In (x : string) (l : list string) :
  0 < occurrences x l <-> In x l.
Proof.
  induction l as [| y l IH]; simpl; [split; [lia | contradiction] |].
  destruct (String.eqb x y) eqn:E.
  - apply String.eqb_eq in E. subst. split; [now left | lia].
  - apply String.eqb_neq in E. rewrite IH. split; [now right |].
    intros [-> | H]; [contradiction | assumption].
Qed.

(** The labels of [df.loc[labels]]. *)
Lemma loc_labels (labels : list string) (df df' : frame) (u : string) :
  loc labels df = inr df' ->
  In u (index df') <-> In u labels /\ In u (index df).
Proof.
  intros H. apply loc_index in H. destruct H as [-> _].
  rewrite in_flat_map. split.
  - intros [v [Hv Hu]]. apply repeat_spec in Hu as Heq. subst v.
    split; [assumption |]. apply occurrences_In.
    destruct (occurrences u (index df)); [contradiction | lia].
  - intros [Hl Hd]. exists u. split; [assumption |].
    apply occurrences_In in Hd.
    destruct (occurrences u (index df)); [lia | now left].
Qed.

(** ** With the re-sorting *)

(** A validation that passes: the re-sorting went through and the checks
    passed on the frames it left.  The forecasts and the historical frame
    that are returned are these frames. *)
Lemma prepare_fit_passes
      (ext : externals) (ins : bool) (Y_hat_df S_df : frame)
      (Y_df : option frame) (level : option (list number)) (method : string)
      (sort_df : bool) (Y_hat_df' S_df' : frame) (Y_df' : option frame)
      (names : list string) :
  _prepare_fit ext ins Y_hat_df S_df Y_df level method sort_df
  = inr (Y_hat_df', S_df', Y_df', names) ->
  exists S_df1,
    arrange ext Y_hat_df S_df Y_df sort_df = inr (Y_hat_df', S_df1, Y_df')
    /\ _prepare_fit_checks ins Y_hat_df' S_df1 Y_df' level method
       = inr (Y_hat_df', S_df', Y_df', names)
    /\ (sort_df = false ->
        Y_hat_df' = Y_hat_df /\ S_df1 = S_df /\ Y_df' = Y_df).
Proof.
  intros H. apply prepare_fit_arranged in H.
  destruct H as [[w [_ H]] | [Yh1 [S1 [Yd1 [Ha Hc]]]]]; [discriminate |].
  pose proof (checks_ok _ _ _ _ _ _ _ _ _ _ Hc) as [cols Hok].
  destruct Hok as (_ & _ & _ & _ & _ & _ & _ & _ & -> & ->).
  exists S1. split; [assumption |]. split; [assumption |].
  intros ->. rewrite arrange_unsorted in Ha.
  injection Ha as E1 E2 E3. now subst.
Qed.

(** When the validation passes, the forecasts it returns ([Y_hat_df]
    itself without re-sorting, [Y_hat_df] as the re-sorting left it
    otherwise) have a column [ds], and the names of the models are the
    names of their columns other than [ds] and [y] that contain none of
    [-lo], [-hi] and [-median], in the order of the columns. *)
Theorem prepare_fit_model_names
      (ext : externals) (ins : bool) (Y_hat_df S_df : frame)
      (Y_df : option frame) (level : option (list number)) (method : string)
      (sort_df : bool) (Y_hat_df' S_df' : frame) (Y_df' : option frame)
      (names : list string) :
  _prepare_fit ext ins Y_hat_df S_df Y_df level method sort_df
  = inr (Y_hat_df', S_df', Y_df', names) ->
  In "ds" (column_names Y_hat_df')
  /\ names = filter is_model_column (column_names Y_hat_df')
  /\ (sort_df = false -> Y_hat_df' = Y_hat_df).
Proof.
  intros H. apply prepare_fit_passes in H.
  destruct H as [S1 [_ [Hc Hu]]].
  apply checks_model_names in Hc. destruct Hc as [Hds Hn].
  split; [assumption |]. split; [assumption |].
  intros Hs. now apply Hu.
Qed.

(** When the validation passes, the frames are about the same series: a
    label is in the index of the forecasts returned exactly when it is in
    the index of the summing matrix returned, exactly when it is in the
    index of the summing matrix before its rows are picked, and exactly
    when it is in the index of the historical frame, if there is one.
    Without re-sorting these are the labels of [Y_hat_df], [S_df] and
    [Y_df] as they were passed. *)
Theorem prepare_fit_same_series
      (ext : externals) (ins : bool) (Y_hat_df S_df : frame)
      (Y_df : option frame) (level : option (list number)) (method : string)
      (sort_df : bool) (Y_hat_df' S_df' : frame) (Y_df' : option frame)
      (names : list string) :
  _prepare_fit ext ins Y_hat_df S_df Y_df level method sort_df
  = inr (Y_hat_df', S_df', Y_df', names) ->
  (forall u, In u (index Y_hat_df') <-> In u (index S_df'))
  /\ (forall df, Y_df' = Some df ->
                 forall u, In u (index Y_hat_df') <-> In u (index df))
  /\ (exists S_df1,
         arrange ext Y_hat_df S_df Y_df sort_df
         = inr (Y_hat_df', S_df1, Y_df')
         /\ forall u, In u (index Y_hat_df') <-> In u (index S_df1))
  /\ (sort_df = false ->
      (forall u, In u (index Y_hat_df) <-> In u (index S_df))
      /\ (forall df, Y_df = Some df ->
                     forall u, In u (index Y_hat_df) <-> In u (index df))).
Proof.
  intros H. apply prepare_fit_passes in H.
  destruct H as [S1 [Ha [Hc Hu]]].
  pose proof (checks_same_series _ _ _ _ _ _ _ _ _ _ Hc) as [HS HY].
  apply checks_ok in Hc.
  destruct Hc as [cols [_ [_ [_ [_ [_ [_ [_ [Hloc _]]]]]]]]].
  split; [| split; [exact HY | split]].
  - intros u. rewrite (loc_labels _ _ _ u Hloc), In_unique.
    specialize (HS u). tauto.
  - exists S1. now split.
  - intros Hs. destruct (Hu Hs) as [-> [-> ->]]. now split.
Qed.

(** What [_prepare_fit] raises: an exception of pandas while the frames
    are re-sorted, which happens under [sort_df] only; or, on the frames
    the re-sorting left, one of the exceptions of its own checks or, when
    the forecasts have no column [ds], the [KeyError] of [drop].  The last line,
    [S_df.loc[uids]], never raises, since the check of the series before it
    has passed.  Without re-sorting the exception is of the last two
    kinds, on [Y_hat_df] as it was passed. *)
Theorem prepare_fit_errors
      (ext : externals) (ins : bool) (Y_hat_df S_df : frame)
      (Y_df : option frame) (level : option (list number)) (method : string)
      (sort_df : bool) (e : error) :
  _prepare_fit ext ins Y_hat_df S_df Y_df level method sort_df = inl e ->
  ((exists what, e = LibraryError what
                 /\ arrange ext Y_hat_df S_df Y_df sort_df = inl e
                 /\ sort_df = true)
   \/ (exists Y_hat_df1 S_df1 Y_df1,
          arrange ext Y_hat_df S_df Y_df sort_df
          = inr (Y_hat_df1, S_df1, Y_df1)
          /\ (validation_error e = true
              \/ (e = KeyError "ds" /\ ~ In "ds" (column_names Y_hat_df1)))))
  /\ (sort_df = false ->
      validation_error e = true
      \/ (e = KeyError "ds" /\ ~ In "ds" (column_names Y_hat_df))).
Proof.
  intros H. apply prepare_fit_arranged in H.
  destruct H as [[w [Ha H]] | [Yh1 [S1 [Yd1 [Ha Hc]]]]].
  - injection H as ->.
    assert (Hs : sort_df = true).
    { destruct sort_df; [reflexivity |].
      rewrite arrange_unsorted in Ha. discriminate. }
    split; [left; exists w; now repeat split |].
    intros Hf. congruence.
  - apply checks_errors in Hc. split.
    + right. exists Yh1, S1, Yd1. now split.
    + intros ->. rewrite arrange_unsorted in Ha.
      injection Ha as -> -> ->. exact Hc.
Qed.

(** When the validation passes and the summing matrix, as the re-sorting
    left it ([S_df] itself without re-sorting), repeats no label, the
    summing matrix that is returned has the columns of that matrix and its
    rows, each with its label, in the order in which the series first
    appear in the forecasts that are returned. *)
Theorem prepare_fit_aligns_S
      (ext : externals) (ins : bool) (Y_hat_df S_df : frame)
      (Y_df : option frame) (level : option (list number)) (method : string)
      (sort_df : bool) (Y_hat_df1 S_df1 : frame) (Y_df1 : option frame)
      (Y_hat_df' S_df' : frame) (Y_df' : option frame)
      (names : list string) :
  arrange ext Y_hat_df S_df Y_df sort_df = inr (Y_hat_df1, S_df1, Y_df1) ->
  _prepare_fit ext ins Y_hat_df S_df Y_df level method sort_df
  = inr (Y_hat_df', S_df', Y_df', names) ->
  NoDup (index S_df1) ->
  Y_hat_df' = Y_hat_df1 /\ Y_df' = Y_df1
  /\ index S_df' = unique (index Y_hat_df')
  /\ column_names S_df' = column_names S_df1
  /\ Permutation (index S_df') (index S_df1)
  /\ (forall i j u,
         nth_error (index S_df') i = Some u ->
         nth_error (index S_df1) j = Some u ->
         row S_df' i = row S_df1 j).
Proof.
  intros Ha H Hnd. apply prepare_fit_passes in H.
  destruct H as [S1 [Ha' [Hc _]]]. rewrite Ha in Ha'.
  injection Ha' as <- <- <-.
  pose proof (checks_same_series _ _ _ _ _ _ _ _ _ _ Hc) as [Hsame _].
  apply checks_ok in Hc.
  destruct Hc as [cols [_ [_ [_ [_ [_ [_ [_ [Hloc _]]]]]]]]].
  pose proof (loc_rows _ _ _ Hloc) as Hrows.
  apply loc_index in Hloc. destruct Hloc as [Hi Hc].
  assert (Hidx : index S_df' = unique (index Y_hat_df1)).
  { rewrite Hi.
    assert (Hall : forall u, In u (unique (index Y_hat_df1)) ->
                             In u (index S_df1)).
    { intros u Hu. rewrite In_unique in Hu. now apply Hsame. }
    revert Hall. generalize (unique (index Y_hat_df1)). intros l.
    induction l as [| u l IH]; intros Hall; simpl; [reflexivity |].
    rewrite occurrences_NoDup; [| assumption | apply Hall; now left].
    simpl. f_equal. apply IH. intros v Hv. apply Hall. now right. }
  split; [reflexivity |]. split; [reflexivity |].
  split; [assumption |]. split; [assumption |]. split.
  - rewrite Hidx.
    apply NoDup_Permutation; [apply NoDup_unique | assumption |].
    intros u. rewrite In_unique. apply Hsame.
  - intros i j u Hi' Hj.
    destruct (Hrows i u Hi') as [j' [Hj' ->]].
    f_equal. rewrite NoDup_nth_error in Hnd. symmetry. apply Hnd.
    + apply nth_error_Some. congruence.
    + congruence.
Qed.


(** For an orchestrator as [__init__] builds it, [reconcile] raises the
    exception that asks for [Y_df] exactly when the re-sorting of the
    frames, which comes first when [sort_df] is true, raises nothing, the
    strategy is a known one, no [Y_df] is given, and either one of the
    reconcilers is marked [insample] or the strategy is [bootstrap] or
    [permbu]; the orchestrator is then left as it was built.  Without
    re-sorting the first condition always holds. *)
Theorem history_required
        (ext : externals) (rs : list reconciler)
        (lv : option (list number))
        (Y_hat_df S : frame) (tags : list (string * list string))
        (Y_df : option frame) (method : string) (ns seed : Z)
        (sort_df bal : bool) (st' : state) :
  (reconcile ext Y_hat_df S tags Y_df method ns seed sort_df bal
             (__init__ rs lv)
   = (st', inl MissingYdf)
   <-> (exists frames, arrange ext Y_hat_df S Y_df sort_df = inr frames)
       /\ Str.mem method ["normality"; "bootstrap"; "permbu"] = true
       /\ ((exists r, In r rs /\ insample r = true)
           \/ method = "bootstrap" \/ method = "permbu")
       /\ Y_df = None
       /\ st' = __init__ rs lv)
  /\ (sort_df = false ->
      exists frames, arrange ext Y_hat_df S Y_df sort_df = inr frames).
Proof.
  split; [| intros ->; eexists; apply arrange_unsorted].
  split.
  - intros H. apply reconcile_error in H.
    destruct H as [[H ->] | H]; [| discriminate H].
    apply prepare_fit_arranged in H.
    destruct H as [[w [_ H]] | [Yh1 [S1 [Yd1 [Ha H]]]]]; [discriminate |].
    apply checks_missing_Y_df in H. destruct H as [Hm [Hi Hy]].
    split; [eauto |]. split; [assumption |].
    split; [| split; [| reflexivity]].
    + destruct Hi as [Hi | Hi].
      * left. simpl in Hi. apply existsb_exists in Hi. exact Hi.
      * right. unfold resampling in Hi. apply mem_In in Hi. simpl in Hi.
        intuition congruence.
    + now apply (arrange_Y_df _ _ _ _ _ _ _ _ Ha).
  - intros [[[[Yh1 S1] Yd1] Ha] [Hm [Hi [Hy ->]]]]. rewrite reconcile_unfold.
    assert (H : _prepare_fit ext (self_insample (__init__ rs lv)) Y_hat_df S
                             Y_df (level (__init__ rs lv)) method sort_df
                = inl MissingYdf).
    { apply prepare_fit_arranged. right. exists Yh1, S1, Yd1.
      split; [assumption |].
      apply checks_missing_Y_df. split; [assumption |].
      split; [| now apply (arrange_Y_df _ _ _ _ _ _ _ _ Ha)].
      destruct Hi as [Hi | Hi].
      - left. simpl. apply existsb_exists. exact Hi.
      - right. unfold resampling. apply mem_In. simpl.
        intuition congruence. }
    now rewrite H.
Qed.

(* ================================================================== *)
(** * Further properties: the level read from the name of a bound *)

Lemma span_no_digit (s : string) :
  has_digit s = false -> Regex.span Regex.digit s = 0.
Proof.
  destruct s as [| a s]; simpl; [reflexivity |].
  intros H. apply orb_false_iff in H. destruct H as [-> _]. reflexivity.
Qed.

Lemma has_digit_drop (k : nat) (s : string) :
  has_digit s = false -> has_digit (Regex.drop k s) = false.
Proof.
  revert s. induction k as [| k IH]; intros [| a s]; simpl; auto.
  intros H. apply orb_false_iff in H. now apply IH.
Qed.

Lemma match_digits_no_digit (s : string) :
  has_digit s = false ->
  Regex.match_seq [(Regex.digit, Regex.Plus)] s = None.
Proof.
  intros H. cbn [Regex.match_seq]. rewrite (span_no_digit _ H). reflexivity.
Qed.

Lemma match_alt_no_digit (s : string) :
  has_digit s = false -> Regex.match_alt Regex.number_pattern s = None.
Proof.
  intros H. unfold Regex.number_pattern. cbn [Regex.match_alt].
  assert (H1 : Regex.match_seq
                 [(Regex.digit, Regex.Plus);
                  ((fun a => Regex.dot a || Regex.comma a || Regex.digit a),
                   Regex.Plus)] s = None).
  { cbn [Regex.match_seq]. rewrite (span_no_digit _ H). reflexivity. }
  rewrite H1.
  assert (H2 : Regex.match_seq
                 [(Regex.digit, Regex.Star); (Regex.dot, Regex.Once);
                  (Regex.digit, Regex.Plus)] s = None).
  { cbn [Regex.match_seq]. rewrite (span_no_digit _ H).
    cbn [Nat.ltb Nat.leb Regex.drop].
    destruct (Regex.span Regex.dot s) as [| n]; cbn [Nat.min Nat.ltb Nat.leb];
      [reflexivity |].
    rewrite (span_no_digit _ (has_digit_drop 1 s H)).
    reflexivity. }
  rewrite H2. now rewrite match_digits_no_digit.
Qed.

Lemma findall_no_digit (s : string) (skip : nat) :
  has_digit s = false ->
  Regex.findall_from Regex.number_pattern s skip = [].
Proof.
  revert skip. induction s as [| a s IH]; intros skip H; [reflexivity |].
  pose proof H as H'. simpl in H'. apply orb_false_iff in H'.
  destruct H' as [_ Hs].
  cbn [Regex.findall_from]. destruct skip as [| k]; [| now apply IH].
  rewrite (match_alt_no_digit _ H). now apply IH.
Qed.

(** When the name of the column [_reverse_engineer_sigmah] reads holds
    no digit, the pattern finds no level in it and [level_col[-1]] raises
    [IndexError]. *)
Theorem sigmah_level_missing
        (ppf : Q -> Q) (Y_hat_df : frame) (y_hat : matrix)
        (model_name pi_col : string) :
  pi_column Y_hat_df model_name = inr pi_col ->
  has_digit pi_col = false ->
  _reverse_engineer_sigmah ppf Y_hat_df y_hat model_name = inl IndexError.
Proof.
  intros Hpi Hd. unfold _reverse_engineer_sigmah, rbind. rewrite Hpi.
  unfold level_of, Regex.findall. rewrite (findall_no_digit _ 0 Hd).
  reflexivity.
Qed.

(** The quantile function has no part in what [_reverse_engineer_sigmah]
    raises. *)
Lemma sigmah_error_any_ppf
      (ppf ppf' : Q -> Q) (Y_hat_df : frame) (y_hat : matrix)
      (model_name : string) (e : error) :
  _reverse_engineer_sigmah ppf Y_hat_df y_hat model_name = inl e ->
  _reverse_engineer_sigmah ppf' Y_hat_df y_hat model_name = inl e.
Proof.
  unfold _reverse_engineer_sigmah, rbind, ok.
  destruct (pi_column Y_hat_df model_name) as [e' | pi_col]; [auto |].
  destruct (level_of pi_col) as [e' | level_col]; [auto |].
  destruct (dict_item pi_col _) as [e' | values]; [auto |].
  destruct (reshape _ values) as [e' | rows]; [auto |].
  destruct (broadcast _ rows y_hat) as [e' | diff]; [auto | discriminate].
Qed.

(** A quantile [z] of zero for the level read from the name of the
    column, as for the level 0, adds no exception of its own:
    [_reverse_engineer_sigmah] raises exactly what it raises with any other
    quantile function, and it returns as soon as the column of the bound
    can be read, reshaped and subtracted from [y_hat].  No entry of the
    sigma it returns is a finite number. *)
Theorem sigmah_zero_quantile
        (ppf : Q -> Q) (Y_hat_df : frame) (y_hat : matrix)
        (model_name pi_col : string) (level_col : Q) :
  pi_column Y_hat_df model_name = inr pi_col ->
  level_of pi_col = inr level_col ->
  Qeq_bool (ppf ((1 # 2) + level_col / (200 # 1))%Q) 0%Q = true ->
  (forall (ppf' : Q -> Q) (e : error),
      _reverse_engineer_sigmah ppf Y_hat_df y_hat model_name = inl e
      <-> _reverse_engineer_sigmah ppf' Y_hat_df y_hat model_name = inl e)
  /\ (forall values rows diff,
         dict_item pi_col (columns Y_hat_df) = inr values ->
         reshape (List.length (unique (index Y_hat_df))) values = inr rows ->
         broadcast (broadcast xsub) rows y_hat = inr diff ->
         exists sigmah,
           _reverse_engineer_sigmah ppf Y_hat_df y_hat model_name
           = inr sigmah)
  /\ (forall sigmah,
         _reverse_engineer_sigmah ppf Y_hat_df y_hat model_name = inr sigmah ->
         Forall (Forall (fun x => x = None)) sigmah).
Proof.
  intros Hpi Hl Hz. split; [| split].
  - intros ppf' e. split; apply sigmah_error_any_ppf.
  - intros values rows diff Hv Hr Hd.
    unfold _reverse_engineer_sigmah, rbind. rewrite Hpi, Hl, Hv, Hr, Hd.
    eexists. reflexivity.
  - intros sigmah. unfold _reverse_engineer_sigmah, rbind.
    rewrite Hpi, Hl.
    destruct (dict_item pi_col _) as [e | values]; [discriminate |].
    destruct (reshape _ values) as [e | rows]; [discriminate |].
    destruct (broadcast _ rows y_hat) as [e | diff]; [discriminate |].
    intros H. injection H as <-.
    apply Forall_forall. intros row Hrow. apply in_map_iff in Hrow.
    destruct Hrow as [r [<- _]].
    apply Forall_forall. intros x Hx. apply in_map_iff in Hx.
    destruct Hx as [d [<- _]].
    unfold xdiv. destruct (xscale _ d); [now rewrite Hz | reflexivity].
Qed.

(* ================================================================== *)
(** * Further properties: the calls, the clock and the columns of a run *)

Lemma select_kwargs_keys (fn : reconciler) (ra : list (string * arg)) :
  incl (keys (select_kwargs fn ra)) (parameters fn).
Proof.
  unfold select_kwargs, keys, incl.
  induction (parameters fn) as [| p ps IH]; simpl; [auto |].
  intros k Hk. rewrite map_app in Hk. apply in_app_or in Hk.
  destruct Hk as [Hk | Hk]; [| right; now apply IH].
  destruct (dict_get p ra); simpl in Hk; [| contradiction].
  destruct Hk as [<- | []]. now left.
Qed.

Lemma select_kwargs_get (fn : reconciler) (ra : list (string * arg))
      (k : string) :
  dict_get k (select_kwargs fn ra)
  = if Str.mem k (parameters fn) then dict_get k ra else None.
Proof.
  unfold select_kwargs, Str.mem.
  induction (parameters fn) as [| p ps IH]; simpl; [reflexivity |].
  destruct (String.eqb k p) eqn:E.
  - apply String.eqb_eq in E. subst p. simpl.
    destruct (dict_get k ra) as [v |] eqn:Ev; simpl.
    + now rewrite String.eqb_refl.
    + rewrite IH. now destruct (existsb _ ps).
  - simpl. destruct (dict_get p ra) as [v |]; simpl; [now rewrite E |].
    assumption.
Qed.

Lemma enumerate_from_app {A} (n : nat) (a b : list A) :
  enumerate_from n (a ++ b)
  = (enumerate_from n a ++ enumerate_from (n + List.length a) b)%list.
Proof.
  revert n. induction a as [| x a IH]; intros n; simpl.
  - now rewrite Nat.add_0_r.
  - rewrite IH.
    replace (n + S (List.length a)) with (S n + List.length a) by lia.
    reflexivity.
Qed.

Lemma Forall2_length_eq {A B} (P : A -> B -> Prop) (a : list A)
      (b : list B) :
  Forall2 P a b -> List.length a = List.length b.
Proof. induction 1; simpl; congruence. Qed.

Lemma keys_dict_set_inv {A} (k k' : string) (v : A) (d : list (string * A)) :
  In k' (keys (dict_set k v d)) -> k' = k \/ In k' (keys d).
Proof.
  induction d as [| [k0 v0] d IH]; simpl.
  - intros [<- | []]. now left.
  - destruct (String.eqb k k0) eqn:E; simpl.
    + intros [<- | H]; [now left | right; now right].
    + intros [<- | H]; [right; now left |].
      destruct (IH H); [now left | right; now right].
Qed.

Lemma select_kwargs_in_args (fn : reconciler) (ra : list (string * arg))
      (k : string) :
  In k (keys (select_kwargs fn ra)) -> In k (keys ra).
Proof.
  unfold select_kwargs, keys.
  induction (parameters fn) as [| p ps IH]; simpl; [contradiction |].
  rewrite map_app, in_app_iff. intros [H | H]; [| now apply IH].
  destruct (dict_get p ra) as [v |] eqn:E; simpl in H; [| contradiction].
  destruct H as [<- | []]. apply dict_get_In in E.
  apply in_map_iff. now exists (p, v).
Qed.

Lemma dict_get_app_l {A} (k : string) (a b : list (string * A)) (v : A) :
  dict_get k a = Some v -> dict_get k (a ++ b)%list = Some v.
Proof.
  induction a as [| [k' v'] a IH]; simpl; [discriminate |].
  destruct (String.eqb k k'); auto.
Qed.

Lemma dict_get_app_r {A} (k : string) (a b : list (string * A)) :
  ~ In k (keys a) -> dict_get k (a ++ b)%list = dict_get k b.
Proof.
  induction a as [| [k' v'] a IH]; simpl; [reflexivity |].
  intros H. destruct (String.eqb k k') eqn:E.
  - apply String.eqb_eq in E. subst. exfalso. apply H. now left.
  - apply IH. intros Hin. apply H. now right.
Qed.

(** A run that completes: the validation passed, [y_insample] was built
    and the loops went through. *)
Lemma reconcile_dispatch
      (ext : externals)
      (Y_hat_df S : frame) (tags : list (string * list string))
      (Y_df : option frame) (method : string) (ns seed : Z)
      (sort_df bal : bool) (st st' : state) (out : out_frame) :
  reconcile ext Y_hat_df S tags Y_df method ns seed sort_df bal st
  = (st', inr out) ->
  exists Y_hat_df' S_df Y_df' names ra ra',
    _prepare_fit ext (self_insample st) Y_hat_df S Y_df (level st) method
                 sort_df
    = inr (Y_hat_df', S_df, Y_df', names)
    /\ initial_args ext S_df Y_df' bal = inr ra
    /\ for_each (combine (reconcilers st) (orig_reconcilers st))
                (reconcile_reconciler ext Y_hat_df' S_df Y_df' method ns
                                      seed bal (time_time ext (clock st)))
                (ra, map (fun c => (fst c, Cells (snd c))) (columns Y_hat_df'))
                (loop_start names st)
       = (st', inr (ra', out_columns out))
    /\ out_index out = index Y_hat_df'.
Proof.
  intros H. rewrite reconcile_unfold in H.
  destruct (_prepare_fit _ _ Y_hat_df S Y_df _ method _)
    as [e | [[[Y_hat_df' S_df] Y_df'] names]]; [discriminate |].
  destruct (initial_args _ _ Y_df' bal) as [e | ra] eqn:Ea; [discriminate |].
  destruct (for_each _ _ _ _) as [s1 [e | [ra' cols']]] eqn:El;
    [discriminate |].
  injection H as <- <-.
  exists Y_hat_df', S_df, Y_df', names, ra, ra'. now repeat split.
Qed.

(** [reconciler_args] starts without a key [level]. *)
Lemma initial_args_no_level (ext : externals) (S_df : frame)
      (Y_df : option frame) (bal : bool) (ra : list (string * arg)) :
  initial_args ext S_df Y_df bal = inr ra -> ~ In "level" (keys ra).
Proof.
  unfold initial_args, rbind, ok.
  destruct (refused (get_indexer ext S_df)); [discriminate |].
  destruct Y_df as [df |].
  - destruct (from_Y_df _ _ _ _ _) as [e | a]; [discriminate |].
    intros H. injection H as <-. simpl. intuition discriminate.
  - intros H. injection H as <-. simpl. intuition discriminate.
Qed.

Lemma dict_item_get {A} (k : string) (d : list (string * A)) (v : A) :
  dict_item k d = inr v -> dict_get k d = Some v.
Proof.
  unfold dict_item. destruct (dict_get k d); [| discriminate].
  intros H. now injection H as <-.
Qed.

Section Trace.
Variable ext : externals.

Lemma reconcile_model_trace
      (Y_hat_df S_df : frame) (Y_df : option frame) (method : string)
      (ns seed : Z) (bal : bool) (start : Q) (fn : reconciler)
      (fn_name : string) (hf hl : bool) (model : string)
      (ra : list (string * arg)) (cols : list (string * coldata))
      (st st' : state) (ra' : list (string * arg))
      (cols' : list (string * coldata)) :
  Str.mem method ["bootstrap"; "normality"; "permbu"] = true ->
  reconcile_model ext Y_hat_df S_df Y_df method ns seed bal start
                  fn fn_name hf hl model (ra, cols) st
  = (st', inr (ra', cols')) ->
  let rm := model ++ "/" ++ fn_name in
  clock st' = S (clock st)
  /\ model_names st' = model_names st
  /\ execution_times st'
     = dict_set rm (time_time ext (clock st) - start)%Q (execution_times st)
  /\ (exists y, y_hat_of ext Y_hat_df S_df model = inr y
                /\ dict_get "y_hat" ra' = Some (Array y))
  /\ (exists new,
         calls st' = (calls st ++ new)%list
         /\ map (fun c => (receiver c, op c)) new
            = map (pair_with fn) (pair_ops (level st) ns)
         /\ Forall (turn_keywords ra' (level st)) new)
  /\ (level st = None ->
      level st' = None /\ level_names st' = level_names st
      /\ sample_names st' = sample_names st
      /\ cols' = setitem rm (Mean (List.length (calls st))) cols)
  /\ (forall l, level st = Some l -> level st' = Some (list_sort l))
  /\ (forall k, In k (keys ra') ->
                In k (keys ra)
                \/ In k ["y_hat"; "y_hat_insample"; "sigmah";
                         "intervals_method"; "num_samples"; "seed"]).
Proof.
  intros Hmethod H.
  unfold reconcile_model, bind, lift, get, modify, ret, time, invoke in H.
  rewrite Hmethod in H.
  run_in H.
  all: injection H as <- <- <-; simpl_state.
  all: split; [reflexivity |]; split; [reflexivity |];
    split; [reflexivity |].
  all: split;
    [match goal with
     | E1 : dict_item _ (columns _) = inr ?l, E2 : reshape _ ?l = inr ?r,
       E3 : mapM _ ?r = inr ?y |- _ =>
         exists (astype ext y); split;
         [unfold y_hat_of, rbind; rewrite E1, E2, E3; reflexivity |
          repeat (rewrite dict_get_set_other by discriminate);
          apply dict_get_set_same]
     end |].
  all: cbn [pair_ops];
    repeat match goal with
           | E : Z.ltb _ _ = _ |- _ => rewrite E
           end.
  all: split;
    [eexists; split;
     [rewrite <- ?app_assoc; simpl; reflexivity |
      split; [reflexivity |
              repeat (apply Forall_cons || apply Forall_nil);
              unfold turn_keywords; cbn [op kwargs receiver];
              try reflexivity;
              do 2 eexists;
              (split; [apply dict_item_get; eassumption |
                       split; [apply dict_item_get; eassumption |
                               reflexivity]])]] |].
  all: split;
    [intros Hc; try discriminate Hc; repeat split;
     try reflexivity; assumption |].
  all: split;
    [intros lx Hl; try discriminate Hl; injection Hl as <-; reflexivity |].
  all: intros k Hk;
    repeat (apply keys_dict_set_inv in Hk; destruct Hk as [-> | Hk]);
    simpl; tauto.
Qed.

Lemma In_dict_set {A} (k k' : string) (v v' : A) (d : list (string * A)) :
  In (k', v') (dict_set k v d) -> (k', v') = (k, v) \/ In (k', v') d.
Proof.
  induction d as [| [k0 v0] d IH]; simpl.
  - intros [H | []]. now left.
  - destruct (String.eqb k k0); simpl.
    + intros [H | H]; [now left | right; now right].
    + intros [H | H]; [right; now left |].
      destruct (IH H); [now left | right; now right].
Qed.

Lemma keys_dict_set {A} (k : string) (v : A) (d : list (string * A)) :
  In k (keys (dict_set k v d))
  /\ forall k', In k' (keys d) -> In k' (keys (dict_set k v d)).
Proof.
  induction d as [| [k0 v0] d [IH1 IH2]]; simpl.
  - split; [now left | contradiction].
  - destruct (String.eqb k k0) eqn:E; simpl.
    + apply String.eqb_eq in E. subst k0. split; [now left |].
      intros k' [<- | H]; [now left | now right].
    + split; [now right |].
      intros k' [<- | H]; [now left | right; now apply IH2].
Qed.

Lemma pair_ops_sorted (lv : option (list number)) (lv' : option (list number))
      (ns : Z) :
  (lv = None -> lv' = None) ->
  (forall l, lv = Some l -> lv' = Some (list_sort l)) ->
  pair_ops lv' ns = pair_ops lv ns.
Proof.
  intros Hn Hs. destruct lv as [l |].
  - now rewrite (Hs l eq_refl).
  - now rewrite Hn.
Qed.

Section Dispatch.

Variables (Y_hat_df S_df : frame) (Y_df : option frame) (method : string).
Variables (ns seed : Z) (bal : bool) (start : Q).

Hypothesis Hmethod :
  Str.mem method ["bootstrap"; "normality"; "permbu"] = true.

(** What is known of the execution times at a point of a run that began
    with the clock at [c0]. *)
Let timed (c0 : nat) (st : state) : Prop :=
  forall rm t, In (rm, t) (execution_times st) ->
               exists i, c0 <= i < clock st /\ t = (time_time ext i - start)%Q.

Lemma models_loop_trace (fn : reconciler) (fn_name : string) (hf hl : bool)
      (c0 : nat) (names : list string) :
  forall ra cols st ra' cols' st',
    for_each names
             (reconcile_model ext Y_hat_df S_df Y_df method ns seed bal
                              start fn fn_name hf hl)
             (ra, cols) st
    = (st', inr (ra', cols')) ->
    c0 <= clock st -> timed c0 st -> ~ In "level" (keys ra) ->
    model_names st' = model_names st
    /\ clock st' = clock st + List.length names
    /\ pair_ops (level st') ns = pair_ops (level st) ns
    /\ ~ In "level" (keys ra')
    /\ timed c0 st'
    /\ (forall k, In k (keys (execution_times st)) ->
                  In k (keys (execution_times st')))
    /\ (forall model, In model names ->
                      In (model ++ "/" ++ fn_name)
                         (keys (execution_times st')))
    /\ exists new,
        calls st' = (calls st ++ new)%list
        /\ map (fun c => (receiver c, op c)) new
           = flat_map (fun _ : string =>
                         map (pair_with fn) (pair_ops (level st) ns)) names
        /\ Forall keywords_passed new.
Proof.
  induction names as [| model names IH];
    intros ra cols st ra' cols' st' H Hc0 Ht Hra.
  - simpl in H. unfold ret in H. injection H as <- <- <-.
    split; [reflexivity |]. split; [simpl; lia |]. split; [reflexivity |].
    split; [assumption |].
    split; [assumption |]. split; [auto |]. split; [contradiction |].
    exists []. split; [now rewrite app_nil_r |].
    split; [reflexivity | constructor].
  - cbn [for_each] in H. unfold bind in H.
    destruct (reconcile_model _ _ _ _ _ _ _ _ _ _ _ _ _ _ _ st)
      as [s1 [e | [ra1 cols1]]] eqn:E1; [discriminate |].
    apply reconcile_model_trace in E1; [| exact Hmethod].
    destruct E1 as [Hclock [Hmn [Het [_ [[new1 [Hcalls [Hops Hkw]]]
                                          [Hnone [Hsome Hkeys1]]]]]]].
    assert (Hra1 : ~ In "level" (keys ra1)).
    { intros Hin. apply Hkeys1 in Hin. simpl in Hin.
      intuition discriminate. }
    assert (Hops1 : pair_ops (level s1) ns = pair_ops (level st) ns).
    { apply pair_ops_sorted; [apply Hnone | exact Hsome]. }
    assert (Ht1 : timed c0 s1).
    { intros rm t Hin. rewrite Het in Hin. apply In_dict_set in Hin.
      destruct Hin as [Heq | Hin].
      - injection Heq as -> ->. exists (clock st). split; [lia | reflexivity].
      - destruct (Ht rm t Hin) as [i [Hi ->]]. exists i.
        split; [lia | reflexivity]. }
    apply IH in H; [| lia | exact Ht1 | exact Hra1].
    destruct H as [Hmn' [Hclock' [Hops' [Hra' [Ht' [Hkeys [Hin Hnew']]]]]]].
    destruct Hnew' as [new [Hcalls' [Hnew Hsig]]].
    split; [congruence |]. split; [simpl; lia |]. split; [congruence |].
    split; [assumption |].
    split; [assumption |]. split.
    { intros k Hk. apply Hkeys. rewrite Het.
      now apply (proj2 (keys_dict_set _ _ _)). }
    split.
    { intros m [<- | Hm]; [| now apply Hin].
      apply Hkeys. rewrite Het. apply (proj1 (keys_dict_set _ _ _)). }
    exists (new1 ++ new)%list. split; [| split].
    + rewrite Hcalls', Hcalls. now rewrite app_assoc.
    + simpl. rewrite map_app, Hops, Hnew, Hops1. reflexivity.
    + apply Forall_app. split; [| assumption].
      eapply Forall_impl; [| exact Hkw]. intros c.
      unfold turn_keywords, keywords_passed.
      destruct (op c); intros Hc.
      * exists (select_kwargs (receiver c) ra1), (level st).
        split; [exact Hc |]. split; [apply select_kwargs_keys |].
        intros Hl. apply select_kwargs_in_args in Hl. contradiction.
      * rewrite Hc. apply select_kwargs_keys.
      * destruct Hc as [s [y [_ [_ ->]]]]. reflexivity.
      * exact Hc.
Qed.


Lemma reconcilers_loop_trace (c0 : nat) (names : list string)
      (pairs : list (reconciler * reconciler)) :
  forall ra cols st ra' cols' st',
    for_each pairs
             (reconcile_reconciler ext Y_hat_df S_df Y_df method ns seed
                                   bal start)
             (ra, cols) st
    = (st', inr (ra', cols')) ->
    model_names st = names -> c0 <= clock st -> timed c0 st ->
    ~ In "level" (keys ra) ->
    model_names st' = names
    /\ clock st' = clock st + List.length pairs * List.length names
    /\ pair_ops (level st') ns = pair_ops (level st) ns
    /\ timed c0 st'
    /\ (forall k, In k (keys (execution_times st)) ->
                  In k (keys (execution_times st')))
    /\ (forall pair model fn_name,
           In pair pairs -> In model names ->
           _build_fn_name (snd pair) = inr fn_name ->
           In (model ++ "/" ++ fn_name) (keys (execution_times st')))
    /\ exists new,
        calls st' = (calls st ++ new)%list
        /\ map (fun c => (receiver c, op c)) new
           = flat_map (fun pair : reconciler * reconciler =>
                         flat_map (fun _ : string =>
                                     map (pair_with (fst pair))
                                         (pair_ops (level st) ns)) names)
                      pairs
        /\ Forall keywords_passed new.
Proof.
  induction pairs as [| [fn name_copy] pairs IH];
    intros ra cols st ra' cols' st' H Hnames Hc0 Ht Hra.
  - simpl in H. unfold ret in H. injection H as <- <- <-.
    split; [assumption |]. split; [simpl; lia |]. split; [reflexivity |].
    split; [assumption |]. split; [auto |]. split; [contradiction |].
    exists []. split; [now rewrite app_nil_r |].
    split; [reflexivity | constructor].
  - cbn [for_each] in H. unfold bind in H.
    destruct (reconcile_reconciler _ _ _ _ _ _ _ _ _ _ _ st)
      as [s1 [e | [ra1 cols1]]] eqn:E1; [discriminate |].
    unfold reconcile_reconciler, bind, lift, get in E1.
    destruct (_build_fn_name name_copy) as [e | fn_name] eqn:Ename;
      [discriminate |].
    cbv beta iota in E1. rewrite Hnames in E1.
    apply (models_loop_trace _ _ _ _ c0) in E1;
      [| assumption | assumption |
       intros Hin; apply keys_dict_set_inv in Hin;
       destruct Hin as [Hin | Hin]; [discriminate | contradiction]].
    destruct E1 as [Hmn [Hclock [Hops [Hra1 [Ht1 [Hkeys1 [Hin1 Hnew1']]]]]]].
    destruct Hnew1' as [new1 [Hcalls1 [Hnew1 Hsig1]]].
    apply IH in H; [| congruence | lia | assumption | assumption].
    destruct H as [Hmn' [Hclock' [Hops' [Ht' [Hkeys [Hin Hnew']]]]]].
    destruct Hnew' as [new [Hcalls [Hnew Hsig]]].
    split; [assumption |]. split; [simpl; lia |]. split; [congruence |].
    split; [assumption |]. split; [auto |]. split.
    { intros pair model fn_name' [<- | Hp] Hm Hb.
      - simpl in Hb. rewrite Ename in Hb. injection Hb as <-.
        apply Hkeys. now apply Hin1.
      - now apply (Hin pair). }
    exists (new1 ++ new)%list. split; [| split].
    + rewrite Hcalls, Hcalls1. now rewrite app_assoc.
    + simpl. rewrite map_app, Hnew1, Hnew, Hops. reflexivity.
    + apply Forall_app. now split.
Qed.


Lemma models_loop_mean_only (fn name_copy : reconciler) (fn_name : string)
      (hf hl : bool) (names : list string) :
  _build_fn_name name_copy = inr fn_name ->
  forall ra cols st ra' cols' st',
    for_each names
             (reconcile_model ext Y_hat_df S_df Y_df method ns seed bal
                              start fn fn_name hf hl)
             (ra, cols) st
    = (st', inr (ra', cols')) ->
    level st = None -> ~ In "level" (keys ra) ->
    level st' = None /\ level_names st' = level_names st
    /\ sample_names st' = sample_names st
    /\ model_names st' = model_names st
    /\ ~ In "level" (keys ra')
    /\ cols' = fold_left set_mean
                         (enumerate_from
                            (List.length (calls st))
                            (map (fun m => recmodel_name (fn, name_copy, m))
                                 names))
                         cols
    /\ exists new,
        calls st' = (calls st ++ new)%list
        /\ Forall2 (mean_call ext Y_hat_df S_df fn) names new.
Proof.
  intros Hname.
  induction names as [| model names IH];
    intros ra cols st ra' cols' st' H Hlevel Hra.
  - simpl in H. unfold ret in H. injection H as <- <- <-.
    repeat split; try assumption.
    exists []. split; [now rewrite app_nil_r | constructor].
  - cbn [for_each] in H. unfold bind in H.
    destruct (reconcile_model _ _ _ _ _ _ _ _ _ _ _ _ _ _ _ st)
      as [s1 [e | [ra1 cols1]]] eqn:E1; [discriminate |].
    apply reconcile_model_trace in E1; [| exact Hmethod].
    destruct E1 as [_ [Hmn1 [_ [[y [Hy Hget]]
                                  [[new1 [Hcalls [Hops Hkw]]]
                                     [Hnone [_ Hkeys1]]]]]]].
    assert (Hra1 : ~ In "level" (keys ra1)).
    { intros Hin. apply Hkeys1 in Hin. simpl in Hin.
      intuition discriminate. }
    destruct (Hnone Hlevel) as [Hl1 [Hln1 [Hsn1 ->]]].
    rewrite Hlevel in Hops, Hkw. simpl in Hops.
    destruct new1 as [| c [| c' new1]]; try discriminate Hops.
    injection Hops as Hrec Hop.
    apply Forall_inv in Hkw. unfold turn_keywords in Hkw.
    rewrite Hop, Hrec in Hkw.
    assert (Hkwl : ~ In "level" (keys (select_kwargs fn ra1))).
    { intros Hin. apply select_kwargs_in_args in Hin. contradiction. }
    apply IH in H; [| assumption | assumption].
    destruct H as [Hl' [Hln' [Hsn' [Hmn' [Hra' [-> [new [Hcalls' Hall]]]]]]]].
    split; [assumption |]. split; [congruence |]. split; [congruence |].
    split; [congruence |]. split; [assumption |]. split.
    { rewrite Hcalls, length_app. cbn [List.length]. rewrite Nat.add_1_r.
      cbn [map enumerate_from fold_left].
      assert (Hrm : recmodel_name (fn, name_copy, model)
                    = model ++ "/" ++ fn_name).
      { unfold recmodel_name, built_name. simpl. now rewrite Hname. }
      rewrite Hrm. reflexivity. }
    exists (c :: new). split.
    + rewrite Hcalls', Hcalls, <- app_assoc. reflexivity.
    + constructor; [| assumption].
      split; [assumption |]. split; [assumption |]. split.
      * rewrite Hkw, dict_get_app_r by assumption. reflexivity.
      * intros Hin. exists y. split; [assumption |].
        rewrite Hkw. apply dict_get_app_l. rewrite select_kwargs_get.
        apply mem_In in Hin. now rewrite Hin.
Qed.

Lemma reconcilers_loop_mean_only (names : list string)
      (pairs : list (reconciler * reconciler)) :
  forall ra cols st ra' cols' st',
    for_each pairs
             (reconcile_reconciler ext Y_hat_df S_df Y_df method ns seed
                                   bal start)
             (ra, cols) st
    = (st', inr (ra', cols')) ->
    model_names st = names -> level st = None -> ~ In "level" (keys ra) ->
    level st' = None /\ level_names st' = level_names st
    /\ sample_names st' = sample_names st
    /\ cols' = fold_left set_mean
                         (enumerate_from
                            (List.length (calls st))
                            (map recmodel_name (list_prod pairs names)))
                         cols
    /\ exists new,
        calls st' = (calls st ++ new)%list
        /\ Forall2 (fun q => mean_call ext Y_hat_df S_df (fst (fst q))
                                       (snd q))
                   (list_prod pairs names) new.
Proof.
  induction pairs as [| [fn name_copy] pairs IH];
    intros ra cols st ra' cols' st' H Hnames Hlevel Hra.
  - simpl in H. unfold ret in H. injection H as <- <- <-.
    repeat split; try assumption.
    exists []. split; [now rewrite app_nil_r | constructor].
  - cbn [for_each] in H. unfold bind in H.
    destruct (reconcile_reconciler _ _ _ _ _ _ _ _ _ _ _ st)
      as [s1 [e | [ra1 cols1]]] eqn:E1; [discriminate |].
    unfold reconcile_reconciler, bind, lift, get in E1.
    destruct (_build_fn_name name_copy) as [e | fn_name] eqn:Ename;
      [discriminate |].
    cbv beta iota in E1. rewrite Hnames in E1.
    apply (models_loop_mean_only fn name_copy) in E1;
      [| assumption | assumption |
       intros Hin; apply keys_dict_set_inv in Hin;
       destruct Hin as [Hin | Hin]; [discriminate | contradiction]].
    destruct E1 as [Hl1 [Hln1 [Hsn1 [Hmn [Hra1 [-> Hnew1]]]]]].
    destruct Hnew1 as [new1 [Hcalls1 Hall1]].
    apply IH in H; [| congruence | assumption | assumption].
    destruct H as [Hl' [Hln' [Hsn' [-> [new [Hcalls Hall]]]]]].
    split; [assumption |]. split; [congruence |]. split; [congruence |].
    split.
    { simpl. rewrite map_app, enumerate_from_app, fold_left_app.
      rewrite !length_map, map_map. simpl.
      rewrite Hcalls1, length_app.
      rewrite <- (Forall2_length_eq _ _ _ Hall1). reflexivity. }
    exists (new1 ++ new)%list. split.
    + rewrite Hcalls, Hcalls1. now rewrite app_assoc.
    + simpl. apply Forall2_app; [| assumption].
      clear - Hall1. induction Hall1; simpl; constructor; assumption.
Qed.

End Dispatch.
End Trace.


Lemma keys_dict_get {A} (k : string) (d : list (string * A)) :
  In k (keys d) -> exists v, dict_get k d = Some v.
Proof.
  induction d as [| [k' v'] d IH]; simpl; [contradiction |].
  destruct (String.eqb k k') eqn:E; [eauto |].
  intros [H | H]; [| now apply IH].
  subst. now rewrite String.eqb_refl in E.
Qed.

(** A run of [reconcile] that completes has called the reconcilers of
    [self.reconcilers] in their order and, for each of them, once for
    each model in the order of the models: [fit], [predict] and [sample]
    when a level list is given and samples are asked for, the reconciler
    itself otherwise, and nothing else.  [fit] receives only arguments
    that the signature of the reconciler names.  The reconciler itself
    receives such arguments and, whatever its signature, [level]; none of
    the former is called [level].  [predict] receives [S], [y_hat] and
    [level]; [sample] the number of samples. *)
Theorem reconcile_call_trace
        (ext : externals)
        (Y_hat_df S : frame) (tags : list (string * list string))
        (Y_df : option frame) (method : string) (ns seed : Z)
        (sort_df bal : bool) (st st' : state) (out : out_frame) :
  reconcile ext Y_hat_df S tags Y_df method ns seed sort_df bal st
  = (st', inr out) ->
  exists new,
    calls st' = (calls st ++ new)%list
    /\ map (fun c => (receiver c, op c)) new
       = flat_map (fun pair : reconciler * reconciler =>
                     flat_map (fun _ : string =>
                                 map (pair_with (fst pair))
                                     (pair_ops (level st) ns))
                              (model_names st'))
                  (combine (reconcilers st) (orig_reconcilers st))
    /\ Forall keywords_passed new.
Proof.
  intros Hrun.
  destruct (reconcile_dispatch ext _ _ _ _ _ _ _ _ _ _ _ _ Hrun)
    as [Y_hat_df' [S_df [Y_df' [names [ra [ra' [Hprep [Hra [Hloop _]]]]]]]]].
  pose proof (prepare_fit_ok_method _ _ _ _ _ _ _ _ _ Hprep) as Hmethod.
  apply initial_args_no_level in Hra.
  apply (reconcilers_loop_trace ext Y_hat_df' S_df Y_df' method ns seed
           bal _ Hmethod (Datatypes.S (clock st)) names) in Hloop;
    [| reflexivity | simpl; lia | intros rm t [] | exact Hra].
  destruct Hloop as [Hnames [_ [_ [_ [_ [_ Hnew]]]]]].
  rewrite Hnames. exact Hnew.
Qed.

(** A run of [reconcile] that completes has read the clock once at
    its start and once for each pair of a reconciler and a model.  Every
    execution time it leaves is the difference between a later reading
    and the reading at the start: the time of a pair counts from the
    start of the run, not from the start of the pair.  Every pair has its
    time. *)
Theorem reconcile_execution_times
        (ext : externals)
        (Y_hat_df S : frame) (tags : list (string * list string))
        (Y_df : option frame) (method : string) (ns seed : Z)
        (sort_df bal : bool) (st st' : state) (out : out_frame) :
  reconcile ext Y_hat_df S tags Y_df method ns seed sort_df bal st
  = (st', inr out) ->
  let pairs := combine (reconcilers st) (orig_reconcilers st) in
  clock st' = clock st + 1 + List.length pairs * List.length (model_names st')
  /\ (forall rm t,
         In (rm, t) (execution_times st') ->
         exists i, clock st < i < clock st'
                   /\ t = (time_time ext i - time_time ext (clock st))%Q)
  /\ (forall pair model fn_name,
         In pair pairs -> In model (model_names st') ->
         _build_fn_name (snd pair) = inr fn_name ->
         exists t, dict_get (model ++ "/" ++ fn_name) (execution_times st')
                   = Some t).
Proof.
  intros Hrun pairs.
  destruct (reconcile_dispatch ext _ _ _ _ _ _ _ _ _ _ _ _ Hrun)
    as [Y_hat_df' [S_df [Y_df' [names [ra [ra' [Hprep [Hra [Hloop _]]]]]]]]].
  pose proof (prepare_fit_ok_method _ _ _ _ _ _ _ _ _ Hprep) as Hmethod.
  apply initial_args_no_level in Hra.
  apply (reconcilers_loop_trace ext Y_hat_df' S_df Y_df' method ns seed
           bal _ Hmethod (Datatypes.S (clock st)) names) in Hloop;
    [| reflexivity | simpl; lia | intros rm t [] | exact Hra].
  destruct Hloop as [Hnames [Hclock [_ [Ht [_ [Hin _]]]]]].
  rewrite Hnames. simpl in Hclock. split; [fold pairs in Hclock; lia |].
  split.
  - intros rm t Hrm. destruct (Ht rm t Hrm) as [i [Hi ->]].
    exists i. split; [lia | reflexivity].
  - intros pair model fn_name Hp Hm Hb. apply keys_dict_get.
    now apply (Hin pair).
Qed.

(** A run of [reconcile] without a level list that completes returns the
    index and the columns of the forecasts as the validation returned
    them (re-sorted under [sort_df]), to which the mean of each pair was
    assigned under its name, the pairs taken reconciler by reconciler and
    model by model, and the mean being the one of the call made for the
    pair: the reconciler itself, called with [level=None] and, if its
    signature names [y_hat], the forecasts of the model in these frames,
    one row per series, cast to [float32].  The list of levels and the
    registries of the interval and sample names are left empty. *)
Theorem reconcile_mean_only
        (ext : externals)
        (Y_hat_df S : frame) (tags : list (string * list string))
        (Y_df : option frame) (method : string) (ns seed : Z)
        (sort_df bal : bool) (st st' : state) (out : out_frame) :
  level st = None ->
  reconcile ext Y_hat_df S tags Y_df method ns seed sort_df bal st
  = (st', inr out) ->
  exists Y_hat_df' S_df Y_df' names,
    _prepare_fit ext (self_insample st) Y_hat_df S Y_df None method sort_df
    = inr (Y_hat_df', S_df, Y_df', names)
    /\ let pairs :=
         list_prod (combine (reconcilers st) (orig_reconcilers st)) names in
       out_index out = index Y_hat_df'
       /\ out_columns out
          = fold_left set_mean
                      (enumerate_from (List.length (calls st))
                                      (map recmodel_name pairs))
                      (map (fun c => (fst c, Cells (snd c)))
                           (columns Y_hat_df'))
       /\ (exists new,
              calls st' = (calls st ++ new)%list
              /\ Forall2 (fun q => mean_call ext Y_hat_df' S_df (fst (fst q))
                                             (snd q))
                         pairs new)
       /\ level st' = None /\ level_names st' = []
       /\ sample_names st' = [].
Proof.
  intros Hlevel Hrun.
  destruct (reconcile_dispatch ext _ _ _ _ _ _ _ _ _ _ _ _ Hrun)
    as [Y_hat_df' [S_df [Y_df' [names [ra [ra' [Hprep [Hra [Hloop Hidx]]]]]]]]].
  pose proof (prepare_fit_ok_method _ _ _ _ _ _ _ _ _ Hprep) as Hmethod.
  apply initial_args_no_level in Hra.
  rewrite Hlevel in Hprep.
  exists Y_hat_df', S_df, Y_df', names. split; [assumption |].
  apply (reconcilers_loop_mean_only ext Y_hat_df' S_df Y_df' method ns
           seed bal _ Hmethod names) in Hloop;
    [| reflexivity | exact Hlevel | exact Hra].
  destruct Hloop as [Hl [Hln [Hsn [Hcols Hcalls]]]].
  cbv zeta. split; [assumption |]. split; [exact Hcols |].
  split; [exact Hcalls |]. repeat split; assumption.
Qed.

(* ================================================================== *)
(** * Further properties: what the reconcilers receive *)


Section CallArguments.
Variable ext : externals.






Section Passing.

Variables (Y_hat_df S_df : frame) (Y_df : option frame) (method : string).
Variables (ns seed : Z) (bal : bool) (start : Q).

Hypothesis Hmethod :
  Str.mem method ["bootstrap"; "normality"; "permbu"] = true.



End Passing.
End CallArguments.


(* ================================================================== *)
(** * The further properties on the examples *)

Lemma bootstrap_no_seed_raises_witness :
  bootstrap_reconcile example_externals Y_hat_ETS S_total_a_b
                      tags_total_bottom None "normality" (-1) 0 true
                      (__init__ [BottomUp] None)
  = (set_model_names ["ETS"] (__init__ [BottomUp] None),
     inl NoObjectsToConcatenate).
Proof.
  apply (bootstrap_no_seed_raises
           example_externals Y_hat_ETS S_total_a_b tags_total_bottom
           None "normality" (-1) 0 true (__init__ [BottomUp] None)
           Y_hat_ETS S_total_a_b None ["ETS"]).
  - vm_compute. reflexivity.
  - lia.
Defined.

Lemma build_fn_name_raises_witness :
  _build_fn_name MinTrace_no_method = inl (KeyError "method").
Proof.
  apply (proj2 (build_fn_name_raises MinTrace_no_method (KeyError "method"))).
  split; [reflexivity |]. left. split; reflexivity.
Defined.

(** The forecasts are given in another order than [S_total_a_b] and are
    re-sorted. *)
Lemma prepare_fit_model_names_witness :
  _prepare_fit example_externals false Y_hat_b_a_total S_total_a_b None None
               "normality" true
  = inr (Y_hat_total_a_b, S_total_a_b, None, ["ETS"])
  /\ In "ds" (column_names Y_hat_total_a_b)
  /\ ["ETS"] = filter is_model_column (column_names Y_hat_total_a_b)
  /\ (true = false -> Y_hat_total_a_b = Y_hat_b_a_total).
Proof.
  assert (Hp : _prepare_fit example_externals false Y_hat_b_a_total
                            S_total_a_b None None "normality" true
               = inr (Y_hat_total_a_b, S_total_a_b, None, ["ETS"]))
    by (vm_compute; reflexivity).
  split; [exact Hp |].
  exact (prepare_fit_model_names
           example_externals false Y_hat_b_a_total S_total_a_b None None
           "normality" true Y_hat_total_a_b S_total_a_b None ["ETS"] Hp).
Defined.

Lemma prepare_fit_same_series_witness :
  _prepare_fit example_externals false Y_hat_ETS S_total_a_b
               (Some Y_df_ETS) None "bootstrap" true
  = inr (Y_hat_ETS, S_total_a_b, Some Y_df_ETS, ["ETS"])
  /\ (forall u, In u (index Y_hat_ETS) <-> In u (index S_total_a_b))
  /\ (forall df, Some Y_df_ETS = Some df ->
                 forall u, In u (index Y_hat_ETS) <-> In u (index df)).
Proof.
  assert (Hp : _prepare_fit example_externals false Y_hat_ETS S_total_a_b
                            (Some Y_df_ETS) None "bootstrap" true
               = inr (Y_hat_ETS, S_total_a_b, Some Y_df_ETS, ["ETS"]))
    by (vm_compute; reflexivity).
  split; [exact Hp |].
  destruct (prepare_fit_same_series
              example_externals false Y_hat_ETS S_total_a_b
              (Some Y_df_ETS) None "bootstrap" true
              Y_hat_ETS S_total_a_b (Some Y_df_ETS) ["ETS"] Hp)
    as [HS [HY _]].
  split; assumption.
Defined.

(** Without [ds] the re-sorting raises; without re-sorting, [drop]
    does. *)
Lemma prepare_fit_errors_witness :
  _prepare_fit example_externals false Y_hat_no_ds S_total_a_b None None
               "normality" true
  = inl (LibraryError "KeyError: 'ds'")
  /\ _prepare_fit example_externals false Y_hat_no_ds S_total_a_b None None
                  "normality" false
     = inl (KeyError "ds")
  /\ (exists what,
         LibraryError "KeyError: 'ds'" = LibraryError what
         /\ arrange example_externals Y_hat_no_ds S_total_a_b None true
            = inl (LibraryError "KeyError: 'ds'")
         /\ true = true)
  /\ (validation_error (KeyError "ds") = true
      \/ (KeyError "ds" = KeyError "ds"
          /\ ~ In "ds" (column_names Y_hat_no_ds))).
Proof.
  assert (Ht : _prepare_fit example_externals false Y_hat_no_ds S_total_a_b
                            None None "normality" true
               = inl (LibraryError "KeyError: 'ds'"))
    by (vm_compute; reflexivity).
  assert (Hf : _prepare_fit example_externals false Y_hat_no_ds S_total_a_b
                            None None "normality" false
               = inl (KeyError "ds"))
    by (vm_compute; reflexivity).
  split; [exact Ht |]. split; [exact Hf |]. split.
  - destruct (prepare_fit_errors
                example_externals false Y_hat_no_ds S_total_a_b None None
                "normality" true (LibraryError "KeyError: 'ds'") Ht)
      as [[H | [Yh1 [S1 [Yd1 [H _]]]]] _]; [exact H | discriminate H].
  - exact (proj2 (prepare_fit_errors
                    example_externals false Y_hat_no_ds S_total_a_b None
                    None "normality" false (KeyError "ds") Hf)
                 eq_refl).
Defined.

(** Without re-sorting the rows of [S_total_a_b] are put in the order of
    the forecasts, each with its label; with it the forecasts are put in
    the order of [S_total_a_b], whose rows stay where they are. *)
Lemma prepare_fit_aligns_S_witness :
  (arrange example_externals Y_hat_b_a_total S_total_a_b None false
   = inr (Y_hat_b_a_total, S_total_a_b, None)
   /\ _prepare_fit example_externals false Y_hat_b_a_total S_total_a_b None
                   None "normality" false
      = inr (Y_hat_b_a_total, S_b_a_total, None, ["ETS"])
   /\ NoDup (index S_total_a_b)
   /\ index S_b_a_total = unique (index Y_hat_b_a_total)
   /\ column_names S_b_a_total = column_names S_total_a_b
   /\ Permutation (index S_b_a_total) (index S_total_a_b)
   /\ row S_b_a_total 0 = row S_total_a_b 2)
  /\ (arrange example_externals Y_hat_b_a_total S_total_a_b None true
      = inr (Y_hat_total_a_b, S_total_a_b, None)
      /\ _prepare_fit example_externals false Y_hat_b_a_total S_total_a_b
                      None None "normality" true
         = inr (Y_hat_total_a_b, S_total_a_b, None, ["ETS"])
      /\ index S_total_a_b = unique (index Y_hat_total_a_b)
      /\ row S_total_a_b 0 = row S_total_a_b 0).
Proof.
  assert (Hn : NoDup (index S_total_a_b)) by solve_NoDup.
  split.
  - assert (Ha : arrange example_externals Y_hat_b_a_total S_total_a_b None
                         false
                 = inr (Y_hat_b_a_total, S_total_a_b, None)) by reflexivity.
    assert (Hp : _prepare_fit example_externals false Y_hat_b_a_total
                              S_total_a_b None None "normality" false
                 = inr (Y_hat_b_a_total, S_b_a_total, None, ["ETS"]))
      by (vm_compute; reflexivity).
    split; [exact Ha |]. split; [exact Hp |]. split; [exact Hn |].
    destruct (prepare_fit_aligns_S
                example_externals false Y_hat_b_a_total S_total_a_b None None
                "normality" false Y_hat_b_a_total S_total_a_b None
                Y_hat_b_a_total S_b_a_total None ["ETS"] Ha Hp Hn)
      as [_ [_ [Hi [Hc [Hperm Hrow]]]]].
    split; [exact Hi |]. split; [exact Hc |]. split; [exact Hperm |].
    exact (Hrow 0 2 "b" eq_refl eq_refl).
  - assert (Ha : arrange example_externals Y_hat_b_a_total S_total_a_b None
                         true
                 = inr (Y_hat_total_a_b, S_total_a_b, None))
      by (vm_compute; reflexivity).
    assert (Hp : _prepare_fit example_externals false Y_hat_b_a_total
                              S_total_a_b None None "normality" true
                 = inr (Y_hat_total_a_b, S_total_a_b, None, ["ETS"]))
      by (vm_compute; reflexivity).
    split; [exact Ha |]. split; [exact Hp |].
    destruct (prepare_fit_aligns_S
                example_externals false Y_hat_b_a_total S_total_a_b None None
                "normality" true Y_hat_total_a_b S_total_a_b None
                Y_hat_total_a_b S_total_a_b None ["ETS"] Ha Hp Hn)
      as [_ [_ [Hi [_ [_ Hrow]]]]].
    split; [exact Hi |].
    exact (Hrow 0 0 "total" eq_refl eq_refl).
Defined.


Lemma history_required_witness :
  reconcile example_externals Y_hat_ETS S_total_a_b
            tags_total_bottom None "normality" (-1) 0 true false
            (__init__ [BottomUp; MinTrace_shrink] None)
  = (__init__ [BottomUp; MinTrace_shrink] None, inl MissingYdf).
Proof.
  apply (proj2 (proj1 (history_required
                         example_externals [BottomUp; MinTrace_shrink] None
                         Y_hat_ETS S_total_a_b tags_total_bottom None
                         "normality" (-1) 0 true false
                         (__init__ [BottomUp; MinTrace_shrink] None)))).
  split; [eexists; vm_compute; reflexivity |].
  split; [reflexivity |]. split; [| split; reflexivity].
  left. exists MinTrace_shrink. split; [right; now left | reflexivity].
Defined.

Lemma sigmah_level_missing_witness :
  _reverse_engineer_sigmah example_ppf Y_hat_lo_unnamed [[Some (10 # 1)%Q]]
                           "model"
  = inl IndexError.
Proof.
  apply (sigmah_level_missing example_ppf Y_hat_lo_unnamed
                              [[Some (10 # 1)%Q]] "model" "model-lo");
    reflexivity.
Defined.

Lemma sigmah_zero_quantile_witness :
  _reverse_engineer_sigmah centred_ppf Y_hat_lo_0 [[Some (10 # 1)%Q]] "model"
  = inr [[None]]
  /\ Forall (Forall (fun x : xfloat => x = None)) [[None]].
Proof.
  assert (Hr : _reverse_engineer_sigmah centred_ppf Y_hat_lo_0
                                        [[Some (10 # 1)%Q]] "model"
               = inr [[None]]) by reflexivity.
  split; [exact Hr |].
  exact (proj2 (proj2 (sigmah_zero_quantile
                         centred_ppf Y_hat_lo_0 [[Some (10 # 1)%Q]]
                         "model" "model-lo-0" 0%Q
                         eq_refl eq_refl eq_refl))
               [[None]] Hr).
Defined.

Lemma reconcile_call_trace_witness :
  exists new,
    calls state_samples = ([] ++ new)%list
    /\ map (fun c => (receiver c, op c)) new
       = [(BottomUp, Fit); (BottomUp, Predict); (BottomUp, Sample 2)]
    /\ Forall keywords_passed new.
Proof.
  assert (Hr : reconcile example_externals Y_hat_ETS S_total_a_b
                         tags_total_bottom None "normality" 2 0 true false
                         (__init__ [BottomUp] (Some [Int 95; Int 80]))
               = (state_samples, inr frame_samples))
    by (vm_compute; reflexivity).
  exact (reconcile_call_trace
           example_externals Y_hat_ETS S_total_a_b tags_total_bottom
           None "normality" 2 0 true false
           (__init__ [BottomUp] (Some [Int 95; Int 80]))
           state_samples frame_samples Hr).
Defined.

Lemma reconcile_execution_times_witness :
  clock state_intervals = 0 + 1 + 1 * 1
  /\ (forall rm t,
         In (rm, t) (execution_times state_intervals) ->
         exists i, 0 < i < clock state_intervals
                   /\ t = (example_clock i - example_clock 0)%Q)
  /\ (forall pair model fn_name,
         In pair [(BottomUp, BottomUp)] -> In model ["ETS"] ->
         _build_fn_name (snd pair) = inr fn_name ->
         exists t, dict_get (model ++ "/" ++ fn_name)
                            (execution_times state_intervals)
                   = Some t).
Proof.
  assert (Hr : reconcile example_externals Y_hat_ETS S_total_a_b
                         tags_total_bottom None "normality" (-1) 0 true false
                         (__init__ [BottomUp] (Some [Int 95; Int 80]))
               = (state_intervals, inr frame_intervals))
    by (vm_compute; reflexivity).
  exact (reconcile_execution_times
           example_externals Y_hat_ETS S_total_a_b tags_total_bottom
           None "normality" (-1) 0 true false
           (__init__ [BottomUp] (Some [Int 95; Int 80]))
           state_intervals frame_intervals Hr).
Defined.

(** The forecasts are given in the order [b], [a], [total]: the frame
    returned and the array passed to the reconciler are in the order of
    [S_total_a_b]. *)
Lemma reconcile_mean_only_witness :
  out_index frame_resorted = ["total"; "a"; "b"]
  /\ map kwargs (calls state_resorted)
     = [[("S", SMatrix false);
         ("y_hat", Array [[Some (10 # 1)%Q]; [Some (4 # 1)%Q];
                          [Some (5 # 1)%Q]]);
         ("idx_bottom", IdxBottom); ("tags", TagsIdx);
         ("level", Level None)]]
  /\ exists Y_hat_df' S_df Y_df' names,
      _prepare_fit example_externals false Y_hat_b_a_total S_total_a_b None
                   None "normality" true
      = inr (Y_hat_df', S_df, Y_df', names)
      /\ let pairs := list_prod [(BottomUp, BottomUp)] names in
         out_index frame_resorted = index Y_hat_df'
         /\ out_columns frame_resorted
            = fold_left set_mean
                        (enumerate_from 0 (map recmodel_name pairs))
                        (map (fun c => (fst c, Cells (snd c)))
                             (columns Y_hat_df'))
         /\ (exists new,
                calls state_resorted = ([] ++ new)%list
                /\ Forall2 (fun q => mean_call example_externals Y_hat_df'
                                               S_df (fst (fst q)) (snd q))
                           pairs new)
         /\ level state_resorted = None
         /\ level_names state_resorted = []
         /\ sample_names state_resorted = [].
Proof.
  assert (Hr : reconcile example_externals Y_hat_b_a_total S_total_a_b
                         tags_total_bottom None "normality" (-1) 0 true false
                         (__init__ [BottomUp] None)
               = (state_resorted, inr frame_resorted))
    by (vm_compute; reflexivity).
  split; [reflexivity |]. split; [reflexivity |].
  exact (reconcile_mean_only
           example_externals Y_hat_b_a_total S_total_a_b tags_total_bottom
           None "normality" (-1) 0 true false (__init__ [BottomUp] None)
           state_resorted frame_resorted eq_refl Hr).
Defined.


(** The array a reconciler receives holds the forecasts as [float32]. *)
Example y_hat_is_cast :
  y_hat_of example_externals Y_hat_tenths S_total_a_b "ETS"
  = inr [[Some (5033165 # 16777216)%Q];
         [Some (13421773 # 134217728)%Q];
         [Some (13421773 # 67108864)%Q]].
Proof. reflexivity. Qed.
